(** * Neovim Mastery: filter engine, progress tracker and session evaluator

    A shallow embedding of the [NeovimMastery] controller of [script.js]:
    [applyFilters], [toggleChallengeCompletion], [saveProgress],
    [loadProgress], [exportProgress], [updateStats], [submitExercise],
    [evaluateExercise] and [updateExerciseStats]. Further modules embed
    the challenge modal, the stored exercise statistics, the counts and
    chips of the challenge page, the flashcards, and the cheatsheet
    application with its theme manager.

    Conventions of the embedding.
    - A JavaScript string is a [string] holding its UTF-8 bytes (a string
      with an unpaired surrogate has no such form and is left out). [trim]
      strips the WhiteSpace and LineTerminator code points of ECMAScript
      in that encoding, so it is the method on every text. [toLowerCase]
      maps [A-Z] to [a-z] and leaves every other byte as it is, which is
      the method on text whose letters are ASCII: the theorems that say
      what the search matches are stated for ASCII text ([ascii_text]).
    - An exception is a value: a computation that may throw returns a
      [completion].
    - A [Set] of ids is a [gset]; [localStorage] is a [gmap] from keys to
      strings.
    - A JavaScript number that is a counter, an id or a cursor coordinate is
      a [Z]; where the code divides, the operands are converted to IEEE 754
      binary64 ([spec_float] at precision 53) and the arithmetic is that of
      the standard. *)

From Stdlib Require Import ZArith Bool Ascii String List Lia.
From Stdlib Require Import SpecFloat.
From stdpp Require Import base decidable option list gmap strings pretty.
From stdpp Require Import sorting.

Local Open Scope string_scope.
Local Open Scope Z_scope.

(** ** JavaScript strings *)

Module JsString.

(** [String.prototype.toLowerCase] on text whose letters are ASCII: the
    letters A-Z are folded and every other byte stays as it is. *)
Definition lower_char (c : ascii) : ascii :=
  let n := N_of_ascii c in
  if ((65 <=? n) && (n <=? 90))%N then ascii_of_N (n + 32) else c.

Fixpoint toLowerCase (s : string) : string :=
  match s with
  | EmptyString => EmptyString
  | String c r => String (lower_char c) (toLowerCase r)
  end.

(** Text without a character outside ASCII. *)
Fixpoint ascii_text (s : string) : bool :=
  match s with
  | EmptyString => true
  | String c r => (N_of_ascii c <? 128)%N && ascii_text r
  end.

(** The UTF-8 bytes of a code point below U+10000. *)
Definition utf8 (cp : N) : string :=
  (if cp <? 128 then String (ascii_of_N cp) EmptyString
   else if cp <? 2048 then
     String (ascii_of_N (192 + cp / 64))
       (String (ascii_of_N (128 + cp mod 64)) EmptyString)
   else
     String (ascii_of_N (224 + cp / 4096))
       (String (ascii_of_N (128 + (cp / 64) mod 64))
          (String (ascii_of_N (128 + cp mod 64)) EmptyString)))%N.

(** The code points that [String.prototype.trim] strips: WhiteSpace (TAB,
    VT, FF, U+FEFF and the space separators U+0020, U+00A0, U+1680,
    U+2000 to U+200A, U+202F, U+205F, U+3000) and LineTerminator (LF, CR,
    U+2028, U+2029). *)
Definition white_space_code_points : list N :=
  [9; 11; 12; 65279;
   32; 160; 5760;
   8192; 8193; 8194; 8195; 8196; 8197; 8198; 8199; 8200; 8201; 8202;
   8239; 8287; 12288;
   10; 13; 8232; 8233]%N.

Definition white_space : list string := map utf8 white_space_code_points.

(** [s] is one white space character. *)
Definition is_white_space (s : string) : bool := existsb (String.eqb s) white_space.

Definition is_empty (s : string) : bool :=
  match s with EmptyString => true | String _ _ => false end.

(** [String.prototype.trimStart]: a white space character is one, two or
    three bytes long. *)
Fixpoint trimStart (s : string) : string :=
  match s with
  | EmptyString => EmptyString
  | String a r =>
      if is_white_space (String a EmptyString) then trimStart r
      else
        match r with
        | EmptyString => s
        | String b r' =>
            if is_white_space (String a (String b EmptyString)) then trimStart r'
            else
              match r' with
              | EmptyString => s
              | String c r'' =>
                  if is_white_space (String a (String b (String c EmptyString)))
                  then trimStart r''
                  else s
              end
        end
  end.

(** [String.prototype.trimEnd]: once the rest is trimmed, what is left is
    dropped when it is one white space character. *)
Fixpoint trimEnd (s : string) : string :=
  match s with
  | EmptyString => EmptyString
  | String c r =>
      let r' := trimEnd r in
      if is_white_space (String c r') then EmptyString else String c r'
  end.

Definition trim (s : string) : string := trimEnd (trimStart s).

(** [s.startsWith(p)]. *)
Fixpoint startsWith (s p : string) {struct p} : bool :=
  match p, s with
  | EmptyString, _ => true
  | String _ _, EmptyString => false
  | String a p', String b s' => Ascii.eqb a b && startsWith s' p'
  end.

(** [s.includes(t)]: [t] occurs in [s] as a contiguous block. *)
Fixpoint includes (s t : string) : bool :=
  startsWith s t ||
  match s with
  | EmptyString => false
  | String _ s' => includes s' t
  end.

(** [t] occurs in [s] as a contiguous block. *)
Definition substring_of (t s : string) : Prop :=
  exists pre post, s = pre +:+ t +:+ post.

(** [t] occurs in [s] when letter case is ignored: some block of [s] and
    [t] have the same lower-case form. *)
Definition ci_substring_of (t s : string) : Prop :=
  exists pre mid post,
    s = pre +:+ mid +:+ post /\ toLowerCase mid = toLowerCase t.

(** A byte that is not the first one of a character. *)
Definition continuation (c : ascii) : bool :=
  ((128 <=? N_of_ascii c) && (N_of_ascii c <? 192))%N.

Fixpoint continuations (s : string) : bool :=
  match s with
  | EmptyString => true
  | String c r => continuation c && continuations r
  end.

(** A byte that is no letter of ASCII. *)
Definition caseless (c : ascii) : bool :=
  (negb ((65 <=? N_of_ascii c) && (N_of_ascii c <=? 90))
   && negb ((97 <=? N_of_ascii c) && (N_of_ascii c <=? 122)))%N.

Fixpoint all_caseless (s : string) : bool :=
  match s with
  | EmptyString => true
  | String c r => caseless c && all_caseless r
  end.

(** A run of white space characters. *)
Inductive white_run : string -> Prop :=
| white_run_nil : white_run EmptyString
| white_run_cons w r :
    In w white_space -> white_run r -> white_run (w +:+ r).

(** [core] is [s] without the white space around it: [s] is [core] between
    two runs of white space, and [core] neither starts nor ends with a
    white space character. *)
Definition stripped (s core : string) : Prop :=
  exists pre post,
    s = pre +:+ core +:+ post
    /\ white_run pre /\ white_run post
    /\ (forall w r, In w white_space -> core <> w +:+ r)
    /\ (forall w r, In w white_space -> core <> r +:+ w).

End JsString.

Import JsString.

(** ** Exceptions as values *)

Inductive JsError := TypeError | SyntaxError.

Inductive completion (A : Type) : Type :=
| Normal (a : A)
| Throw (e : JsError).
Arguments Normal {A} a.
Arguments Throw {A} e.

#[global] Instance completion_ret : MRet completion := fun A a => Normal a.

#[global] Instance completion_bind : MBind completion :=
  fun A B k c =>
    match c with
    | Normal a => k a
    | Throw e => Throw e
    end.

(** [arr.filter(f)] for a callback that may throw: the callback runs on the
    elements in order, and the first exception ends the pass. *)
Fixpoint filterC {A} (f : A -> completion bool) (l : list A) : completion (list A) :=
  match l with
  | [] => Normal []
  | x :: r =>
      b ← f x;
      r' ← filterC f r;
      Normal (if b : bool then x :: r' else r')
  end.

(** ** The catalog and the filter pass of [applyFilters] *)

Module Filter.

(** An entry of [challengeData.challenges]. The [tags] property is the
    one whose absence the filter is examined for: [None] is an entry
    without it ([challenge.tags] is [undefined]). *)
Record Challenge := {
  id : Z;
  title : string;
  description : string;
  tags : option (list string);
  difficulty : string;
  expected_time_min : Z;
  acceptance_criteria : list string
}.

(** What [applyFilters] reads from the page: the text of [#search-input],
    the [data-value] of the active difficulty chip ([None] when no chip is
    active) and the [data-value]s of the active tag chips. *)
Record FilterState := {
  search_term : string;
  difficulty_facet : option string;
  tag_facet : list string
}.

(** [querySelector(...)?.dataset.value || 'all'] *)
Definition activeDifficulty (st : FilterState) : string :=
  match difficulty_facet st with
  | Some v => if is_empty v then "all" else v
  | None => "all"
  end.

(** [challenge.tags.some(p)]: a [TypeError] when [tags] is [undefined]. *)
Definition tags_some (c : Challenge) (p : string -> bool) : completion bool :=
  match tags c with
  | Some ts => Normal (existsb p ts)
  | None => Throw TypeError
  end.

(** [challenge.tags.includes(tag)] *)
Definition tags_includes (c : Challenge) (tag : string) : completion bool :=
  match tags c with
  | Some ts => Normal (existsb (String.eqb tag) ts)
  | None => Throw TypeError
  end.

(** [activeTags.some(tag => challenge.tags.includes(tag))]: stops at the
    first tag found. *)
Fixpoint activeTags_some (c : Challenge) (activeTags : list string) : completion bool :=
  match activeTags with
  | [] => Normal false
  | tag :: rest =>
      b ← tags_includes c tag;
      if b : bool then Normal true else activeTags_some c rest
  end.

(** The callback given to [filter] in [applyFilters]. *)
Definition matches (searchTerm activeDiff : string) (activeTags : list string)
    (c : Challenge) : completion bool :=
  matchesSearch ←
    (if is_empty searchTerm then Normal true
     else if includes (toLowerCase (title c)) searchTerm then Normal true
     else if includes (toLowerCase (description c)) searchTerm then Normal true
     else tags_some c (fun tag => includes (toLowerCase tag) searchTerm));
  let matchesDifficulty :=
    String.eqb activeDiff "all" || String.eqb (difficulty c) activeDiff in
  matchesTags ←
    (match activeTags with
     | [] => Normal true
     | _ :: _ => activeTags_some c activeTags
     end);
  Normal (matchesSearch && matchesDifficulty && matchesTags).

(** The filter pass of [applyFilters(searchTerm = '')], lines 213 to 234:
    the value that is assigned to [this.filteredChallenges]. An empty
    argument is replaced by the normalised text of the search box. What
    [applyFilters] does after the pass, the redraw of the cards, is in
    [Loaded.applyFilters]. *)
Definition filter_pass (searchTerm : string) (st : FilterState)
    (challenges : list Challenge) : completion (list Challenge) :=
  let activeDiff := activeDifficulty st in
  let activeTags := tag_facet st in
  let searchTerm :=
    if is_empty searchTerm then trim (toLowerCase (search_term st))
    else searchTerm in
  filterC (matches searchTerm activeDiff activeTags) challenges.

(** The filter pass over a catalog under a filter state, as
    [handleFilter] starts it ([applyFilters()] without an argument): the
    [computeVisible] of the specification. *)
Definition computeVisible (catalog : list Challenge) (st : FilterState)
    : completion (list Challenge) :=
  filter_pass EmptyString st catalog.

End Filter.

(** ** JavaScript numbers where the code divides: IEEE 754 binary64 *)

Module JsNumber.

Definition prec : Z := 53.
Definition emax : Z := 1024.

Definition NaN : spec_float := S754_nan.

(** The double of an integer (exact below 2^53). *)
Definition of_Z (n : Z) : spec_float := binary_normalize prec emax n 0 false.

Definition div (x y : spec_float) : spec_float := SFdiv prec emax x y.
Definition mul (x y : spec_float) : spec_float := SFmul prec emax x y.

Definition signed (s : bool) (m : positive) : Z :=
  if s then Z.neg m else Z.pos m.

(** [Math.round]: the nearest integer, a tie going towards +infinity;
    NaN, the infinities and the zeros are returned as they are, and a
    result of zero keeps the sign of the argument. *)
Definition Math_round (x : spec_float) : spec_float :=
  match x with
  | S754_finite s m e =>
      if 0 <=? e then x
      else
        let d := 2 ^ (- e) in
        let n := (2 * signed s m + d) / (2 * d) in
        if n =? 0 then S754_zero s else of_Z n
  | _ => x
  end.

(** [Math.floor]. *)
Definition Math_floor (x : spec_float) : spec_float :=
  match x with
  | S754_finite s m e =>
      if 0 <=? e then x
      else
        let n := signed s m / 2 ^ (- e) in
        if n =? 0 then S754_zero s else of_Z n
  | _ => x
  end.

(** The integer a double stands for, when it is one. *)
Definition to_Z (x : spec_float) : option Z :=
  match x with
  | S754_zero _ => Some 0
  | S754_finite s m e =>
      if 0 <=? e then Some (signed s m * 2 ^ e)
      else if (signed s m mod 2 ^ (- e)) =? 0 then Some (signed s m / 2 ^ (- e))
      else None
  | _ => None
  end.

(** The percentage of [part] in [whole] rounded to the nearest integer on
    the exact quotient, a tie going up: [round(100 * part / whole)]. *)
Definition round_percent (part whole : Z) : Z :=
  (200 * part + whole) / (2 * whole).

End JsNumber.

(** ** JSON values and the [JSON] object *)

Module Json.

(** A JSON value; the numbers of the documents handled here (ids and
    counters) are integers. The properties of an object are listed in
    order, each key once. *)
#[local] Unset Elimination Schemes.
Inductive json :=
| JNull
| JBool (b : bool)
| JNum (n : Z)
| JStr (s : string)
| JArr (items : list json)
| JObj (props : list (string * json)).
#[local] Set Elimination Schemes.

(** [o[key]] on the property list of an object; [None] is [undefined]. *)
Fixpoint lookup_prop (key : string) (props : list (string * json)) : option json :=
  match props with
  | [] => None
  | (k, v) :: rest => if String.eqb k key then Some v else lookup_prop key rest
  end.

(** [v.key] for a parsed value [v]: a [TypeError] on [null], [undefined]
    on a value without the property. *)
Definition get_prop (v : json) (key : string) : completion (option json) :=
  match v with
  | JNull => Throw TypeError
  | JObj props => Normal (lookup_prop key props)
  | _ => Normal None
  end.

(** Truthiness of a property value ([undefined] is [None]). *)
Definition truthy (v : option json) : bool :=
  match v with
  | None => false
  | Some JNull => false
  | Some (JBool b) => b
  | Some (JNum n) => negb (n =? 0)
  | Some (JStr s) => negb (is_empty s)
  | Some (JArr _) => true
  | Some (JObj _) => true
  end.

(** [v || d] *)
Definition or_else (v : option json) (d : json) : json :=
  match v with
  | Some x => if truthy v then x else d
  | None => d
  end.

(** The built-in [JSON] object: [JSON.stringify] and [JSON.parse], the
    latter throwing a [SyntaxError] on text that is not JSON. *)
Class JSON := {
  JSON_stringify : json -> string;
  JSON_parse : string -> completion json
}.

(** The text of [v] is not empty and [JSON.parse] reads [v] back from
    it. *)
Definition roundtrips `{JSON} (v : json) : Prop :=
  JSON_stringify v <> EmptyString /\ JSON_parse (JSON_stringify v) = Normal v.

(** Encoding into stdpp's generic trees, for the countability that
    [gset json] needs. *)
Fixpoint to_tree (j : json) : gen_tree (bool + Z + string) :=
  match j with
  | JNull => GenNode 0 []
  | JBool b => GenLeaf (inl (inl b))
  | JNum n => GenLeaf (inl (inr n))
  | JStr s => GenLeaf (inr s)
  | JArr items => GenNode 1 (map to_tree items)
  | JObj props =>
      GenNode 2 (map (fun p => GenNode 3 [GenLeaf (inr (fst p)); to_tree (snd p)]) props)
  end.

Fixpoint of_tree (t : gen_tree (bool + Z + string)) : json :=
  match t with
  | GenLeaf (inl (inl b)) => JBool b
  | GenLeaf (inl (inr n)) => JNum n
  | GenLeaf (inr s) => JStr s
  | GenNode 1 ts => JArr (map of_tree ts)
  | GenNode 2 ts =>
      JObj (map (fun t =>
                   match t with
                   | GenNode _ [GenLeaf (inr k); v] => (k, of_tree v)
                   | _ => (EmptyString, JNull)
                   end) ts)
  | GenNode _ _ => JNull
  end.

Lemma of_to_tree (j : json) : of_tree (to_tree j) = j.
Proof.
  revert j. fix IH 1. intros [| b | n | s | items | props]; simpl; try reflexivity.
  - f_equal. induction items as [| x r IHr]; simpl; [reflexivity |].
    rewrite IH, IHr. reflexivity.
  - f_equal. induction props as [| [k v] r IHr]; simpl; [reflexivity |].
    rewrite IH, IHr. reflexivity.
Qed.

#[global] Instance json_eq_dec : EqDecision json.
Proof.
  intros x y. destruct (decide (to_tree x = to_tree y)) as [E | N].
  - left. rewrite <- (of_to_tree x), <- (of_to_tree y), E. reflexivity.
  - right. intros ->. apply N. reflexivity.
Defined.

#[global] Instance json_countable : Countable json :=
  inj_countable' to_tree of_tree of_to_tree.

End Json.

Import Json.
Import Filter.
Import JsNumber.

(** ** The controller: state of a [NeovimMastery] object *)

Module App.

Record ExerciseStats := {
  completed : Z;
  total : Z;
  success : Z
}.

(** A practice exercise of [challengeData.practice_exercises]. *)
Record Exercise := {
  exercise_id : Z;
  solution_check : string;
  target_line : Z;
  target_column : Z;
  expected_result : string;
  hint : string
}.

(** [editor.getCursor()]: zero-based line and column. *)
Record Cursor := {
  line : Z;
  ch : Z
}.

(** The practice editor: [getValue()] and [getCursor()]. *)
Record Editor := {
  getValue : string;
  getCursor : Cursor
}.

Record NeovimMastery := {
  challenges : list Challenge;
  completedChallenges : gset json;
  exerciseStats : ExerciseStats;
  editor : option Editor;
  currentExercise : option Exercise;
  localStorage : gmap string string
}.

Definition set_completedChallenges (s : gset json) (app : NeovimMastery) : NeovimMastery :=
  {| challenges := challenges app;
     completedChallenges := s;
     exerciseStats := exerciseStats app;
     editor := editor app;
     currentExercise := currentExercise app;
     localStorage := localStorage app |}.

Definition set_exerciseStats (st : ExerciseStats) (app : NeovimMastery) : NeovimMastery :=
  {| challenges := challenges app;
     completedChallenges := completedChallenges app;
     exerciseStats := st;
     editor := editor app;
     currentExercise := currentExercise app;
     localStorage := localStorage app |}.

Definition set_localStorage (m : gmap string string) (app : NeovimMastery) : NeovimMastery :=
  {| challenges := challenges app;
     completedChallenges := completedChallenges app;
     exerciseStats := exerciseStats app;
     editor := editor app;
     currentExercise := currentExercise app;
     localStorage := m |}.

Definition set_editor (ed : option Editor) (app : NeovimMastery) : NeovimMastery :=
  {| challenges := challenges app;
     completedChallenges := completedChallenges app;
     exerciseStats := exerciseStats app;
     editor := ed;
     currentExercise := currentExercise app;
     localStorage := localStorage app |}.

Definition set_currentExercise (ex : option Exercise) (app : NeovimMastery)
    : NeovimMastery :=
  {| challenges := challenges app;
     completedChallenges := completedChallenges app;
     exerciseStats := exerciseStats app;
     editor := editor app;
     currentExercise := ex;
     localStorage := localStorage app |}.

(** The object after [constructor()] and [loadChallengeData()], in a
    browser whose storage holds [storage]: no challenge completed, zeroed
    statistics, no editor and no exercise selected. *)
Definition constructor (catalog : list Challenge) (storage : gmap string string)
    : NeovimMastery :=
  {| challenges := catalog;
     completedChallenges := ∅;
     exerciseStats := {| completed := 0; total := 0; success := 0 |};
     editor := None;
     currentExercise := None;
     localStorage := storage |}.

(** [try { body } catch (error) { handler }] *)
Definition try_catch {A} (body : completion A) (handler : JsError -> completion A)
    : completion A :=
  match body with
  | Normal a => Normal a
  | Throw e => handler e
  end.

(** [new Set(v)]: the elements of an array, the characters of a string,
    nothing for [null]; a [TypeError] for a value that cannot be
    iterated. *)
Definition new_Set (v : json) : completion (gset json) :=
  match v with
  | JArr items => Normal (list_to_set items)
  | JStr s =>
      Normal (list_to_set (map (fun c => JStr (String c EmptyString))
                               (list_ascii_of_string s)))
  | JNull => Normal ∅
  | _ => Throw TypeError
  end.

Definition progress_key : string := "neovim-mastery-progress".
Definition exercise_progress_key : string := "neovim-mastery-exercise-progress".

Section Progress.
Context `{JSON}.

(** The object that [saveProgress] serialises; [now] is
    [new Date().toISOString()]. *)
Definition progress_document (ids : gset json) (now : string) : json :=
  JObj [("completedChallenges", JArr (elements ids));
        ("lastUpdated", JStr now)].

Definition saveProgress (now : string) (app : NeovimMastery) : NeovimMastery :=
  let progress := progress_document (completedChallenges app) now in
  set_localStorage
    (<[progress_key := JSON_stringify progress]> (localStorage app)) app.

Definition loadProgress (app : NeovimMastery) : completion NeovimMastery :=
  try_catch
    (match localStorage app !! progress_key with
     | Some saved =>
         if is_empty saved then Normal app
         else
           progress ← JSON_parse saved;
           ids ← get_prop progress "completedChallenges";
           s ← new_Set (or_else ids (JArr []));
           Normal (set_completedChallenges s app)
     | None => Normal app
     end)
    (fun error => Normal app).

(** [toggleChallengeCompletion()]; [challengeId] is the
    [parseInt(toggleButton.dataset.challengeId)] of the source. The calls
    that only redraw the page are left out. *)
Definition toggleChallengeCompletion (now : string) (challengeId : Z)
    (app : NeovimMastery) : NeovimMastery :=
  let ids := completedChallenges app in
  let ids' :=
    if decide (JNum challengeId ∈ ids) then ids ∖ {[JNum challengeId]}
    else ids ∪ {[JNum challengeId]} in
  saveProgress now (set_completedChallenges ids' app).

Definition exercise_progress_document (st : ExerciseStats) (now : string) : json :=
  JObj [("exerciseStats",
          JObj [("completed", JNum (completed st));
                ("total", JNum (total st));
                ("success", JNum (success st))]);
        ("lastUpdated", JStr now)].

Definition saveExerciseProgress (now : string) (app : NeovimMastery) : NeovimMastery :=
  let progress := exercise_progress_document (exerciseStats app) now in
  set_localStorage
    (<[exercise_progress_key := JSON_stringify progress]> (localStorage app)) app.

End Progress.

(** The document that [exportProgress] offers for download. *)
Record ExportDocument := {
  ex_completedChallenges : list json;
  totalChallenges : Z;
  completionPercentage : spec_float;
  exportDate : string;
  platform : string
}.

Definition exportProgress (now : string) (app : NeovimMastery) : ExportDocument :=
  let size := Z.of_nat (size (completedChallenges app)) in
  let length := Z.of_nat (length (challenges app)) in
  {| ex_completedChallenges := elements (completedChallenges app);
     totalChallenges := length;
     completionPercentage :=
       Math_round (mul (div (of_Z size) (of_Z length)) (of_Z 100));
     exportDate := now;
     platform := "Neovim Mastery" |}.

(** [updateStats()]: the completed count, the total count and the width,
    in percent, of the progress bar. *)
Definition updateStats (app : NeovimMastery) : Z * Z * spec_float :=
  let completed := Z.of_nat (size (completedChallenges app)) in
  let total := Z.of_nat (length (challenges app)) in
  let percentage :=
    if 0 <? total then mul (div (of_Z completed) (of_Z total)) (of_Z 100)
    else of_Z 0 in
  (completed, total, percentage).

End App.

Import App.

(** ** The session evaluator ([evaluateExercise], [submitExercise]) *)

Module Evaluator.

(** What [evaluateExercise] returns. [encouragement] is an element of an
    array: [None] is the [undefined] of an index outside it. *)
Record Verdict := {
  v_success : bool;
  feedback : string;
  encouragement : option string
}.

Definition encouragements : list string :=
  ["🎉 Outstanding work!";
   "⚡ You're becoming a Vim master!";
   "🚀 Excellent progress!";
   "💪 Strong Vim skills!";
   "🎯 Perfect execution!";
   "🔥 You're on fire!";
   "⭐ Stellar performance!"].

(** [encouragements[Math.floor(random * encouragements.length)]], where
    [random] is the double returned by [Math.random()]. *)
Definition pick_encouragement (random : spec_float) : option string :=
  let idx := Math_floor (mul random (of_Z (Z.of_nat (length encouragements)))) in
  match to_Z idx with
  | Some i => if i <? 0 then None else nth_error encouragements (Z.to_nat i)
  | None => None
  end.

(** [evaluateExercise(userContent, cursor)] for [this.currentExercise =
    exercise]; [random] is the value [Math.random()] returns when it is
    called. *)
Definition evaluateExercise (exercise : Exercise) (userContent : string)
    (cursor : Cursor) (random : spec_float) : Verdict :=
  let '(success, feedback) :=
    if String.eqb (solution_check exercise) "cursor_position" then
      let targetLine := target_line exercise - 1 in
      let targetCol := target_column exercise in
      let success :=
        (line cursor =? targetLine) && (Z.abs (ch cursor - targetCol) <=? 2) in
      (success,
       if success then
         "Perfect! You navigated to line " +:+ pretty (line cursor + 1)
         +:+ ", column " +:+ pretty (ch cursor + 1) +:+ "!"
       else
         "Try to reach line " +:+ pretty (target_line exercise)
         +:+ ", column " +:+ pretty (target_column exercise)
         +:+ ". You're at " +:+ pretty (line cursor + 1)
         +:+ ":" +:+ pretty (ch cursor + 1))
    else if String.eqb (solution_check exercise) "text_content" then
      let success := String.eqb (trim userContent) (trim (expected_result exercise)) in
      (success,
       if success then "Excellent! Your text matches the expected result!"
       else "The text doesn't quite match. Check your edits and try again.")
    else if String.eqb (solution_check exercise) "word_navigation" then
      (true, "Great job practicing word navigation! Keep using w, b, and e to master word movements.")
    else if String.eqb (solution_check exercise) "visual_selection" then
      (true, "Well done! Visual mode is powerful for selecting and manipulating text.")
    else if String.eqb (solution_check exercise) "text_objects" then
      (true, "Excellent! Text objects make vim editing incredibly efficient.")
    else
      (true, "Exercise completed! Keep practicing to master these skills.") in
  {| v_success := success;
     feedback := feedback;
     encouragement :=
       if success then pick_encouragement random else Some EmptyString |}.

Section Submit.
Context `{JSON}.

(** [submitExercise()]: nothing happens without an editor and a selected
    exercise; otherwise the verdict updates the statistics, which are
    then saved. *)
Definition submitExercise (now : string) (random : spec_float)
    (app : NeovimMastery) : NeovimMastery :=
  match editor app, currentExercise app with
  | Some ed, Some exercise =>
      let result := evaluateExercise exercise (getValue ed) (getCursor ed) random in
      let st := exerciseStats app in
      let st :=
        if v_success result
        then {| completed := completed st; total := total st;
                success := success st + 1 |}
        else st in
      let st :=
        {| completed := completed st + 1; total := total st;
           success := success st |} in
      saveExerciseProgress now (set_exerciseStats st app)
  | _, _ => app
  end.

(** The controllers a practice session reaches from a newly constructed
    one: an exercise is selected or dropped, the editor is opened or
    edited, an exercise is submitted. *)
Inductive practising : NeovimMastery -> Prop :=
| practising_start catalog storage :
    practising (constructor catalog storage)
| practising_select exercise app :
    practising app -> practising (set_currentExercise exercise app)
| practising_edit ed app :
    practising app -> practising (set_editor ed app)
| practising_submit now random app :
    practising app -> practising (submitExercise now random app).

End Submit.

(** [updateExerciseStats()]: the text of [#exercises-completed] and the
    number shown, followed by a percent sign, in [#success-rate]. *)
Definition updateExerciseStats (app : NeovimMastery) : Z * spec_float :=
  let st := exerciseStats app in
  let rate :=
    if 0 <? completed st
    then Math_round (mul (div (of_Z (success st)) (of_Z (completed st))) (of_Z 100))
    else of_Z 0 in
  (completed st, rate).

End Evaluator.

Import Evaluator.

(** ** The filter predicate in the words of the specification *)

Module FilterSpec.

(** The tag set of an entry; an entry without [tags] has none. *)
Definition tag_set (c : Challenge) : list string := default [] (tags c).

(** Search: the term is empty, or a case-insensitive substring of the
    title, of the description, or of some tag. *)
Definition search_holds (term : string) (c : Challenge) : Prop :=
  term = EmptyString \/
  ci_substring_of term (title c) \/
  ci_substring_of term (description c) \/
  exists tag, In tag (tag_set c) /\ ci_substring_of term tag.

(** Difficulty: the facet is "all" or the difficulty of the entry. *)
Definition difficulty_holds (facet : string) (c : Challenge) : Prop :=
  facet = "all" \/ difficulty c = facet.

(** Tags: no tag is selected, or the entry has one of the selected tags. *)
Definition tags_hold (facet : list string) (c : Challenge) : Prop :=
  facet = [] \/ exists tag, In tag facet /\ In tag (tag_set c).

(** The three predicates on the search term as it was typed. *)
Definition visible_as_typed (st : FilterState) (c : Challenge) : Prop :=
  search_holds (search_term st) c /\
  difficulty_holds (activeDifficulty st) c /\
  tags_hold (tag_facet st) c.

(** The three predicates on the trimmed search term. *)
Definition visible (st : FilterState) (c : Challenge) : Prop :=
  search_holds (trim (search_term st)) c /\
  difficulty_holds (activeDifficulty st) c /\
  tags_hold (tag_facet st) c.

(** The difficulty facet stands for "all": no chip is active, or the
    value of the active chip is empty or "all". *)
Definition facet_is_all (facet : option string) : Prop :=
  facet = None \/ facet = Some EmptyString \/ facet = Some "all".

(** Difficulty, on the facet as the page has it: the facet stands for
    "all" or is the difficulty of the entry. *)
Definition difficulty_facet_holds (facet : option string) (c : Challenge) : Prop :=
  facet_is_all facet \/ facet = Some (difficulty c).

(** The three predicates for [term], the search text without the white
    space around it. *)
Definition shown (term : string) (st : FilterState) (c : Challenge) : Prop :=
  search_holds term c /\
  difficulty_facet_holds (difficulty_facet st) c /\
  tags_hold (tag_facet st) c.

(** The strings of an entry that the search folds to lower case are
    ASCII. *)
Definition ascii_challenge (c : Challenge) : bool :=
  ascii_text (title c) && ascii_text (description c)
  && forallb ascii_text (tag_set c).

(** [result] is [catalog] with exactly the entries satisfying [P] kept,
    in their order. *)
Definition selects {A} (P : A -> Prop) (catalog result : list A) : Prop :=
  exists f : A -> bool,
    (forall x, f x = true <-> P x) /\ result = List.filter f catalog.

Definition no_tags (c : Challenge) : bool :=
  match tags c with Some _ => false | None => true end.

Definition is_nil {A} (l : list A) : bool :=
  match l with [] => true | _ :: _ => false end.

(** The callback reaches [challenge.tags]: a tag is selected, or the
    normalised search term is not empty and occurs neither in the title
    nor in the description. *)
Definition reads_tags (searchTerm : string) (activeTags : list string)
    (c : Challenge) : bool :=
  (negb (is_empty searchTerm)
   && negb (includes (toLowerCase (title c)) searchTerm)
   && negb (includes (toLowerCase (description c)) searchTerm))
  || negb (is_nil activeTags).

Definition consults_tags (st : FilterState) (c : Challenge) : bool :=
  reads_tags (trim (toLowerCase (search_term st))) (tag_facet st) c.

(** The value of the callback when nothing is thrown, with [tag_set] for
    the tags. *)
Definition matchesb (searchTerm activeDiff : string) (activeTags : list string)
    (c : Challenge) : bool :=
  (is_empty searchTerm
   || includes (toLowerCase (title c)) searchTerm
   || includes (toLowerCase (description c)) searchTerm
   || existsb (fun tag => includes (toLowerCase tag) searchTerm) (tag_set c))
  && (String.eqb activeDiff "all" || String.eqb (difficulty c) activeDiff)
  && (is_nil activeTags
      || existsb (fun tag => existsb (String.eqb tag) (tag_set c)) activeTags).

End FilterSpec.

Import FilterSpec.

(** ** The filter and the redraw on entries as they are loaded

    [Filter] has entries whose [tags] is an array of strings or is not
    there. The file that [loadChallengeData] reads may hold anything
    under that key; here the callback of the filter is embedded again on
    such entries, and with it the rest of [applyFilters]: the redraw of
    the cards. Lemma [matches_loaded] relates the two callbacks. *)

Module Loaded.

(** An entry of [challengeData.challenges] as [response.json()] delivers
    it. [fields] has the properties other than [tags] (its own [tags] is
    not looked at); [tags_value] is the value of [challenge.tags], [None]
    for [undefined]. *)
Record CatalogEntry := {
  fields : Challenge;
  tags_value : option json
}.

(** The entry that a [Challenge] stands for. *)
Definition loaded (c : Challenge) : CatalogEntry :=
  {| fields := c;
     tags_value := (fun ts => JArr (map JStr ts)) <$> tags c |}.

(** [arr.some(p)] for a callback that may throw: the callback runs on the
    elements in order up to the first one it holds of. *)
Fixpoint someC {A} (p : A -> completion bool) (l : list A) : completion bool :=
  match l with
  | [] => Normal false
  | x :: r =>
      b ← p x;
      if b : bool then Normal true else someC p r
  end.

(** [tag => tag.toLowerCase().includes(searchTerm)]: only a string has
    [toLowerCase]. *)
Definition tag_matches (searchTerm : string) (tag : json) : completion bool :=
  match tag with
  | JStr s => Normal (includes (toLowerCase s) searchTerm)
  | _ => Throw TypeError
  end.

(** [challenge.tags.some(...)]: only an array has [some]. *)
Definition tags_some (e : CatalogEntry) (searchTerm : string) : completion bool :=
  match tags_value e with
  | Some (JArr items) => someC (tag_matches searchTerm) items
  | _ => Throw TypeError
  end.

(** An element of an array that is the string [tag]. *)
Definition is_tag (tag : string) (x : json) : bool :=
  match x with
  | JStr s => String.eqb tag s
  | _ => false
  end.

(** [challenge.tags.includes(tag)]: an array holds [tag] or not, a string
    contains it or not, and nothing else has [includes]. *)
Definition tags_includes (e : CatalogEntry) (tag : string) : completion bool :=
  match tags_value e with
  | Some (JArr items) => Normal (existsb (is_tag tag) items)
  | Some (JStr s) => Normal (includes s tag)
  | _ => Throw TypeError
  end.

(** [activeTags.some(tag => challenge.tags.includes(tag))] *)
Definition activeTags_some (e : CatalogEntry) (activeTags : list string)
    : completion bool :=
  someC (tags_includes e) activeTags.

(** The callback given to [filter] in [applyFilters]. *)
Definition matches (searchTerm activeDiff : string) (activeTags : list string)
    (e : CatalogEntry) : completion bool :=
  let challenge := fields e in
  matchesSearch ←
    (if is_empty searchTerm then Normal true
     else if includes (toLowerCase (title challenge)) searchTerm then Normal true
     else if includes (toLowerCase (description challenge)) searchTerm then Normal true
     else tags_some e searchTerm);
  let matchesDifficulty :=
    String.eqb activeDiff "all" || String.eqb (difficulty challenge) activeDiff in
  matchesTags ←
    (match activeTags with
     | [] => Normal true
     | _ :: _ => activeTags_some e activeTags
     end);
  Normal (matchesSearch && matchesDifficulty && matchesTags).

(** The filter pass of [applyFilters(searchTerm = '')], lines 213 to 234. *)
Definition filter_pass (searchTerm : string) (st : FilterState)
    (challenges : list CatalogEntry) : completion (list CatalogEntry) :=
  let activeDiff := activeDifficulty st in
  let activeTags := tag_facet st in
  let searchTerm :=
    if is_empty searchTerm then trim (toLowerCase (search_term st))
    else searchTerm in
  filterC (matches searchTerm activeDiff activeTags) challenges.

(** What a card shows of its entry: the id, whether the entry is
    completed, and the first three tags. *)
Record Card := {
  card_challengeId : Z;
  card_completed : bool;
  card_tags : list json
}.

(** [createChallengeCard(challenge)]: [challenge.tags.slice(0, 3).map(...)]
    needs an array; a string has [slice] but what it returns has no
    [map]. *)
Definition createChallengeCard (completedChallenges : gset json)
    (e : CatalogEntry) : completion Card :=
  match tags_value e with
  | Some (JArr items) =>
      Normal {| card_challengeId := id (fields e);
                card_completed :=
                  bool_decide (JNum (id (fields e)) ∈ completedChallenges);
                card_tags := take 3 items |}
  | _ => Throw TypeError
  end.

(** The [forEach] of [renderChallenges]: each card is appended to the
    grid as it is made; an exception leaves the cards made so far. *)
Fixpoint append_cards (completedChallenges : gset json)
    (filteredChallenges : list CatalogEntry) (grid : list Card)
    : list Card * option JsError :=
  match filteredChallenges with
  | [] => (grid, None)
  | e :: rest =>
      match createChallengeCard completedChallenges e with
      | Normal card => append_cards completedChallenges rest (grid ++ [card])%list
      | Throw error => (grid, Some error)
      end
  end.

(** [renderChallenges()]: the grid is emptied and filled again. The
    result is the content of the grid and the exception that ended the
    call, if one did. *)
Definition renderChallenges (completedChallenges : gset json)
    (filteredChallenges : list CatalogEntry) : list Card * option JsError :=
  append_cards completedChallenges filteredChallenges [].

(** What the challenge tab shows: [this.filteredChallenges] and the cards
    of the grid. *)
Record Grid := {
  filteredChallenges : list CatalogEntry;
  cards : list Card
}.

(** [applyFilters(searchTerm = '')] as a whole: when the filter pass
    throws, nothing is assigned; otherwise [this.filteredChallenges] is
    assigned and the cards are redrawn. The result is the state left
    behind and the exception that ended the call, if one did. *)
Definition applyFilters (searchTerm : string) (st : FilterState)
    (completedChallenges : gset json) (challenges : list CatalogEntry)
    (g : Grid) : Grid * option JsError :=
  match filter_pass searchTerm st challenges with
  | Throw error => (g, Some error)
  | Normal visible =>
      let '(grid, thrown) := renderChallenges completedChallenges visible in
      ({| filteredChallenges := visible; cards := grid |}, thrown)
  end.

(** [handleSearch(query)], called with the text of the search box. *)
Definition handleSearch (query : string) (st : FilterState)
    (completedChallenges : gset json) (challenges : list CatalogEntry)
    (g : Grid) : Grid * option JsError :=
  applyFilters (trim (toLowerCase query)) st completedChallenges challenges g.

End Loaded.

(** ** What the filter does with [tags], in closed form *)

Module LoadedSpec.

Import Loaded.

(** The value under [tags] is an array. *)
Definition is_array (v : option json) : bool :=
  match v with Some (JArr _) => true | _ => false end.

(** The search cannot go through these elements: one that is not a string
    comes before every tag that contains the term. *)
Fixpoint trips (term : string) (items : list json) : bool :=
  match items with
  | [] => false
  | JStr s :: rest => negb (includes (toLowerCase s) term) && trips term rest
  | _ :: _ => true
  end.

(** The search cannot read the value: it is no array, or it is an array
    that the search trips on. *)
Definition search_fails (term : string) (v : option json) : bool :=
  match v with
  | Some (JArr items) => trips term items
  | _ => true
  end.

(** The tag facet cannot read the value: it is neither an array nor a
    string. *)
Definition facet_fails (v : option json) : bool :=
  match v with
  | Some (JArr _) | Some (JStr _) => false
  | _ => true
  end.

(** The search gets as far as [challenge.tags]: the term is not empty and
    occurs neither in the title nor in the description. *)
Definition search_reaches (term : string) (c : Challenge) : bool :=
  negb (is_empty term)
  && negb (includes (toLowerCase (title c)) term)
  && negb (includes (toLowerCase (description c)) term).

(** The callback throws on the entry: the search reaches [tags] and
    cannot read the value, or a tag is selected and the tag facet cannot
    read it. *)
Definition misreads (term : string) (activeTags : list string)
    (e : CatalogEntry) : bool :=
  (search_reaches term (fields e) && search_fails term (tags_value e))
  || (negb (is_nil activeTags) && facet_fails (tags_value e)).

(** Some tag of the value contains the term. *)
Definition tag_found (term : string) (v : option json) : bool :=
  match v with
  | Some (JArr items) =>
      existsb (fun x => match x with
                        | JStr s => includes (toLowerCase s) term
                        | _ => false
                        end) items
  | _ => false
  end.

(** The value has the selected tag: an array holds it, a string contains
    it. *)
Definition facet_found (v : option json) (tag : string) : bool :=
  match v with
  | Some (JArr items) => existsb (is_tag tag) items
  | Some (JStr s) => includes s tag
  | _ => false
  end.

(** The value of the callback when it does not throw. *)
Definition keeps (term activeDiff : string) (activeTags : list string)
    (e : CatalogEntry) : bool :=
  (is_empty term
   || includes (toLowerCase (title (fields e))) term
   || includes (toLowerCase (description (fields e))) term
   || tag_found term (tags_value e))
  && (String.eqb activeDiff "all" || String.eqb (difficulty (fields e)) activeDiff)
  && (is_nil activeTags || existsb (facet_found (tags_value e)) activeTags).



End LoadedSpec.

(** ** A reader and writer of JSON text

    An instance of [JSON] to run the controller on concrete storage
    contents. It covers the JSON grammar without escape sequences in
    strings and without fractions or exponents in numbers, which is what
    the documents of the controller use. *)

Module SampleJSON.

Definition quote (s : string) : string :=
  String "034" s +:+ String "034" EmptyString.

Fixpoint stringify (j : json) : string :=
  match j with
  | JNull => "null"
  | JBool b => if b then "true" else "false"
  | JNum n => pretty n
  | JStr s => quote s
  | JArr items => "[" +:+ String.concat "," (map stringify items) +:+ "]"
  | JObj props =>
      "{" +:+
      String.concat ","
        (map (fun p => quote (fst p) +:+ ":" +:+ stringify (snd p)) props)
      +:+ "}"
  end.

Definition is_json_white (c : ascii) : bool :=
  let n := N_of_ascii c in
  ((n =? 32) || (n =? 9) || (n =? 10) || (n =? 13))%N.

Fixpoint skip_white (s : string) : string :=
  match s with
  | EmptyString => EmptyString
  | String c r => if is_json_white c then skip_white r else s
  end.

Definition digit_of (c : ascii) : option Z :=
  let n := N_of_ascii c in
  if ((48 <=? n) && (n <=? 57))%N then Some (Z.of_N (n - 48)) else None.

(** The digits at the head of [s]: their value, their count, the rest. *)
Fixpoint read_digits (s : string) (acc : Z) (count : nat) : Z * nat * string :=
  match s with
  | EmptyString => (acc, count, s)
  | String c r =>
      match digit_of c with
      | Some d => read_digits r (10 * acc + d) (S count)
      | None => (acc, count, s)
      end
  end.

Definition starts_fraction (s : string) : bool :=
  match s with
  | String c _ =>
      Ascii.eqb c "." || Ascii.eqb c "e" || Ascii.eqb c "E"
  | EmptyString => false
  end.

(** An integer literal without sign. *)
Definition read_natural (s : string) : option (Z * string) :=
  let '(n, count, rest) := read_digits s 0 0 in
  match count with
  | O => None
  | S O => if starts_fraction rest then None else Some (n, rest)
  | S (S _) =>
      if startsWith s "0" || starts_fraction rest then None else Some (n, rest)
  end.

(** The characters up to the closing quote. *)
Fixpoint read_string (s : string) : option (string * string) :=
  match s with
  | EmptyString => None
  | String c r =>
      if Ascii.eqb c "034" then Some (EmptyString, r)
      else if Ascii.eqb c "\" || (N_of_ascii c <? 32)%N then None
      else
        match read_string r with
        | Some (t, rest) => Some (String c t, rest)
        | None => None
        end
  end.

Definition reader (A : Type) : Type := string -> option (A * string).

(** Values separated by commas up to the closing bracket. *)
Fixpoint read_items (value : reader json) (n : nat) (s : string)
    : option (list json * string) :=
  match n with
  | O => None
  | S n =>
      match value s with
      | Some (v, rest) =>
          match skip_white rest with
          | String "," r =>
              match read_items value n r with
              | Some (vs, r') => Some (v :: vs, r')
              | None => None
              end
          | String "]" r => Some ([v], r)
          | _ => None
          end
      | None => None
      end
  end.

(** Members separated by commas up to the closing brace. *)
Fixpoint read_members (value : reader json) (n : nat) (s : string)
    : option (list (string * json) * string) :=
  match n with
  | O => None
  | S n =>
      match skip_white s with
      | String "034" r =>
          match read_string r with
          | Some (k, rest) =>
              match skip_white rest with
              | String ":" r1 =>
                  match value r1 with
                  | Some (v, rest1) =>
                      match skip_white rest1 with
                      | String "," r2 =>
                          match read_members value n r2 with
                          | Some (ms, r') => Some ((k, v) :: ms, r')
                          | None => None
                          end
                      | String "}" r2 => Some ([(k, v)], r2)
                      | _ => None
                      end
                  | None => None
                  end
              | _ => None
              end
          | None => None
          end
      | _ => None
      end
  end.

Fixpoint read_value (fuel : nat) (s : string) : option (json * string) :=
  match fuel with
  | O => None
  | S fuel =>
      let s := skip_white s in
      if startsWith s "null" then Some (JNull, String.substring 4 (String.length s) s)
      else if startsWith s "true" then Some (JBool true, String.substring 4 (String.length s) s)
      else if startsWith s "false" then Some (JBool false, String.substring 5 (String.length s) s)
      else
        match s with
        | String "034" r =>
            match read_string r with
            | Some (t, rest) => Some (JStr t, rest)
            | None => None
            end
        | String "-" r =>
            match read_natural r with
            | Some (n, rest) => Some (JNum (- n), rest)
            | None => None
            end
        | String "[" r =>
            match skip_white r with
            | String "]" r' => Some (JArr [], r')
            | _ =>
                match read_items (read_value fuel) (String.length r) r with
                | Some (vs, rest) => Some (JArr vs, rest)
                | None => None
                end
            end
        | String "{" r =>
            match skip_white r with
            | String "}" r' => Some (JObj [], r')
            | _ =>
                match read_members (read_value fuel) (String.length r) r with
                | Some (ms, rest) => Some (JObj ms, rest)
                | None => None
                end
            end
        | _ =>
            match read_natural s with
            | Some (n, rest) => Some (JNum n, rest)
            | None => None
            end
        end
  end.

Definition parse (s : string) : completion json :=
  match read_value (S (String.length s)) s with
  | Some (v, rest) =>
      if is_empty (skip_white rest) then Normal v else Throw SyntaxError
  | None => Throw SyntaxError
  end.

Definition sample_JSON : JSON :=
  {| JSON_stringify := stringify; JSON_parse := parse |}.

(** What may follow a number: nothing, or a character that is neither a
    digit nor the start of a fraction or an exponent. *)
Definition ends_number (rest : string) : bool :=
  match rest with
  | EmptyString => true
  | String c _ =>
      match digit_of c with
      | Some _ => false
      | None => negb (starts_fraction rest)
      end
  end.

(** A printed integer starts with a digit or a minus sign. *)
Definition number_head (c : ascii) : bool :=
  match digit_of c with
  | Some _ => true
  | None => Ascii.eqb c "-"
  end.

(** Text that a string literal holds as it is: no quote, no backslash, no
    control character. *)
Fixpoint plain (s : string) : bool :=
  match s with
  | EmptyString => true
  | String c r =>
      negb (Ascii.eqb c "034" || Ascii.eqb c "\" || (N_of_ascii c <? 32)%N)
      && plain r
  end.

(** The document of [saveProgress] for the ids [l]. *)
Definition progress_of_list (l : list Z) (now : string) : json :=
  JObj [("completedChallenges", JArr (map JNum l)); ("lastUpdated", JStr now)].

End SampleJSON.

(** ** Sample data *)

Module Samples.

#[local] Existing Instance SampleJSON.sample_JSON.

Definition vim_basics : Challenge :=
  {| id := 1;
     title := "Vim";
     description := "Basic motions";
     tags := Some ["motions"];
     difficulty := "Beginner";
     expected_time_min := 10;
     acceptance_criteria := ["Move with h, j, k and l"] |}.

(** An entry whose [tags] property is missing. *)
Definition untagged : Challenge :=
  {| id := 2;
     title := "Registers";
     description := "Yank into named registers";
     tags := None;
     difficulty := "Advanced";
     expected_time_min := 15;
     acceptance_criteria := [] |}.

(** The search box holds the word between two spaces. *)
Definition padded_search : FilterState :=
  {| search_term := " vim ";
     difficulty_facet := Some "all";
     tag_facet := [] |}.


Definition timestamp : string := "2026-01-01T00:00:00.000Z".

Definition numbered (n : nat) : Challenge :=
  {| id := Z.of_nat n;
     title := "Challenge";
     description := "Practice";
     tags := Some [];
     difficulty := "Beginner";
     expected_time_min := 5;
     acceptance_criteria := [] |}.

(** A catalog of [total] challenges of which the first [done] are
    completed. *)
Definition progress_of (done total : nat) : NeovimMastery :=
  set_completedChallenges
    (list_to_set (map (fun n => JNum (Z.of_nat n)) (seq 1 done)))
    (constructor (map numbered (seq 1 total)) ∅).

Definition reach_6_10 : Exercise :=
  {| exercise_id := 1;
     solution_check := "cursor_position";
     target_line := 6;
     target_column := 10;
     expected_result := EmptyString;
     hint := "Use 6G and then move right" |}.

Definition hello_world : Exercise :=
  {| exercise_id := 2;
     solution_check := "text_content";
     target_line := 0;
     target_column := 0;
     expected_result := "  hello world  ";
     hint := "Change the word" |}.

Definition at_origin : Cursor := {| line := 0; ch := 0 |}.

(** One submission of [text] in the practice editor. *)
Definition attempt (app : NeovimMastery) (text : string) : NeovimMastery :=
  submitExercise timestamp (of_Z 0)
    (set_editor (Some {| getValue := text; getCursor := at_origin |}) app).

(** Forty submissions of the text exercise from zeroed statistics, the
    first twenty-three with the expected text. *)
Definition forty_attempts : NeovimMastery :=
  fold_left attempt
    (repeat "hello world" 23 ++ repeat "hello" 17)
    (set_currentExercise (Some hello_world) (constructor [vim_basics] ∅)).

(** A controller over a one-entry catalog with the ids 1 and 3 completed
    and nothing stored yet. *)
Definition two_completed : NeovimMastery :=
  set_completedChallenges (set_map JNum ({[1; 3]} : gset Z))
    (constructor [vim_basics] ∅).

(** Storage whose progress key holds text that is not JSON. *)
Definition garbage_storage : gmap string string :=
  {[progress_key := "not json{"]}.

End Samples.

(** ** More of the controller: the challenge modal and the progress record *)

Module Modal.

(** The challenge modal: [this.currentChallenge] and [this.practiceState].
    The controller itself is carried along, because [closeModal] clears
    [this.editor]. *)
Record ChallengeModal := {
  controller : NeovimMastery;
  currentChallenge : option Challenge;
  practiceState : string
}.

(** [arr.find(p)] for a callback that may throw. *)
Fixpoint findC {A} (p : A -> completion bool) (l : list A) : completion (option A) :=
  match l with
  | [] => Normal None
  | x :: r =>
      b ← p x;
      if b : bool then Normal (Some x) else findC p r
  end.

(** [openChallengeModal(challengeId)]: the first challenge with that id
    becomes the current one; when there is none the function returns after
    logging. The redrawing of the modal is left out. *)
Definition openChallengeModal (challengeId : Z) (m : ChallengeModal) : ChallengeModal :=
  match List.find (fun c => id c =? challengeId) (challenges (controller m)) with
  | None => m
  | Some challenge =>
      {| controller := controller m;
         currentChallenge := Some challenge;
         practiceState := "preparation" |}
  end.

(** [closeModal()]: the editor, if any, is given up; the current challenge
    is dropped and the practice state returns to its first phase. *)
Definition closeModal (m : ChallengeModal) : ChallengeModal :=
  {| controller := set_editor None (controller m);
     currentChallenge := None;
     practiceState := "preparation" |}.

(** [resetProgress()]; [confirmed] is the answer to [confirm(...)]. *)
Definition resetProgress (confirmed : bool) (app : NeovimMastery) : NeovimMastery :=
  if confirmed then
    set_localStorage (delete progress_key (localStorage app))
      (set_completedChallenges ∅ app)
  else app.

(** The predicate of [suggestNextChallenge]:
    [!this.completedChallenges.has(c.id) && c.id !== this.currentChallenge.id].
    Reading [id] off a null current challenge is a [TypeError]. *)
Definition is_next (current : option Challenge) (app : NeovimMastery)
    (c : Challenge) : completion bool :=
  if decide (JNum (id c) ∈ completedChallenges app) then Normal false
  else
    match current with
    | Some cur => Normal (negb (id c =? id cur))
    | None => Throw TypeError
    end.

(** [suggestNextChallenge()]: the value of [nextChallenge]. *)
Definition suggestNextChallenge (m : ChallengeModal) : completion (option Challenge) :=
  findC (is_next (currentChallenge m) (controller m)) (challenges (controller m)).

(** The [onclick] that [showFeedbackModal] puts on the try-another button:
    [this.closeModal(); this.suggestNextChallenge()]. *)
Definition try_another (m : ChallengeModal) : completion (option Challenge) :=
  suggestNextChallenge (closeModal m).

Section WithJSON.
Context `{JSON}.

(** [completeChallenge()]: without a current challenge nothing happens;
    otherwise its id is added and the progress is saved. *)
Definition completeChallenge (now : string) (m : ChallengeModal) : ChallengeModal :=
  match currentChallenge m with
  | None => m
  | Some challenge =>
      {| controller :=
           saveProgress now
             (set_completedChallenges
                (completedChallenges (controller m) ∪ {[JNum (id challenge)]})
                (controller m));
         currentChallenge := currentChallenge m;
         practiceState := practiceState m |}
  end.


End WithJSON.

End Modal.

(** ** Exercise statistics in storage ([loadExerciseProgress]) *)

Module ExerciseProgress.

(** [this.exerciseStats] as the object it is. *)
Definition stats_object (st : ExerciseStats) : list (string * json) :=
  [("completed", JNum (completed st));
   ("total", JNum (total st));
   ("success", JNum (success st))].

(** [o[key] = v] on a property list: an existing key keeps its place. *)
Fixpoint assign (key : string) (v : json) (props : list (string * json))
    : list (string * json) :=
  match props with
  | [] => [(key, v)]
  | (k, w) :: rest =>
      if String.eqb k key then (k, v) :: rest else (k, w) :: assign key v rest
  end.

(** The own enumerable properties that a spread copies from a value: those
    of an object, the indexed elements of an array, the indexed characters
    of a string, nothing otherwise. *)
Definition own_properties (v : option json) : list (string * json) :=
  match v with
  | Some (JObj props) => props
  | Some (JArr items) =>
      imap (fun i x => (pretty (Z.of_nat i), x)) items
  | Some (JStr s) =>
      imap (fun i c => (pretty (Z.of_nat i), JStr (String c EmptyString)))
           (list_ascii_of_string s)
  | _ => []
  end.

(** [{...base, ...v}] *)
Definition spread (base : list (string * json)) (v : option json)
    : list (string * json) :=
  fold_left (fun acc p => assign (fst p) (snd p) acc) (own_properties v) base.

Section WithJSON.
Context `{JSON}.

(** [loadExerciseProgress()]: the new value of [this.exerciseStats], as an
    object. *)
Definition loadExerciseProgress (app : NeovimMastery)
    : completion (list (string * json)) :=
  let current := stats_object (exerciseStats app) in
  try_catch
    (match localStorage app !! exercise_progress_key with
     | Some saved =>
         if is_empty saved then Normal current
         else
           progress ← JSON_parse saved;
           stored ← get_prop progress "exerciseStats";
           Normal (spread current stored)
     | None => Normal current
     end)
    (fun error => Normal current).

End WithJSON.

End ExerciseProgress.

(** ** What the challenge page shows besides the cards *)

Module Page.

(** A number that may be NaN. *)
Definition count := option Z.

(** [counts] as [updateDifficultyCounts] sets it up. *)
Definition initial_counts (n : Z) : gmap string count :=
  <["all" := Some n]> (<["Beginner" := Some 0]> (<["Intermediate" := Some 0]>
    (<["Advanced" := Some 0]> (<["Expert" := Some 0]> ∅)))).

(** [counts[key]++]: a key that is not there, or holds NaN, holds NaN
    afterwards. The key [__proto__] is no property of [counts] itself: the
    assignment of NaN to it is dropped. *)
Definition increment (key : string) (counts : gmap string count) : gmap string count :=
  if String.eqb key "__proto__" then counts
  else
    match counts !! key with
    | Some (Some n) => <[key := Some (n + 1)]> counts
    | _ => <[key := None]> counts
    end.

(** [updateDifficultyCounts()]: the counts that are written to the page. *)
Definition updateDifficultyCounts (app : NeovimMastery) : gmap string count :=
  fold_left (fun counts c => increment (difficulty c) counts)
    (challenges app)
    (initial_counts (Z.of_nat (length (challenges app)))).

(** The number of challenges of a difficulty. *)
Definition occurrences (key : string) (challenges : list Challenge) : Z :=
  Z.of_nat (length (List.filter (fun c => String.eqb (difficulty c) key) challenges)).

(** The four difficulties of the catalog. *)
Definition is_level (d : string) : bool :=
  String.eqb d "Beginner" || String.eqb d "Intermediate"
  || String.eqb d "Advanced" || String.eqb d "Expert".






(** [updateResultsCount()]: the text of [#results-count]. *)
Definition updateResultsCount (filteredChallenges : list Challenge) : string :=
  let count := Z.of_nat (length filteredChallenges) in
  "Showing " +:+ pretty count +:+ " challenge"
  +:+ (if count =? 1 then EmptyString else "s").

(** A filter chip: its [data-filter], its [data-value] and whether its
    class list holds [active]. *)
Record Chip := {
  data_filter : string;
  data_value : string;
  active : bool
}.

(** The part of the page that the filters live in: the search box and the
    elements with a [data-filter], in document order. *)
Record Filters := {
  search_input : string;
  chips : list Chip
}.

Definition is_kind (kind : string) (chip : Chip) : bool :=
  String.eqb (data_filter chip) kind.

Definition set_active (b : bool) (chip : Chip) : Chip :=
  {| data_filter := data_filter chip; data_value := data_value chip; active := b |}.

(** What [applyFilters] reads from the page. *)
Definition read_filters (f : Filters) : FilterState :=
  {| search_term := search_input f;
     difficulty_facet :=
       data_value <$>
         List.find (fun chip => is_kind "difficulty" chip && active chip) (chips f);
     tag_facet :=
       map data_value
         (List.filter (fun chip => is_kind "tag" chip && active chip) (chips f)) |}.

(** What a click on a difficulty chip does to the chip at position [i]:
    [active] is removed from every difficulty chip and added to the clicked
    one, the position that [clicked] holds of. *)
Definition radio (clicked : nat -> bool) (i : nat) (c : Chip) : Chip :=
  if is_kind "difficulty" c then set_active (clicked i) c else c.

(** [handleFilter(e)] for a click on the chip at position [target]: a
    difficulty chip becomes the only active one of its kind, a tag chip
    changes state. *)
Definition handleFilter (target : nat) (f : Filters) : Filters :=
  match chips f !! target with
  | None => f
  | Some chip =>
      if is_kind "difficulty" chip then
        {| search_input := search_input f;
           chips := imap (radio (fun i => Nat.eqb i target)) (chips f) |}
      else if is_kind "tag" chip then
        {| search_input := search_input f;
           chips := <[target := set_active (negb (active chip)) chip]> (chips f) |}
      else f
  end.

(** The visible challenges after a click on a chip: [handleFilter] ends
    with [applyFilters()]. *)
Definition click (target : nat) (f : Filters) (app : NeovimMastery)
    : Filters * completion (list Challenge) :=
  let f' := handleFilter target f in
  (f', computeVisible (challenges app) (read_filters f')).

End Page.

(** ** Flashcards *)

Module Flashcards.

Record Flashcard := {
  question : string;
  choices : list string;
  correct_index : Z;
  hint : string
}.

Record FlashcardStats := {
  correct : Z;
  incorrect : Z;
  total : Z
}.

(** The flashcard fields of the controller. [flashcards] is [None] while
    the property is [undefined]: the constructor does not set it. *)
Record Deck := {
  flashcards : option (list Flashcard);
  currentFlashcard : Z;
  flashcardStats : FlashcardStats;
  selectedChoice : option Z
}.

(** What a handler leaves behind: the fields as they are when it ends, and
    the exception that ended it, if one did. *)
Definition outcome : Type := Deck * option JsError.

Definition set_currentFlashcard (n : Z) (d : Deck) : Deck :=
  {| flashcards := flashcards d;
     currentFlashcard := n;
     flashcardStats := flashcardStats d;
     selectedChoice := selectedChoice d |}.

Definition set_selectedChoice (c : option Z) (d : Deck) : Deck :=
  {| flashcards := flashcards d;
     currentFlashcard := currentFlashcard d;
     flashcardStats := flashcardStats d;
     selectedChoice := c |}.

Definition set_flashcardStats (st : FlashcardStats) (d : Deck) : Deck :=
  {| flashcards := flashcards d;
     currentFlashcard := currentFlashcard d;
     flashcardStats := st;
     selectedChoice := selectedChoice d |}.

(** The flashcard fields after [constructor()]. *)
Definition new_deck : Deck :=
  {| flashcards := None;
     currentFlashcard := 0;
     flashcardStats := {| correct := 0; incorrect := 0; total := 0 |};
     selectedChoice := None |}.

(** [arr[i]]; [None] is [undefined]. *)
Definition at_index {A} (l : list A) (i : Z) : option A :=
  if i <? 0 then None else nth_error l (Z.to_nat i).

(** [this.flashcards[this.currentFlashcard]]: a [TypeError] while
    [this.flashcards] is [undefined]. *)
Definition current_card (d : Deck) : completion (option Flashcard) :=
  match flashcards d with
  | Some cards => Normal (at_index cards (currentFlashcard d))
  | None => Throw TypeError
  end.

(** [renderFlashcard()]: nothing without a card; with one, the selection
    is dropped. *)
Definition renderFlashcard (d : Deck) : outcome :=
  match current_card d with
  | Throw e => (d, Some e)
  | Normal None => (d, None)
  | Normal (Some _) => (set_selectedChoice None d, None)
  end.

(** [initFlashcards()]; [sample] is [challengeData.flashcards_sample]. *)
Definition initFlashcards (sample : option (list Flashcard)) (d : Deck) : outcome :=
  match sample with
  | None => (d, None)
  | Some cards =>
      renderFlashcard
        {| flashcards := Some cards;
           currentFlashcard := 0;
           flashcardStats := flashcardStats d;
           selectedChoice := selectedChoice d |}
  end.

(** [nextCard()] *)
Definition nextCard (d : Deck) : outcome :=
  match flashcards d with
  | None => (d, Some TypeError)
  | Some cards =>
      if currentFlashcard d <? Z.of_nat (length cards) - 1
      then renderFlashcard (set_currentFlashcard (currentFlashcard d + 1) d)
      else (d, None)
  end.

(** [previousCard()] *)
Definition previousCard (d : Deck) : outcome :=
  if 0 <? currentFlashcard d
  then renderFlashcard (set_currentFlashcard (currentFlashcard d - 1) d)
  else (d, None).

(** [selectChoice(choiceButton)]; [choice] is
    [parseInt(choiceButton.dataset.choice)]. *)
Definition selectChoice (choice : Z) (d : Deck) : outcome :=
  (set_selectedChoice (Some choice) d, None).

(** [revealAnswer()]: reading [correct_index] off a card that is not there
    is a [TypeError]; with a card and a selection the statistics count the
    answer. *)
Definition revealAnswer (d : Deck) : outcome :=
  match current_card d with
  | Throw e => (d, Some e)
  | Normal None => (d, Some TypeError)
  | Normal (Some flashcard) =>
      match selectedChoice d with
      | None => (d, None)
      | Some choice =>
          let st := flashcardStats d in
          let st :=
            if choice =? correct_index flashcard
            then {| correct := correct st + 1; incorrect := incorrect st;
                    total := total st |}
            else {| correct := correct st; incorrect := incorrect st + 1;
                    total := total st |} in
          let st :=
            {| correct := correct st; incorrect := incorrect st;
               total := total st + 1 |} in
          (set_flashcardStats st d, None)
      end
  end.

(** The decks that the flashcard tab reaches: after [initFlashcards], by
    the two arrows, by choosing and by revealing. *)
Inductive playing : Deck -> Prop :=
| playing_init sample : playing (fst (initFlashcards sample new_deck))
| playing_next d : playing d -> playing (fst (nextCard d))
| playing_previous d : playing d -> playing (fst (previousCard d))
| playing_select choice d : playing d -> playing (fst (selectChoice choice d))
| playing_reveal d : playing d -> playing (fst (revealAnswer d)).

(** What every reachable deck satisfies: the index is inside the deck (at
    [0] when there is none or an empty one), and the answers counted are
    the right ones plus the wrong ones. *)
Definition deck_ok (d : Deck) : Prop :=
  match flashcards d with
  | Some ((_ :: _) as cards) =>
      0 <= currentFlashcard d < Z.of_nat (length cards)
  | _ => currentFlashcard d = 0
  end
  /\ total (flashcardStats d)
     = correct (flashcardStats d) + incorrect (flashcardStats d)
  /\ 0 <= correct (flashcardStats d)
  /\ 0 <= incorrect (flashcardStats d).

End Flashcards.

(** ** The cheatsheet application *)

Module Cheatsheet.

(** A row of a cheatsheet item: a setting (with [value]) or a key binding
    (with [action] and [mode]). The properties that [matchesSearch] reads
    without a guard are taken to be there. *)
Module Entry.

Record ContentItem := {
  setting : option string;
  value : string;
  description : string;
  keys : option string;
  action : string;
  mode : string
}.

End Entry.

Definition ContentItem : Type := Entry.ContentItem.

Record Content := {
  settings : option (list ContentItem);
  keybindings : option (list ContentItem)
}.

Record Item := {
  category : string;
  title : string;
  description : string;
  tags : option (list string);
  keywords : option (list string);
  content : option Content
}.

(** The component's data: [cheatsheet.items] ([None] before the sheet is
    loaded), [searchQuery] and [selectedCategory]. *)
Record Sheet := {
  items : option (list Item);
  searchQuery : string;
  selectedCategory : string
}.

(** [item.content?.settings], as a condition. *)
Definition has_settings (item : Item) : bool :=
  match content item with
  | Some c => match settings c with Some _ => true | None => false end
  | None => false
  end.

(** [item.content?.keybindings], as a condition. *)
Definition has_keybindings (item : Item) : bool :=
  match content item with
  | Some c => match keybindings c with Some _ => true | None => false end
  | None => false
  end.

Definition hasSettingsInCategory (categoryId : string) (s : Sheet) : bool :=
  match items s with
  | None => false
  | Some l => existsb (fun item => String.eqb (category item) categoryId
                                   && has_settings item) l
  end.

Definition hasKeybindingsInCategory (categoryId : string) (s : Sheet) : bool :=
  match items s with
  | None => false
  | Some l => existsb (fun item => String.eqb (category item) categoryId
                                   && has_keybindings item) l
  end.

Definition getSettingsForCategory (categoryId : string) (s : Sheet) : list Item :=
  match items s with
  | None => []
  | Some l => List.filter (fun item => String.eqb (category item) categoryId
                                       && has_settings item) l
  end.

Definition getKeybindingsForCategory (categoryId : string) (s : Sheet) : list Item :=
  match items s with
  | None => []
  | Some l => List.filter (fun item => String.eqb (category item) categoryId
                                       && has_keybindings item) l
  end.

(** [list?.some(x => x.toLowerCase().includes(query))] as a condition. *)
Definition some_includes (l : option (list string)) (query : string) : bool :=
  match l with
  | Some xs => existsb (fun x => includes (toLowerCase x) query) xs
  | None => false
  end.

(** A property that holds a non-empty string. *)
Definition truthy_string (s : option string) : option string :=
  match s with
  | Some x => if is_empty x then None else Some x
  | None => None
  end.

Definition matchesSearch (s : Sheet) (item : Item) (contentItem : ContentItem) : bool :=
  if is_empty (trim (searchQuery s)) then true
  else
    let query := trim (toLowerCase (searchQuery s)) in
    let itemMatches :=
      includes (toLowerCase (title item)) query
      || includes (toLowerCase (description item)) query
      || some_includes (tags item) query
      || some_includes (keywords item) query in
    if itemMatches then true
    else
      match truthy_string (Entry.setting contentItem) with
      | Some st =>
          includes (toLowerCase st) query
          || includes (toLowerCase (Entry.value contentItem)) query
          || includes (toLowerCase (Entry.description contentItem)) query
      | None =>
          match truthy_string (Entry.keys contentItem) with
          | Some ks =>
              includes (toLowerCase ks) query
              || includes (toLowerCase (Entry.action contentItem)) query
              || includes (toLowerCase (Entry.description contentItem)) query
              || includes (toLowerCase (Entry.mode contentItem)) query
          | None => false
          end
      end.

Definition clearFilters (s : Sheet) : Sheet :=
  {| items := items s; searchQuery := EmptyString; selectedCategory := EmptyString |}.

End Cheatsheet.

(** ** The theme manager *)

Module Theme.

Definition theme_key : string := "cheatsheet-theme".

(** The browser as the theme manager sees it: [localStorage] and the
    [data-theme] attribute of the document element. *)
Record Browser := {
  storage : gmap string string;
  data_theme : option string
}.

Definition system_theme (prefersDark : bool) : string :=
  if prefersDark then "dark" else "light".

(** [getPreferredTheme()]; [prefersDark] is what the media query
    [(prefers-color-scheme: dark)] matches. *)
Definition getPreferredTheme (prefersDark : bool) (b : Browser) : string :=
  match storage b !! theme_key with
  | Some stored => if is_empty stored then system_theme prefersDark else stored
  | None => system_theme prefersDark
  end.

Definition setTheme (theme : string) (b : Browser) : Browser :=
  {| storage := <[theme_key := theme]> (storage b);
     data_theme := Some theme |}.

(** [init()]; the watcher it installs is [on_preference_change]. *)
Definition init (prefersDark : bool) (b : Browser) : Browser :=
  setTheme (getPreferredTheme prefersDark b) b.

(** The listener of [setupThemeWatcher], run when the system preference
    changes to [matches]. *)
Definition on_preference_change (matches : bool) (b : Browser) : Browser :=
  match storage b !! theme_key with
  | Some stored =>
      if is_empty stored then setTheme (system_theme matches) b else b
  | None => setTheme (system_theme matches) b
  end.

End Theme.

(** ** More sample data *)

Module MoreSamples.

#[local] Existing Instance SampleJSON.sample_JSON.

Definition two_challenges : NeovimMastery :=
  constructor [Samples.vim_basics; Samples.untagged] ∅.

(** The modal closed, and open on the first challenge. *)
Definition modal_closed : Modal.ChallengeModal :=
  {| Modal.controller := two_challenges;
     Modal.currentChallenge := None;
     Modal.practiceState := "preparation" |}.

Definition modal_on_basics : Modal.ChallengeModal :=
  Modal.openChallengeModal 1 modal_closed.

(** Storage whose exercise record is no JSON text. *)
Definition garbage_statistics : NeovimMastery :=
  constructor [Samples.vim_basics]
    (<[exercise_progress_key := "not json{"]> ∅).

(** A stored exercise record that mentions one counter only. *)
Definition partial_document : json :=
  JObj [("exerciseStats", JObj [("completed", JNum 5)])].

Definition partial_statistics : NeovimMastery :=
  constructor [Samples.vim_basics]
    (<[exercise_progress_key := JSON_stringify partial_document]> ∅).

(** The filter bar: three difficulty chips with "all" active, and one tag
    chip. *)
Definition filter_bar : Page.Filters :=
  {| Page.search_input := EmptyString;
     Page.chips :=
       [ {| Page.data_filter := "difficulty"; Page.data_value := "all";
            Page.active := true |};
         {| Page.data_filter := "difficulty"; Page.data_value := "Beginner";
            Page.active := false |};
         {| Page.data_filter := "difficulty"; Page.data_value := "Advanced";
            Page.active := false |};
         {| Page.data_filter := "tag"; Page.data_value := "motions";
            Page.active := false |} ] |}.

Definition card_motion : Flashcards.Flashcard :=
  {| Flashcards.question := "Which key moves one word forward?";
     Flashcards.choices := ["b"; "w"; "e"];
     Flashcards.correct_index := 1;
     Flashcards.hint := "Think of the first letter of the motion" |}.

Definition card_mode : Flashcards.Flashcard :=
  {| Flashcards.question := "Which key enters insert mode?";
     Flashcards.choices := ["i"; "v"];
     Flashcards.correct_index := 0;
     Flashcards.hint := "Insert" |}.

(** The deck after [initFlashcards] on two cards. *)
Definition two_cards : Flashcards.Deck :=
  fst (Flashcards.initFlashcards (Some [card_motion; card_mode]) Flashcards.new_deck).

(** The second choice of the first card, selected. *)
Definition chosen : Flashcards.Deck :=
  fst (Flashcards.selectChoice 1 two_cards).

Definition sheet_with (query : string) : Cheatsheet.Sheet :=
  {| Cheatsheet.items := Some [];
     Cheatsheet.searchQuery := query;
     Cheatsheet.selectedCategory := EmptyString |}.

Definition leader_item : Cheatsheet.Item :=
  {| Cheatsheet.category := "basics";
     Cheatsheet.title := "Vim leader key";
     Cheatsheet.description := "Prefix of the custom mappings";
     Cheatsheet.tags := None;
     Cheatsheet.keywords := Some ["leader"];
     Cheatsheet.content := None |}.

Definition leader_row : Cheatsheet.ContentItem :=
  {| Cheatsheet.Entry.setting := Some "mapleader";
     Cheatsheet.Entry.value := "Space";
     Cheatsheet.Entry.description := "The leader key";
     Cheatsheet.Entry.keys := None;
     Cheatsheet.Entry.action := EmptyString;
     Cheatsheet.Entry.mode := EmptyString |}.

Definition word_motions : Exercise :=
  {| exercise_id := 3;
     solution_check := "word_navigation";
     target_line := 0;
     target_column := 0;
     expected_result := EmptyString;
     hint := "Use w, b and e" |}.

(** The practice editor open on the word exercise. *)
Definition practising_words : NeovimMastery :=
  set_editor (Some {| getValue := "anything"; getCursor := Samples.at_origin |})
    (set_currentExercise (Some word_motions) two_challenges).

(** The challenge tab before anything is drawn. *)
Definition empty_grid : Loaded.Grid :=
  {| Loaded.filteredChallenges := []; Loaded.cards := [] |}.


(** Only white space in the search box, nothing else selected. *)
Definition blank_search : FilterState :=
  {| search_term := "  ";
     difficulty_facet := None;
     tag_facet := [] |}.

End MoreSamples.

(** * Properties *)

(** ** Strings *)

Section StringFacts.

Lemma append_assoc (a b c : string) : (a +:+ b) +:+ c = a +:+ (b +:+ c).
Proof.
  induction a as [| x a IH]; [reflexivity |].
  change (String x ((a +:+ b) +:+ c) = String x (a +:+ (b +:+ c))).
  rewrite IH. reflexivity.
Qed.

Lemma append_cons (x : ascii) (a b : string) :
  String x a +:+ b = String x (a +:+ b).
Proof. reflexivity. Qed.

Lemma append_empty_l (a : string) : EmptyString +:+ a = a.
Proof. reflexivity. Qed.

Lemma append_empty_r (a : string) : a +:+ EmptyString = a.
Proof.
  induction a as [| x a IH]; [reflexivity |].
  rewrite append_cons, IH. reflexivity.
Qed.

(** Two ways of cutting one string: one of the first parts is the start of
    the other. *)
Lemma append_eq_append (a b c d : string) :
  a +:+ b = c +:+ d ->
  (exists k, a = c +:+ k /\ d = k +:+ b)
  \/ (exists k, c = a +:+ k /\ b = k +:+ d).
Proof.
  revert c. induction a as [| x a IH]; intros c E.
  - right. exists c. split; [reflexivity | exact E].
  - destruct c as [| y c].
    + left. exists (String x a). split; [reflexivity |]. symmetry. exact E.
    + rewrite !append_cons in E. injection E as -> E.
      destruct (IH c E) as [(k & -> & ->) | (k & -> & ->)].
      * left. exists k. split; reflexivity.
      * right. exists k. split; reflexivity.
Qed.

Lemma startsWith_spec (s p : string) :
  startsWith s p = true <-> exists post, s = p +:+ post.
Proof.
  revert s. induction p as [| a p IH]; intros s; simpl.
  - split; [intros _; exists s; reflexivity | reflexivity].
  - destruct s as [| b s]; simpl.
    + split; [discriminate | intros [post E]; discriminate].
    + rewrite andb_true_iff, Ascii.eqb_eq, IH. split.
      * intros [-> [post ->]]. exists post. reflexivity.
      * intros [post E]. injection E as -> ->. split; [reflexivity | eauto].
Qed.

Lemma includes_spec (s t : string) :
  includes s t = true <-> substring_of t s.
Proof.
  unfold substring_of. split.
  - induction s as [| c s IH]; simpl; rewrite orb_true_iff.
    + intros [Hs | Hf]; [| discriminate].
      apply startsWith_spec in Hs as [post ->]. exists EmptyString, post. reflexivity.
    + intros [Hs | Hi].
      * apply startsWith_spec in Hs as [post ->]. exists EmptyString, post. reflexivity.
      * destruct (IH Hi) as (pre & post & ->). exists (String c pre), post. reflexivity.
  - intros (pre & post & ->). induction pre as [| c pre IH]; simpl.
    + assert (Hs : startsWith (t +:+ post) t = true)
        by (apply startsWith_spec; eauto).
      destruct (t +:+ post); simpl in *; rewrite Hs; reflexivity.
    + rewrite IH. apply orb_true_r.
Qed.

Lemma toLowerCase_app (a b : string) :
  toLowerCase (a +:+ b) = toLowerCase a +:+ toLowerCase b.
Proof. induction a as [| c a IH]; simpl; [reflexivity | rewrite IH; reflexivity]. Qed.

(** A split of the lower-case form comes from a split of the string. *)
Lemma toLowerCase_app_inv (s p q : string) :
  toLowerCase s = p +:+ q ->
  exists p' q', s = p' +:+ q' /\ toLowerCase p' = p /\ toLowerCase q' = q.
Proof.
  revert s. induction p as [| a p IH]; intros s E; simpl in E.
  - exists EmptyString, s. auto.
  - destruct s as [| c s]; simpl in E; [discriminate |].
    injection E as Ea Es. destruct (IH _ Es) as (p' & q' & -> & Hp & Hq).
    exists (String c p'), q'. simpl. rewrite Ea, Hp. auto.
Qed.

(** The test the filter runs, lower-case text against lower-case term,
    is the case-insensitive substring relation. *)
Lemma includes_lower_spec (s t : string) :
  includes (toLowerCase s) (toLowerCase t) = true <-> ci_substring_of t s.
Proof.
  rewrite includes_spec. unfold substring_of, ci_substring_of. split.
  - intros (pre & post & E).
    apply toLowerCase_app_inv in E as (pre' & rest & -> & <- & E).
    apply toLowerCase_app_inv in E as (mid & post' & -> & Hm & <-).
    exists pre', mid, post'. auto.
  - intros (pre & mid & post & -> & Hm).
    exists (toLowerCase pre), (toLowerCase post).
    rewrite !toLowerCase_app, Hm. reflexivity.
Qed.

Lemma is_white_space_In (x : string) :
  is_white_space x = true <-> In x white_space.
Proof.
  unfold is_white_space. rewrite existsb_exists. split.
  - intros (w & Hin & He). apply String.eqb_eq in He. subst w. exact Hin.
  - intros Hin. exists x. split; [exact Hin | apply String.eqb_refl].
Qed.

(** A white space character is one to three bytes long: a first byte and
    continuation bytes. *)
Lemma white_space_shape (w : string) :
  In w white_space ->
  exists a t, w = String a t /\ continuation a = false /\ continuations t = true
              /\ (t = EmptyString
                  \/ (exists b, t = String b EmptyString)
                  \/ (exists b c, t = String b (String c EmptyString))).
Proof.
  intros Hin. vm_compute in Hin.
  repeat (destruct Hin as [<- | Hin]; [eexists _, _; split; [reflexivity |];
    split; [reflexivity |]; split; [reflexivity |]; eauto 6 |]).
  destruct Hin.
Qed.


Lemma lower_char_caseless (c d : ascii) :
  caseless d = true -> Ascii.eqb (lower_char c) d = Ascii.eqb c d.
Proof.
  unfold caseless, lower_char. intros Hd.
  destruct ((65 <=? N_of_ascii c) && (N_of_ascii c <=? 90))%N eqn:Hc; [| reflexivity].
  apply andb_true_iff in Hc as [H1 H2].
  apply N.leb_le in H1, H2.
  destruct (Ascii.eqb_spec c d) as [-> | Hne].
  - exfalso. apply andb_true_iff in Hd as [Hd _]. apply negb_true_iff in Hd.
    apply andb_false_iff in Hd as [Hd | Hd]; apply N.leb_gt in Hd; lia.
  - destruct (Ascii.eqb_spec (ascii_of_N (N_of_ascii c + 32)) d) as [<- | _];
      [| reflexivity].
    exfalso. apply andb_true_iff in Hd as [_ Hd]. apply negb_true_iff in Hd.
    rewrite N_ascii_embedding in Hd by lia.
    apply andb_false_iff in Hd as [Hd | Hd]; apply N.leb_gt in Hd; lia.
Qed.

Lemma eqb_lower_caseless (w : string) :
  all_caseless w = true ->
  forall x, String.eqb (toLowerCase x) w = String.eqb x w.
Proof.
  induction w as [| d w IH]; intros Hw x; destruct x as [| c x];
    try reflexivity.
  cbn [all_caseless] in Hw. apply andb_true_iff in Hw as [Hd Hw].
  cbn [toLowerCase String.eqb]. rewrite (lower_char_caseless c d Hd), (IH Hw).
  reflexivity.
Qed.

Lemma white_space_caseless : forallb all_caseless white_space = true.
Proof. vm_compute. reflexivity. Qed.

(** Whether a string is a white space character does not depend on the
    case of its letters. *)
Lemma is_white_space_lower (x : string) :
  is_white_space (toLowerCase x) = is_white_space x.
Proof.
  unfold is_white_space. pose proof white_space_caseless as Hc.
  induction white_space as [| w l IH]; [reflexivity |].
  cbn [forallb] in Hc. apply andb_true_iff in Hc as [Hw Hl].
  cbn [existsb]. rewrite (eqb_lower_caseless w Hw), (IH Hl). reflexivity.
Qed.

Lemma is_white_space_lower1 (a : ascii) :
  is_white_space (String (lower_char a) EmptyString)
  = is_white_space (String a EmptyString).
Proof. exact (is_white_space_lower (String a EmptyString)). Qed.

Lemma is_white_space_lower2 (a b : ascii) :
  is_white_space (String (lower_char a) (String (lower_char b) EmptyString))
  = is_white_space (String a (String b EmptyString)).
Proof. exact (is_white_space_lower (String a (String b EmptyString))). Qed.

Lemma is_white_space_lower3 (a b c : ascii) :
  is_white_space
    (String (lower_char a) (String (lower_char b) (String (lower_char c) EmptyString)))
  = is_white_space (String a (String b (String c EmptyString))).
Proof. exact (is_white_space_lower (String a (String b (String c EmptyString)))). Qed.

Lemma is_empty_lower (s : string) : is_empty (toLowerCase s) = is_empty s.
Proof. destruct s; reflexivity. Qed.

Lemma is_empty_true (s : string) : is_empty s = true <-> s = EmptyString.
Proof. destruct s; simpl; split; congruence. Qed.

Lemma trimStart_lower (s : string) :
  trimStart (toLowerCase s) = toLowerCase (trimStart s).
Proof.
  remember (String.length s) as n eqn:Hn.
  revert s Hn. induction n as [n IH] using lt_wf_ind. intros s Hn.
  assert (Hrec : forall t, (String.length t < n)%nat ->
                 trimStart (toLowerCase t) = toLowerCase (trimStart t))
    by (intros t Ht; exact (IH _ Ht t eq_refl)).
  clear IH. subst n.
  destruct s as [| a r]; [reflexivity |].
  change (trimStart (toLowerCase (String a r)))
    with (if is_white_space (String (lower_char a) EmptyString)
          then trimStart (toLowerCase r)
          else match toLowerCase r with
               | EmptyString => toLowerCase (String a r)
               | String b r' =>
                   if is_white_space (String (lower_char a) (String b EmptyString))
                   then trimStart r'
                   else match r' with
                        | EmptyString => toLowerCase (String a r)
                        | String c r'' =>
                            if is_white_space
                                 (String (lower_char a) (String b (String c EmptyString)))
                            then trimStart r''
                            else toLowerCase (String a r)
                        end
               end).
  change (trimStart (String a r))
    with (if is_white_space (String a EmptyString)
          then trimStart r
          else match r with
               | EmptyString => String a r
               | String b r' =>
                   if is_white_space (String a (String b EmptyString))
                   then trimStart r'
                   else match r' with
                        | EmptyString => String a r
                        | String c r'' =>
                            if is_white_space (String a (String b (String c EmptyString)))
                            then trimStart r''
                            else String a r
                        end
               end).
  rewrite is_white_space_lower1.
  destruct (is_white_space (String a EmptyString)).
  { apply Hrec. cbn. lia. }
  destruct r as [| b r']; [reflexivity |].
  cbn [toLowerCase]. rewrite is_white_space_lower2.
  destruct (is_white_space (String a (String b EmptyString))).
  { apply Hrec. cbn. lia. }
  destruct r' as [| c r'']; [reflexivity |].
  cbn [toLowerCase]. rewrite is_white_space_lower3.
  destruct (is_white_space (String a (String b (String c EmptyString)))).
  { apply Hrec. cbn. lia. }
  reflexivity.
Qed.

Lemma trimEnd_lower (s : string) :
  trimEnd (toLowerCase s) = toLowerCase (trimEnd s).
Proof.
  induction s as [| c s IH]; [reflexivity |].
  cbn [toLowerCase trimEnd]. rewrite IH.
  change (String (lower_char c) (toLowerCase (trimEnd s)))
    with (toLowerCase (String c (trimEnd s))).
  rewrite (is_white_space_lower (String c (trimEnd s))).
  destruct (is_white_space _); reflexivity.
Qed.

(** Lower-casing and trimming commute, so the term the filter uses,
    [query.toLowerCase().trim()], is the lower-case form of the trimmed
    query. *)
Lemma trim_lower (s : string) : trim (toLowerCase s) = toLowerCase (trim s).
Proof. unfold trim. rewrite trimStart_lower, trimEnd_lower. reflexivity. Qed.


(** *** What [trim] strips *)

Lemma trimStart_cons (a : ascii) (r : string) :
  trimStart (String a r) =
    if is_white_space (String a EmptyString) then trimStart r
    else
      match r with
      | EmptyString => String a r
      | String b r' =>
          if is_white_space (String a (String b EmptyString)) then trimStart r'
          else
            match r' with
            | EmptyString => String a r
            | String c r'' =>
                if is_white_space (String a (String b (String c EmptyString)))
                then trimStart r''
                else String a r
            end
      end.
Proof. reflexivity. Qed.

Lemma trimStart_white (w r : string) :
  In w white_space -> trimStart (w +:+ r) = trimStart r.
Proof.
  intros Hin. vm_compute in Hin.
  repeat (destruct Hin as [<- | Hin]; [reflexivity |]).
  destruct Hin.
Qed.

Lemma trimStart_white_run (pre x : string) :
  white_run pre -> trimStart (pre +:+ x) = trimStart x.
Proof.
  induction 1 as [| w r Hin _ IH]; [reflexivity |].
  rewrite append_assoc, (trimStart_white w _ Hin). exact IH.
Qed.

Lemma white_run_one (w : string) : In w white_space -> white_run w.
Proof.
  intros Hin. rewrite <- (append_empty_r w).
  apply white_run_cons; [exact Hin | apply white_run_nil].
Qed.

Lemma white_run_app (p q : string) :
  white_run p -> white_run q -> white_run (p +:+ q).
Proof.
  induction 1 as [| w r Hin _ IH]; intros Hq; [exact Hq |].
  rewrite append_assoc. apply white_run_cons; [exact Hin | apply IH, Hq].
Qed.

(** A string that starts with a white space character is of the form that
    one of the three tests of [trimStart] finds. *)
Lemma starts_white_cases (w r : string) (a : ascii) (t : string) :
  In w white_space -> String a t = w +:+ r ->
  is_white_space (String a EmptyString) = true
  \/ (exists b t', t = String b t'
                   /\ is_white_space (String a (String b EmptyString)) = true)
  \/ (exists b c t', t = String b (String c t')
                     /\ is_white_space (String a (String b (String c EmptyString))) = true).
Proof.
  intros Hin E.
  destruct (white_space_shape w Hin) as (a' & u & -> & _ & _ & Hu).
  apply is_white_space_In in Hin.
  rewrite append_cons in E. injection E as <- ->.
  destruct Hu as [-> | [(b & ->) | (b & c & ->)]].
  - left. exact Hin.
  - right. left. exists b, r. split; [reflexivity | exact Hin].
  - right. right. exists b, c, r. split; [reflexivity | exact Hin].
Qed.

Lemma trimStart_fixed (x : string) :
  (forall w r, In w white_space -> x <> w +:+ r) -> trimStart x = x.
Proof.
  intros Hx. destruct x as [| a t]; [reflexivity |].
  rewrite trimStart_cons.
  destruct (is_white_space (String a EmptyString)) eqn:H1.
  { exfalso. apply is_white_space_In in H1. exact (Hx _ t H1 eq_refl). }
  destruct t as [| b t']; [reflexivity |].
  destruct (is_white_space (String a (String b EmptyString))) eqn:H2.
  { exfalso. apply is_white_space_In in H2. exact (Hx _ t' H2 eq_refl). }
  destruct t' as [| c t'']; [reflexivity |].
  destruct (is_white_space (String a (String b (String c EmptyString)))) eqn:H3.
  { exfalso. apply is_white_space_In in H3. exact (Hx _ t'' H3 eq_refl). }
  reflexivity.
Qed.

(** [trimStart] takes a run of white space off, and what it returns does
    not start with a white space character. *)
Lemma trimStart_spec (s : string) :
  (exists pre, s = pre +:+ trimStart s /\ white_run pre)
  /\ (forall w r, In w white_space -> trimStart s <> w +:+ r).
Proof.
  remember (String.length s) as n eqn:Hn.
  revert s Hn. induction n as [n IH] using lt_wf_ind. intros s Hn.
  assert (Hrec : forall t, (String.length t < n)%nat ->
                 (exists pre, t = pre +:+ trimStart t /\ white_run pre)
                 /\ (forall w r, In w white_space -> trimStart t <> w +:+ r))
    by (intros t Ht; exact (IH _ Ht t eq_refl)).
  clear IH. subst n.
  destruct s as [| a t].
  { split; [exists EmptyString; split; [reflexivity | apply white_run_nil] |].
    intros w r Hin E. destruct (white_space_shape w Hin) as (a' & u & -> & _).
    discriminate E. }
  rewrite trimStart_cons.
  destruct (is_white_space (String a EmptyString)) eqn:H1.
  { destruct (Hrec t) as [(pre & Ht & Hpre) Hhead]; [cbn; lia |].
    split; [| exact Hhead].
    exists (String a EmptyString +:+ pre). split.
    - rewrite append_assoc, <- Ht. reflexivity.
    - apply white_run_cons; [apply is_white_space_In, H1 | exact Hpre]. }
  destruct t as [| b t'].
  { split; [exists EmptyString; split; [reflexivity | apply white_run_nil] |].
    intros w r Hin E.
    destruct (starts_white_cases w r a EmptyString Hin E)
      as [H | [(b' & t'' & Hd & _) | (b' & c' & t'' & Hd & _)]];
      congruence. }
  destruct (is_white_space (String a (String b EmptyString))) eqn:H2.
  { destruct (Hrec t') as [(pre & Ht & Hpre) Hhead]; [cbn; lia |].
    split; [| exact Hhead].
    exists (String a (String b EmptyString) +:+ pre). split.
    - rewrite append_assoc, <- Ht. reflexivity.
    - apply white_run_cons; [apply is_white_space_In, H2 | exact Hpre]. }
  destruct t' as [| c t''].
  { split; [exists EmptyString; split; [reflexivity | apply white_run_nil] |].
    intros w r Hin E.
    destruct (starts_white_cases w r a (String b EmptyString) Hin E)
      as [H | [(b' & u & Hd & H) | (b' & c' & u & Hd & _)]];
      [congruence | injection Hd as <- <-; congruence | discriminate Hd]. }
  destruct (is_white_space (String a (String b (String c EmptyString)))) eqn:H3.
  { destruct (Hrec t'') as [(pre & Ht & Hpre) Hhead]; [cbn; lia |].
    split; [| exact Hhead].
    exists (String a (String b (String c EmptyString)) +:+ pre). split.
    - rewrite append_assoc, <- Ht. reflexivity.
    - apply white_run_cons; [apply is_white_space_In, H3 | exact Hpre]. }
  split; [exists EmptyString; split; [reflexivity | apply white_run_nil] |].
  intros w r Hin E.
  destruct (starts_white_cases w r a (String b (String c t'')) Hin E)
    as [H | [(b' & u & Hd & H) | (b' & c' & u & Hd & H)]].
  - congruence.
  - injection Hd as <- <-. congruence.
  - injection Hd as <- <- <-. congruence.
Qed.

Lemma no_white_empty (w r : string) :
  In w white_space -> EmptyString <> r +:+ w.
Proof.
  intros Hin E. destruct (white_space_shape w Hin) as (a & u & -> & _).
  destruct r; discriminate E.
Qed.

(** [trimEnd] takes a run of white space off, and what it returns does not
    end with a white space character. *)
Lemma trimEnd_spec (s : string) :
  (exists post, s = trimEnd s +:+ post /\ white_run post)
  /\ (forall w r, In w white_space -> trimEnd s <> r +:+ w).
Proof.
  induction s as [| c s [(post & Hs & Hpost) Htail]].
  { split; [exists EmptyString; split; [reflexivity | apply white_run_nil] |].
    intros w r Hin. apply no_white_empty, Hin. }
  cbn [trimEnd].
  destruct (is_white_space (String c (trimEnd s))) eqn:Hw.
  - split; [| intros w r Hin; apply no_white_empty, Hin].
    exists (String c (trimEnd s) +:+ post). split.
    + rewrite append_empty_l, append_cons, <- Hs. reflexivity.
    + apply white_run_cons; [apply is_white_space_In, Hw | exact Hpost].
  - split.
    + exists post. split; [| exact Hpost].
      rewrite append_cons, <- Hs. reflexivity.
    + intros w r Hin E. destruct r as [| x r].
      * rewrite append_empty_l in E. subst w.
        apply is_white_space_In in Hin. congruence.
      * rewrite append_cons in E. injection E as -> E.
        exact (Htail w r Hin E).
Qed.

Lemma trimEnd_white_run (p : string) : white_run p -> trimEnd p = EmptyString.
Proof.
  induction 1 as [| w r Hin _ IH]; [reflexivity |].
  vm_compute in Hin.
  repeat (destruct Hin as [<- | Hin];
          [rewrite ?append_cons, append_empty_l; cbn [trimEnd]; rewrite IH; reflexivity |]).
  destruct Hin.
Qed.

Lemma trimEnd_app_white_run (x p : string) :
  white_run p -> trimEnd (x +:+ p) = trimEnd x.
Proof.
  intros Hp. induction x as [| c x IH].
  - rewrite append_empty_l. apply trimEnd_white_run, Hp.
  - rewrite append_cons. cbn [trimEnd]. rewrite IH. reflexivity.
Qed.

Lemma trimEnd_fixed (x : string) :
  (forall w r, In w white_space -> x <> r +:+ w) -> trimEnd x = x.
Proof.
  induction x as [| c x IH]; intros Hx; [reflexivity |].
  cbn [trimEnd]. rewrite IH.
  - destruct (is_white_space (String c x)) eqn:Hw; [| reflexivity].
    exfalso. apply is_white_space_In in Hw. exact (Hx _ EmptyString Hw eq_refl).
  - intros w r Hin E. apply (Hx w (String c r) Hin).
    rewrite append_cons, <- E. reflexivity.
Qed.


Lemma white_run_head (p : string) (a : ascii) (t : string) :
  white_run p -> p = String a t -> continuation a = false.
Proof.
  intros Hp E. destruct Hp as [| w r Hin _]; [discriminate E |].
  destruct (white_space_shape w Hin) as (a' & u & -> & Ha & _).
  rewrite append_cons in E. injection E as <- _. exact Ha.
Qed.

Lemma continuations_app (x y : string) :
  continuations (x +:+ y) = true -> continuations y = true.
Proof.
  induction x as [| c x IH]; [exact (fun H => H) |].
  rewrite append_cons. cbn [continuations]. intros H.
  apply andb_true_iff in H as [_ H]. exact (IH H).
Qed.

(** White space that follows a string which does not start with white
    space makes no white space character with the end of that string:
    the bytes after the first of a character are continuation bytes, and
    a white space character does not start with one. *)
Lemma no_white_across (core post : string) :
  core <> EmptyString ->
  (forall w r, In w white_space -> core <> w +:+ r) ->
  white_run post ->
  forall w r, In w white_space -> core +:+ post <> w +:+ r.
Proof.
  intros Hne Hcore Hpost w r Hin E.
  apply append_eq_append in E as [(k & Hc & _) | (k & Hw & Hp)].
  - exact (Hcore w k Hin Hc).
  - destruct k as [| k0 k'].
    + rewrite append_empty_r in Hw. subst w.
      apply (Hcore core EmptyString Hin). rewrite append_empty_r. reflexivity.
    + rewrite append_cons in Hp.
      pose proof (white_run_head post k0 _ Hpost Hp) as Hk.
      destruct (white_space_shape w Hin) as (a & u & -> & _ & Hu & _).
      destruct core as [| a' core']; [congruence |].
      rewrite append_cons in Hw. injection Hw as _ ->.
      apply continuations_app in Hu. cbn [continuations] in Hu.
      apply andb_true_iff in Hu as [Hu _]. congruence.
Qed.

(** [trim] returns the string without the white space around it. *)
Lemma trim_stripped (s : string) : stripped s (trim s).
Proof.
  unfold stripped, trim.
  destruct (trimStart_spec s) as [(pre & Hs & Hpre) Hhead].
  destruct (trimEnd_spec (trimStart s)) as [(post & Ht & Hpost) Htail].
  exists pre, post. split; [| split; [exact Hpre | split; [exact Hpost | split]]].
  - rewrite <- Ht. exact Hs.
  - intros w r Hin E. apply (Hhead w (r +:+ post) Hin).
    rewrite Ht at 1. rewrite E, append_assoc. reflexivity.
  - exact Htail.
Qed.

(** There is one such string only. *)
Lemma stripped_trim (s core : string) : stripped s core -> core = trim s.
Proof.
  intros (pre & post & -> & Hpre & Hpost & Hhead & Htail). unfold trim.
  rewrite (trimStart_white_run pre _ Hpre).
  destruct core as [| a core'].
  - rewrite append_empty_l.
    rewrite <- (append_empty_r post) at 1.
    rewrite (trimStart_white_run post _ Hpost). reflexivity.
  - rewrite trimStart_fixed.
    + rewrite (trimEnd_app_white_run _ post Hpost).
      symmetry. apply trimEnd_fixed. exact Htail.
    + apply no_white_across; [discriminate | exact Hhead | exact Hpost].
Qed.

Lemma stripped_unique (s core core' : string) :
  stripped s core -> stripped s core' -> core = core'.
Proof.
  intros H H'. rewrite (stripped_trim s core H), (stripped_trim s core' H').
  reflexivity.
Qed.

End StringFacts.

(** ** The sample JSON reader and writer *)

Section SampleJSONFacts.
Import SampleJSON.
#[local] Existing Instance sample_JSON.

Lemma digit_of_pretty_N_char (d : N) :
  (d < 10)%N -> digit_of (pretty_N_char d) = Some (Z.of_N d).
Proof.
  intros Hd.
  assert (Hc : (d = 0 \/ d = 1 \/ d = 2 \/ d = 3 \/ d = 4 \/ d = 5 \/ d = 6
                \/ d = 7 \/ d = 8 \/ d = 9)%N) by lia.
  repeat destruct Hc as [-> | Hc]; try subst d; reflexivity.
Qed.

(** Reading back the digits that [pretty_N_go] puts in front of [s]. *)
Lemma read_digits_pretty_N_go (x : N) :
  forall (s : string) (acc : Z) (count : nat),
  exists k : nat,
    ((0 < x)%N -> (0 < k)%nat)
    /\ read_digits (pretty_N_go x s) acc count
       = read_digits s (acc * 10 ^ Z.of_nat k + Z.of_N x) (count + k)%nat.
Proof.
  induction (N.lt_wf_0 x) as [x _ IH]. intros s acc count.
  destruct (N.eq_dec x 0%N) as [-> | Hx].
  - exists O. split; [lia |]. rewrite pretty_N_go_0.
    f_equal; [simpl; lia | lia].
  - assert (Hpos : (0 < x)%N) by (apply N.neq_0_lt_0; exact Hx).
    rewrite pretty_N_go_step by exact Hpos.
    destruct (IH (x `div` 10)%N (N.div_lt x 10 Hpos eq_refl)
                (String (pretty_N_char (x `mod` 10)) s) acc count)
      as (k & _ & ->).
    exists (S k). split; [lia |].
    simpl read_digits.
    rewrite digit_of_pretty_N_char by (apply N.mod_lt; lia).
    f_equal; [| lia].
    rewrite Nat2Z.inj_succ, Z.pow_succ_r by lia.
    rewrite (N.div_mod x 10) at 3 by lia.
    rewrite N2Z.inj_add, N2Z.inj_mul. simpl Z.of_N. ring.
Qed.

(** The first character of a positive number is a digit from 1 to 9. *)
Lemma pretty_N_go_head (x : N) :
  forall s : string,
  (0 < x)%N ->
  exists d s', (1 <= d <= 9)%N /\ pretty_N_go x s = String (pretty_N_char d) s'.
Proof.
  induction (N.lt_wf_0 x) as [x _ IH]. intros s Hpos.
  rewrite pretty_N_go_step by exact Hpos.
  destruct (N.eq_dec (x `div` 10)%N 0%N) as [Hz | Hnz].
  - rewrite Hz, pretty_N_go_0. exists (x `mod` 10)%N, s. split; [| reflexivity].
    assert (Hlt : (x `mod` 10 < 10)%N) by (apply N.mod_lt; lia).
    assert (Hdm : (x = 10 * (x `div` 10) + x `mod` 10)%N)
      by (apply N.div_mod; lia).
    rewrite Hz in Hdm. lia.
  - apply IH; [apply N.div_lt; lia | apply N.neq_0_lt_0; exact Hnz].
Qed.

Lemma pretty_N_go_app (x : N) :
  forall s t : string, pretty_N_go x s +:+ t = pretty_N_go x (s +:+ t).
Proof.
  induction (N.lt_wf_0 x) as [x _ IH]. intros s t.
  destruct (N.eq_dec x 0%N) as [-> | Hx].
  - rewrite !pretty_N_go_0. reflexivity.
  - assert (Hpos : (0 < x)%N) by (apply N.neq_0_lt_0; exact Hx).
    rewrite (pretty_N_go_step x s), (pretty_N_go_step x (s +:+ t)) by exact Hpos.
    rewrite IH by (apply N.div_lt; [exact Hpos | reflexivity]). reflexivity.
Qed.

Lemma read_digits_end (rest : string) (acc : Z) (count : nat) :
  ends_number rest = true -> read_digits rest acc count = (acc, count, rest).
Proof.
  destruct rest as [| c r]; simpl; [reflexivity |].
  destruct (digit_of c); [discriminate | reflexivity].
Qed.

Lemma ends_number_no_fraction (rest : string) :
  ends_number rest = true -> starts_fraction rest = false.
Proof.
  destruct rest as [| c r]; [reflexivity |]. unfold ends_number.
  destruct (digit_of c); [discriminate |].
  intros Hn. apply negb_true_iff in Hn. exact Hn.
Qed.

Lemma read_natural_pretty_N_go (x : N) (rest : string) :
  (0 < x)%N -> ends_number rest = true ->
  read_natural (pretty_N_go x rest) = Some (Z.of_N x, rest).
Proof.
  intros Hpos Hend.
  assert (Hz : startsWith (pretty_N_go x rest) "0" = false).
  { destruct (pretty_N_go_head x rest Hpos) as (d & s' & Hd & ->).
    assert (Hc : (d = 1 \/ d = 2 \/ d = 3 \/ d = 4 \/ d = 5 \/ d = 6
                  \/ d = 7 \/ d = 8 \/ d = 9)%N) by lia.
    repeat destruct Hc as [-> | Hc]; try subst d; reflexivity. }
  unfold read_natural.
  destruct (read_digits_pretty_N_go x rest 0 0%nat) as (k & Hk & ->).
  rewrite read_digits_end by exact Hend.
  rewrite Hz, (ends_number_no_fraction rest Hend).
  specialize (Hk Hpos). rewrite Z.mul_0_l, Z.add_0_l, Nat.add_0_l.
  destruct k as [| [| k]]; [lia | reflexivity | reflexivity].
Qed.

Lemma length_append (a b : string) :
  String.length (a +:+ b) = (String.length a + String.length b)%nat.
Proof.
  induction a as [| x a IH]; [reflexivity |].
  change (S (String.length (a +:+ b)) = S (String.length a + String.length b)).
  f_equal. exact IH.
Qed.

Lemma read_value_digit (f : nat) (d : N) (s' : string) :
  (d < 10)%N ->
  read_value (S f) (String (pretty_N_char d) s')
  = match read_natural (String (pretty_N_char d) s') with
    | Some (n, rest) => Some (JNum n, rest)
    | None => None
    end.
Proof.
  intros Hd.
  assert (Hc : (d = 0 \/ d = 1 \/ d = 2 \/ d = 3 \/ d = 4 \/ d = 5 \/ d = 6
                \/ d = 7 \/ d = 8 \/ d = 9)%N) by lia.
  repeat destruct Hc as [-> | Hc]; try subst d; reflexivity.
Qed.

Lemma pretty_pos_append (p : positive) (rest : string) :
  pretty p +:+ rest = pretty_N_go (N.pos p) rest.
Proof.
  unfold pretty, pretty_positive, pretty, pretty_N.
  destruct (decide (N.pos p = 0%N)) as [E | _]; [discriminate E |].
  apply pretty_N_go_app.
Qed.

(** Reading back a printed integer. *)
Lemma read_value_pretty (f : nat) (z : Z) (rest : string) :
  ends_number rest = true ->
  read_value (S f) (pretty z +:+ rest) = Some (JNum z, rest).
Proof.
  intros Hend. destruct z as [| p | p].
  - change (pretty 0 +:+ rest) with (String (pretty_N_char 0) rest).
    rewrite read_value_digit by reflexivity.
    unfold read_natural. simpl read_digits.
    rewrite read_digits_end by exact Hend.
    rewrite (ends_number_no_fraction rest Hend). reflexivity.
  - change (pretty (Z.pos p)) with (pretty p). rewrite pretty_pos_append.
    destruct (pretty_N_go_head (N.pos p) rest) as (d & s' & Hd & Heq); [reflexivity |].
    rewrite Heq, read_value_digit by lia. rewrite <- Heq.
    rewrite read_natural_pretty_N_go by (reflexivity || exact Hend).
    reflexivity.
  - change (pretty (Z.neg p) +:+ rest) with (String "-" (pretty p +:+ rest)).
    rewrite pretty_pos_append.
    change (read_value (S f) (String "-" (pretty_N_go (N.pos p) rest)))
      with (match read_natural (pretty_N_go (N.pos p) rest) with
            | Some (n, rest') => Some (JNum (- n), rest')
            | None => None
            end).
    rewrite read_natural_pretty_N_go by (reflexivity || exact Hend).
    reflexivity.
Qed.

Lemma pretty_Z_head (z : Z) (rest : string) :
  exists c s', pretty z +:+ rest = String c s' /\ number_head c = true.
Proof.
  destruct z as [| p | p].
  - exists "0"%char, rest. split; reflexivity.
  - change (pretty (Z.pos p)) with (pretty p). rewrite pretty_pos_append.
    destruct (pretty_N_go_head (N.pos p) rest) as (d & s' & Hd & ->); [reflexivity |].
    exists (pretty_N_char d), s'. split; [reflexivity |].
    unfold number_head. rewrite digit_of_pretty_N_char by lia. reflexivity.
  - exists "-"%char, (pretty p +:+ rest). split; reflexivity.
Qed.

Lemma read_items_more (value : reader json) (n : nat) (s r : string) (v : json) :
  value s = Some (v, String "," r) ->
  read_items value (S n) s
  = match read_items value n r with
    | Some (vs, r') => Some (v :: vs, r')
    | None => None
    end.
Proof. intros Hv. simpl. rewrite Hv. reflexivity. Qed.

Lemma read_items_last (value : reader json) (n : nat) (s r : string) (v : json) :
  value s = Some (v, String "]" r) ->
  read_items value (S n) s = Some ([v], r).
Proof. intros Hv. simpl. rewrite Hv. reflexivity. Qed.

(** Reading back a printed list of integers up to the closing bracket. *)
Lemma read_items_pretty (f : nat) (l : list Z) :
  forall (n : nat) (rest : string),
  l <> [] -> (length l <= n)%nat ->
  read_items (read_value (S f)) n
    (String.concat "," (map pretty l) +:+ String "]" rest)
  = Some (map JNum l, rest).
Proof.
  induction l as [| z l IH]; intros n rest Hne Hlen; [congruence |].
  destruct n as [| n]; [simpl in Hlen; lia |].
  destruct l as [| z' l].
  - simpl String.concat. apply read_items_last.
    apply read_value_pretty. reflexivity.
  - change (String.concat "," (map pretty (z :: z' :: l)))
      with (pretty z +:+ "," +:+ String.concat "," (map pretty (z' :: l))).
    rewrite !append_assoc.
    change ("," +:+ String.concat "," (map pretty (z' :: l)) +:+ String "]" rest)
      with (String "," (String.concat "," (map pretty (z' :: l)) +:+ String "]" rest)).
    rewrite (read_items_more _ n _ _ (JNum z))
      by (apply read_value_pretty; reflexivity).
    rewrite IH by (simpl in *; (congruence || lia)). reflexivity.
Qed.

Lemma read_string_plain (t rest : string) :
  plain t = true -> read_string (t +:+ String "034" rest) = Some (t, rest).
Proof.
  induction t as [| c t IH]; intros Hp; [reflexivity |].
  simpl in Hp. apply andb_true_iff in Hp as [Hc Ht].
  apply negb_true_iff, orb_false_iff in Hc as [Hc Hctl].
  apply orb_false_iff in Hc as [Hq Hb].
  change (String c t +:+ String "034" rest)
    with (String c (t +:+ String "034" rest)).
  simpl read_string. rewrite Hq, Hb, Hctl, (IH Ht). reflexivity.
Qed.

Lemma read_value_quote (f : nat) (t rest : string) :
  plain t = true ->
  read_value (S f) (quote t +:+ rest) = Some (JStr t, rest).
Proof.
  intros Hp. unfold quote. rewrite append_assoc.
  change (String "034" t +:+ String "034" EmptyString +:+ rest)
    with (String "034" (t +:+ String "034" rest)).
  change (read_value (S f) (String "034" (t +:+ String "034" rest)))
    with (match read_string (t +:+ String "034" rest) with
          | Some (t', rest') => Some (JStr t', rest')
          | None => None
          end).
  rewrite read_string_plain by exact Hp. reflexivity.
Qed.

Lemma read_value_bracket (f : nat) (c : ascii) (s' : string) :
  number_head c = true ->
  read_value (S f) (String "[" (String c s'))
  = match read_items (read_value f) (String.length (String c s')) (String c s') with
    | Some (vs, rest) => Some (JArr vs, rest)
    | None => None
    end.
Proof.
  destruct c as [[] [] [] [] [] [] [] []]; intros Hh;
    try discriminate Hh; reflexivity.
Qed.

Lemma length_pretty_Z (z : Z) : (1 <= String.length (pretty z))%nat.
Proof.
  destruct (pretty_Z_head z EmptyString) as (c & s' & Heq & _).
  assert (Hl : String.length (pretty z +:+ EmptyString) = S (String.length s'))
    by (rewrite Heq; reflexivity).
  rewrite length_append in Hl. simpl in Hl. lia.
Qed.

Lemma length_concat_pretty (l : list Z) (rest : string) :
  (length l <= String.length (String.concat "," (map pretty l) +:+ rest))%nat.
Proof.
  induction l as [| z l IH]; [simpl; lia |].
  pose proof (length_pretty_Z z) as Hz.
  destruct l as [| z' l].
  - simpl String.concat. rewrite length_append. simpl. lia.
  - change (String.concat "," (map pretty (z :: z' :: l)))
      with (pretty z +:+ "," +:+ String.concat "," (map pretty (z' :: l))).
    rewrite !append_assoc, length_append.
    change ("," +:+ String.concat "," (map pretty (z' :: l)) +:+ rest)
      with (String "," (String.concat "," (map pretty (z' :: l)) +:+ rest)).
    change (length (z :: z' :: l)) with (S (length (z' :: l))).
    remember (String.concat "," (map pretty (z' :: l)) +:+ rest) as u.
    simpl in IH |- *. lia.
Qed.

(** Reading back a printed array of integers. *)
Lemma read_value_array (f : nat) (l : list Z) (rest : string) :
  read_value (S (S f)) (stringify (JArr (map JNum l)) +:+ rest)
  = Some (JArr (map JNum l), rest).
Proof.
  change (stringify (JArr (map JNum l)))
    with ("[" +:+ String.concat "," (map stringify (map JNum l)) +:+ "]").
  rewrite map_map. change (fun x => stringify (JNum x)) with (fun x : Z => pretty x).
  destruct l as [| z l].
  - reflexivity.
  - rewrite !append_assoc.
    change ("[" +:+ String.concat "," (map (fun x : Z => pretty x) (z :: l)) +:+ "]" +:+ rest)
      with (String "[" (String.concat "," (map pretty (z :: l)) +:+ String "]" rest)).
    pose proof (length_concat_pretty (z :: l) (String "]" rest)) as Hlen.
    assert (Hhead : exists c s', String.concat "," (map pretty (z :: l)) +:+ String "]" rest
                                 = String c s' /\ number_head c = true).
    { destruct l as [| z' l].
      - simpl String.concat. apply pretty_Z_head.
      - change (String.concat "," (map pretty (z :: z' :: l)))
          with (pretty z +:+ "," +:+ String.concat "," (map pretty (z' :: l))).
        rewrite append_assoc. apply pretty_Z_head. }
    destruct Hhead as (c & s' & Heq & Hh).
    rewrite Heq in *. rewrite read_value_bracket by exact Hh.
    rewrite <- Heq in *.
    rewrite read_items_pretty by (congruence || exact Hlen). reflexivity.
Qed.

Lemma read_members_more (value : reader json) (n : nat) (k s r : string) (v : json) :
  plain k = true ->
  value s = Some (v, String "," r) ->
  read_members value (S n) (String "034" (k +:+ String "034" (String ":" s)))
  = match read_members value n r with
    | Some (ms, r') => Some ((k, v) :: ms, r')
    | None => None
    end.
Proof.
  intros Hk Hv. simpl. rewrite read_string_plain by exact Hk.
  simpl. rewrite Hv. reflexivity.
Qed.

Lemma read_members_last (value : reader json) (n : nat) (k s r : string) (v : json) :
  plain k = true ->
  value s = Some (v, String "}" r) ->
  read_members value (S n) (String "034" (k +:+ String "034" (String ":" s)))
  = Some ([(k, v)], r).
Proof.
  intros Hk Hv. simpl. rewrite read_string_plain by exact Hk.
  simpl. rewrite Hv. reflexivity.
Qed.

Lemma read_value_brace (f : nat) (s' : string) :
  read_value (S f) (String "{" (String "034" s'))
  = match read_members (read_value f) (String.length (String "034" s'))
            (String "034" s') with
    | Some (ms, rest) => Some (JObj ms, rest)
    | None => None
    end.
Proof. reflexivity. Qed.

Lemma stringify_progress (l : list Z) (now : string) :
  stringify (progress_of_list l now)
  = String "{" (String "034" ("completedChallenges" +:+ String "034" (String ":"
      (stringify (JArr (map JNum l)) +:+ String "," (String "034"
         ("lastUpdated" +:+ String "034" (String ":"
            (quote now +:+ String "}" EmptyString)))))))).
Proof.
  change (stringify (progress_of_list l now))
    with ("{" +:+
          ((quote "completedChallenges" +:+ ":" +:+ stringify (JArr (map JNum l)))
           +:+ "," +:+ (quote "lastUpdated" +:+ ":" +:+ quote now))
          +:+ "}").
  unfold quote at 1 2. rewrite !append_assoc. reflexivity.
Qed.

(** The sample reader gives back every progress document over integer ids
    that the sample writer printed. *)
Lemma SampleJSON_parse_stringify_progress (l : list Z) (now : string) :
  plain now = true ->
  parse (stringify (progress_of_list l now)) = Normal (progress_of_list l now).
Proof.
  intros Hnow. unfold parse. rewrite stringify_progress.
  match goal with |- context [String "{" (String "034" ?t)] => set (body := t) end.
  change (String.length (String "{" (String "034" body)))
    with (S (S (String.length body))).
  rewrite read_value_brace.
  assert (Hlen : exists n, String.length (String "034" body) = S (S n)).
  { subst body. simpl String.length. rewrite length_append. simpl. eauto. }
  destruct Hlen as (n & ->). subst body.
  erewrite read_members_more; [| reflexivity | apply read_value_array].
  erewrite read_members_last;
    [| reflexivity | apply read_value_quote; exact Hnow].
  reflexivity.
Qed.

Lemma SampleJSON_stringify_progress_not_empty (l : list Z) (now : string) :
  stringify (progress_of_list l now) <> EmptyString.
Proof. rewrite stringify_progress. discriminate. Qed.

(** The completed set of integer ids is printed from a list of integers. *)
Lemma elements_JNum (ids : gset Z) :
  exists l : list Z, elements (set_map JNum ids : gset json) = map JNum l.
Proof.
  assert (Hall : forall x, x ∈ elements (set_map JNum ids : gset json) ->
                           exists z, x = JNum z).
  { intros x Hx. apply elem_of_elements, elem_of_map in Hx as (z & -> & _). eauto. }
  induction (elements (set_map JNum ids : gset json)) as [| x xs IH].
  - exists []. reflexivity.
  - destruct (Hall x) as (z & ->); [left |].
    destruct IH as (l & ->); [intros y Hy; apply Hall; right; exact Hy |].
    exists (z :: l). reflexivity.
Qed.

(** On the sample platform the document that [saveProgress] writes for a
    set of integer ids is read back as it was. *)
Lemma sample_JSON_roundtrips (ids : gset Z) (now : string) :
  plain now = true ->
  roundtrips (progress_document (set_map JNum ids) now).
Proof.
  intros Hnow. unfold roundtrips, progress_document.
  destruct (elements_JNum ids) as (l & ->).
  split.
  - apply (SampleJSON_stringify_progress_not_empty l now).
  - apply (SampleJSON_parse_stringify_progress l now Hnow).
Qed.

End SampleJSONFacts.

(** ** Filter engine *)

Section FilterFacts.

Lemma activeTags_some_present (c : Challenge) (ts activeTags : list string) :
  tags c = Some ts ->
  activeTags_some c activeTags =
    Normal (existsb (fun tag => existsb (String.eqb tag) ts) activeTags).
Proof.
  intros Hts. induction activeTags as [| tag rest IH]; simpl; [reflexivity |].
  unfold tags_includes. rewrite Hts. simpl.
  destruct (existsb (String.eqb tag) ts); simpl; [reflexivity | exact IH].
Qed.

Lemma activeTags_some_absent (c : Challenge) (tag : string) (rest : list string) :
  tags c = None -> activeTags_some c (tag :: rest) = Throw TypeError.
Proof. intros Hts. simpl. unfold tags_includes. rewrite Hts. reflexivity. Qed.

Lemma matchesTags_present (c : Challenge) (ts activeTags : list string) :
  tags c = Some ts ->
  match activeTags with
  | [] => Normal true
  | _ :: _ => activeTags_some c activeTags
  end = Normal (is_nil activeTags
                || existsb (fun tag => existsb (String.eqb tag) ts) activeTags).
Proof.
  intros Hts. destruct activeTags as [| tag rest]; [reflexivity |].
  apply activeTags_some_present. exact Hts.
Qed.

Lemma matchesTags_absent (c : Challenge) (activeTags : list string) :
  tags c = None ->
  match activeTags with
  | [] => Normal true
  | _ :: _ => activeTags_some c activeTags
  end = if is_nil activeTags then Normal true else Throw TypeError.
Proof.
  intros Hts. destruct activeTags as [| tag rest]; [reflexivity |].
  apply activeTags_some_absent. exact Hts.
Qed.

(** The callback of [applyFilters]: a [TypeError] exactly when the entry
    has no [tags] and the callback reaches them. *)
Lemma matches_eq (term diff : string) (activeTags : list string) (c : Challenge) :
  matches term diff activeTags c =
    if no_tags c && reads_tags term activeTags c then Throw TypeError
    else Normal (matchesb term diff activeTags c).
Proof.
  unfold matches, matchesb, reads_tags, no_tags, tag_set, tags_some.
  destruct (tags c) as [ts |] eqn:Hts.
  - rewrite (matchesTags_present c ts) by exact Hts.
    destruct (is_empty term), (includes (toLowerCase (title c)) term),
      (includes (toLowerCase (description c)) term); reflexivity.
  - rewrite (matchesTags_absent c) by exact Hts.
    destruct (is_empty term), (includes (toLowerCase (title c)) term),
      (includes (toLowerCase (description c)) term), (is_nil activeTags);
      simpl; rewrite ?andb_true_r, ?andb_false_r; reflexivity.
Qed.

(** A pass whose callback throws [e] on the elements in [bad] and returns
    [g] elsewhere. *)
Lemma filterC_eq {A} (f : A -> completion bool) (bad g : A -> bool) (e : JsError)
    (l : list A) :
  (forall x, f x = if bad x then Throw e else Normal (g x)) ->
  filterC f l = if existsb bad l then Throw e else Normal (List.filter g l).
Proof.
  intros Hf. induction l as [| x r IH]; simpl; [reflexivity |].
  rewrite Hf, IH. destruct (bad x); simpl; [reflexivity |].
  destruct (existsb bad r); simpl; [reflexivity |].
  destruct (g x); reflexivity.
Qed.

(** The filter pass, in closed form. *)
Lemma computeVisible_eq (catalog : list Challenge) (st : FilterState) :
  computeVisible catalog st =
    if existsb (fun c => no_tags c && consults_tags st c) catalog
    then Throw TypeError
    else Normal (List.filter
                   (matchesb (trim (toLowerCase (search_term st)))
                             (activeDifficulty st) (tag_facet st))
                   catalog).
Proof.
  unfold computeVisible, filter_pass. simpl.
  apply filterC_eq. intros c. apply matches_eq.
Qed.

(** Typing in the search box runs the same pass: the term that
    [handleSearch] hands over is the one that the pass reads from the box
    itself. *)
Lemma filter_pass_computeVisible (catalog : list Challenge) (st : FilterState) :
  filter_pass (trim (toLowerCase (search_term st))) st catalog
  = computeVisible catalog st.
Proof.
  unfold computeVisible, filter_pass. simpl.
  destruct (is_empty (trim (toLowerCase (search_term st)))); reflexivity.
Qed.

Lemma existsb_In_iff {A} (p : A -> bool) (l : list A) :
  existsb p l = true <-> exists x, In x l /\ p x = true.
Proof. apply existsb_exists. Qed.

(** The boolean the callback computes is the predicate of the
    specification on the trimmed search term. *)
Lemma matchesb_visible (st : FilterState) (c : Challenge) :
  matchesb (trim (toLowerCase (search_term st)))
           (activeDifficulty st) (tag_facet st) c = true
  <-> visible st c.
Proof.
  unfold matchesb, visible, search_holds, difficulty_holds, tags_hold.
  rewrite trim_lower.
  rewrite !andb_true_iff, !orb_true_iff, !includes_lower_spec, !String.eqb_eq,
    is_empty_lower, is_empty_true, !existsb_In_iff.
  assert (Hnil : is_nil (tag_facet st) = true <-> tag_facet st = [])
    by (destruct (tag_facet st); simpl; split; congruence).
  rewrite Hnil.
  split.
  - intros [[Hs Hd] Ht]. split; [| split].
    + destruct Hs as [[[He | Ht'] | Hd'] | (tag & Hin & Hi)]; auto.
      right. right. right. exists tag. split; [exact Hin |].
      apply includes_lower_spec. exact Hi.
    + exact Hd.
    + destruct Ht as [Hn | (tag & Hin & Hex)]; [left; exact Hn |].
      right. apply existsb_In_iff in Hex as (tag' & Hin' & Heq).
      apply String.eqb_eq in Heq. subst tag'. eauto.
  - intros (Hs & Hd & Ht). split; [split |].
    + destruct Hs as [He | [Ht' | [Hd' | (tag & Hin & Hi)]]]; auto.
      right. exists tag. split; [exact Hin |].
      apply includes_lower_spec. exact Hi.
    + exact Hd.
    + destruct Ht as [Hn | (tag & Hin & Hin')]; [left; exact Hn |].
      right. exists tag. split; [exact Hin |].
      apply existsb_In_iff. exists tag. split; [exact Hin' |].
      apply String.eqb_refl.
Qed.

Lemma difficulty_facet_holds_iff (st : FilterState) (c : Challenge) :
  difficulty_holds (activeDifficulty st) c
  <-> difficulty_facet_holds (difficulty_facet st) c.
Proof.
  unfold difficulty_holds, difficulty_facet_holds, facet_is_all, activeDifficulty.
  destruct (difficulty_facet st) as [[| a v] |]; cbn [is_empty].
  - split; auto.
  - split.
    + intros [H | H]; [left; right; right; congruence | right; congruence].
    + intros [[H | [H | H]] | H]; try discriminate H.
      * left. congruence.
      * right. congruence.
  - split; auto.
Qed.

(** The boolean the callback computes is the three predicates on the
    search text without the white space around it. *)
Lemma matchesb_shown (st : FilterState) (term : string) (c : Challenge) :
  stripped (search_term st) term ->
  (matchesb (trim (toLowerCase (search_term st)))
            (activeDifficulty st) (tag_facet st) c = true
   <-> shown term st c).
Proof.
  intros Hterm. apply stripped_trim in Hterm. subst term.
  rewrite matchesb_visible. unfold visible, shown.
  rewrite difficulty_facet_holds_iff. reflexivity.
Qed.

(** C1, as amended. For every catalog whose entries have their tags and
    every filter state, with ASCII text in the titles, the descriptions
    and the tags and with [term] the search text without the white space
    around it, also ASCII: the filter pass returns the catalog with
    exactly the entries kept, in their order, for which all three
    predicates hold. The term is empty or is a case-insensitive substring
    of the title, of the description or of some tag; the difficulty facet
    stands for "all" (no chip active, or an active chip whose value is
    empty or "all") or is the difficulty of the entry; and no tag is
    selected or the entry has one of the selected tags. *)
Theorem computeVisible_selects_visible (catalog : list Challenge) (st : FilterState)
    (term : string) :
  (forall c, In c catalog -> tags c <> None) ->
  stripped (search_term st) term ->
  ascii_text term = true ->
  (forall c, In c catalog -> ascii_challenge c = true) ->
  exists vis,
    computeVisible catalog st = Normal vis /\ selects (shown term st) catalog vis.
Proof.
  intros Htags Hterm _ _. rewrite computeVisible_eq.
  assert (Hno : existsb (fun c => no_tags c && consults_tags st c) catalog = false).
  { apply not_true_is_false. intros Hex.
    apply existsb_In_iff in Hex as (c & Hin & Hc).
    apply andb_true_iff in Hc as [Hc _]. unfold no_tags in Hc.
    specialize (Htags c Hin). destruct (tags c); [discriminate | congruence]. }
  rewrite Hno. eexists. split; [reflexivity |].
  eexists. split; [| reflexivity].
  intros c. apply matchesb_shown. exact Hterm.
Qed.

(** The entry titled "Vim" under the search text " vim ". *)
Lemma computeVisible_selects_visible_witness :
  exists vis,
    computeVisible [Samples.vim_basics] Samples.padded_search = Normal vis
    /\ selects (shown "vim" Samples.padded_search) [Samples.vim_basics] vis.
Proof.
  apply (computeVisible_selects_visible [Samples.vim_basics] Samples.padded_search "vim").
  - intros c [<- | []]. simpl. discriminate.
  - exact (trim_stripped " vim ").
  - reflexivity.
  - intros c [<- | []]. reflexivity.
Defined.

(** A no-break space and an ideographic space around the term are
    stripped as the spaces are. *)
Lemma computeVisible_strips_unicode_space :
  computeVisible [Samples.vim_basics]
    {| search_term := utf8 160 +:+ "VIM" +:+ utf8 12288;
       difficulty_facet := None;
       tag_facet := [] |}
  = Normal [Samples.vim_basics].
Proof. reflexivity. Qed.

(** When the text of the search box has no white space around it, the
    predicates on the typed term and on the trimmed term are the same. *)
Lemma visible_as_typed_iff (st : FilterState) (c : Challenge) :
  trim (search_term st) = search_term st ->
  (visible_as_typed st c <-> visible st c).
Proof. intros Ht. unfold visible_as_typed, visible. rewrite Ht. reflexivity. Qed.

Lemma not_ci_substring_of (t s : string) :
  includes (toLowerCase s) (toLowerCase t) = false -> ~ ci_substring_of t s.
Proof. intros Hf Hc. apply includes_lower_spec in Hc. congruence. Qed.

(** C1 as stated fails: with " vim " in the search box the pass keeps the
    entry titled "Vim", although " vim " is neither empty nor a
    case-insensitive substring of its title, description or tag. *)
Lemma computeVisible_untrimmed_counterexample :
  computeVisible [Samples.vim_basics] Samples.padded_search
    = Normal [Samples.vim_basics]
  /\ ~ visible_as_typed Samples.padded_search Samples.vim_basics
  /\ ~ selects (visible_as_typed Samples.padded_search)
        [Samples.vim_basics] [Samples.vim_basics].
Proof.
  assert (Hnot : ~ visible_as_typed Samples.padded_search Samples.vim_basics).
  { intros [Hs _]. destruct Hs as [He | [Ht | [Hd | (tag & Hin & Hc)]]].
    - discriminate He.
    - revert Ht. apply not_ci_substring_of. reflexivity.
    - revert Hd. apply not_ci_substring_of. reflexivity.
    - destruct Hin as [<- | []]. revert Hc. apply not_ci_substring_of. reflexivity. }
  split; [reflexivity | split; [exact Hnot |]].
  intros (f & Hf & Hsel). apply Hnot, Hf.
  simpl in Hsel. destruct (f Samples.vim_basics); [reflexivity | discriminate].
Qed.

(** On a catalog whose entries have their tags or have none, the pass
    ends in a [TypeError] exactly when some entry without [tags] has them
    read; otherwise an entry without [tags] is filtered as one whose tag
    set is empty. *)
Lemma computeVisible_absent_tags (catalog : list Challenge) (st : FilterState) :
  exists f : Challenge -> bool,
    (forall c, f c = true <-> visible st c) /\
    computeVisible catalog st =
      if existsb (fun c => no_tags c && consults_tags st c) catalog
      then Throw TypeError
      else Normal (List.filter f catalog).
Proof.
  eexists. split; [| apply computeVisible_eq].
  intros c. apply matchesb_visible.
Qed.


End FilterFacts.

(** ** The filter and the redraw without a guard for [tags] *)

Section LoadedFacts.
Import Loaded LoadedSpec.

Lemma tags_some_eq (e : CatalogEntry) (term : string) :
  tags_some e term =
    if search_fails term (tags_value e) then Throw TypeError
    else Normal (tag_found term (tags_value e)).
Proof.
  unfold tags_some, search_fails, tag_found.
  destruct (tags_value e) as [[| | | | items |] |]; try reflexivity.
  induction items as [| x items IH]; [reflexivity |].
  cbn [someC trips existsb].
  destruct x as [| b | n | s | l | props]; try reflexivity.
  cbn [tag_matches mbind completion_bind].
  destruct (includes (toLowerCase s) term); [reflexivity |].
  cbn [negb andb orb]. exact IH.
Qed.

Lemma tags_includes_eq (e : CatalogEntry) (tag : string) :
  tags_includes e tag =
    if facet_fails (tags_value e) then Throw TypeError
    else Normal (facet_found (tags_value e) tag).
Proof.
  unfold tags_includes, facet_fails, facet_found.
  destruct (tags_value e) as [[| | | | items |] |]; reflexivity.
Qed.

Lemma activeTags_some_eq (e : CatalogEntry) (activeTags : list string) :
  activeTags_some e activeTags =
    if negb (is_nil activeTags) && facet_fails (tags_value e) then Throw TypeError
    else Normal (existsb (facet_found (tags_value e)) activeTags).
Proof.
  unfold activeTags_some.
  induction activeTags as [| tag rest IH]; [reflexivity |].
  cbn [someC is_nil negb andb existsb]. rewrite tags_includes_eq.
  destruct (facet_fails (tags_value e)); [reflexivity |].
  cbn [mbind completion_bind].
  destruct (facet_found (tags_value e) tag); [reflexivity |].
  rewrite IH. rewrite andb_false_r. reflexivity.
Qed.

(** The callback on an entry as loaded: a [TypeError] exactly when it
    cannot read the value under [tags] where it needs it. *)
Lemma matches_closed_form (term diff : string) (activeTags : list string)
    (e : CatalogEntry) :
  Loaded.matches term diff activeTags e =
    if misreads term activeTags e then Throw TypeError
    else Normal (keeps term diff activeTags e).
Proof.
  unfold Loaded.matches, misreads, keeps, search_reaches.
  rewrite tags_some_eq.
  assert (Ht : match activeTags with
               | [] => Normal true
               | _ :: _ => activeTags_some e activeTags
               end
               = if negb (is_nil activeTags) && facet_fails (tags_value e)
                 then Throw TypeError
                 else Normal (is_nil activeTags
                              || existsb (facet_found (tags_value e)) activeTags)).
  { destruct activeTags as [| tag rest]; [reflexivity |].
    rewrite activeTags_some_eq. reflexivity. }
  rewrite Ht.
  destruct (is_empty term), (includes (toLowerCase (title (fields e))) term),
    (includes (toLowerCase (description (fields e))) term),
    (search_fails term (tags_value e)),
    (negb (is_nil activeTags) && facet_fails (tags_value e));
    reflexivity.
Qed.

Lemma filter_pass_closed_form (entries : list CatalogEntry) (st : FilterState) :
  Loaded.filter_pass EmptyString st entries =
    if existsb (misreads (trim (toLowerCase (search_term st))) (tag_facet st)) entries
    then Throw TypeError
    else Normal (List.filter
                   (keeps (trim (toLowerCase (search_term st)))
                          (activeDifficulty st) (tag_facet st))
                   entries).
Proof.
  unfold Loaded.filter_pass. simpl.
  apply filterC_eq. intros e. apply matches_closed_form.
Qed.

Lemma append_cards_thrown (completedChallenges : gset json)
    (l : list CatalogEntry) (grid : list Card) :
  snd (append_cards completedChallenges l grid) =
    if forallb (fun e => is_array (tags_value e)) l then None else Some TypeError.
Proof.
  revert grid. induction l as [| e l IH]; intros grid; [reflexivity |].
  cbn [append_cards forallb]. unfold createChallengeCard, is_array.
  destruct (tags_value e) as [[| | | | items |] |]; try reflexivity.
  cbn [andb]. apply IH.
Qed.

(** The redraw throws exactly when some entry to draw has no array under
    [tags]. *)
Lemma renderChallenges_thrown (completedChallenges : gset json)
    (l : list CatalogEntry) :
  snd (renderChallenges completedChallenges l) =
    if forallb (fun e => is_array (tags_value e)) l then None else Some TypeError.
Proof. apply append_cards_thrown. Qed.

(** Typing in the search box runs the same call: the term that
    [handleSearch] hands over is the one that [applyFilters] reads from
    the box itself. *)
Lemma handleSearch_applyFilters (entries : list CatalogEntry) (st : FilterState)
    (completedChallenges : gset json) (g : Grid) :
  handleSearch (search_term st) st completedChallenges entries g
  = applyFilters EmptyString st completedChallenges entries g.
Proof.
  unfold handleSearch, applyFilters, Loaded.filter_pass. simpl.
  destruct (is_empty (trim (toLowerCase (search_term st)))); reflexivity.
Qed.


(** On a typed entry the callback as loaded is the callback of [Filter]. *)
Lemma misreads_loaded (term : string) (activeTags : list string) (c : Challenge) :
  misreads term activeTags (loaded c) = no_tags c && reads_tags term activeTags c.
Proof.
  unfold misreads, search_reaches, no_tags, reads_tags, loaded.
  cbn [fields tags_value].
  destruct (tags c) as [ts |]; cbn [fmap option_fmap option_map search_fails facet_fails].
  - assert (Hts : trips term (map JStr ts) = false).
    { induction ts as [| t ts IH]; [reflexivity |].
      cbn [map trips]. rewrite IH. apply andb_false_r. }
    rewrite Hts, !andb_false_r. reflexivity.
  - rewrite !andb_true_r. reflexivity.
Qed.

Lemma existsb_ext_eq {A} (p q : A -> bool) (l : list A) :
  (forall x, p x = q x) -> existsb p l = existsb q l.
Proof.
  intros H. induction l as [| x l IH]; [reflexivity |].
  cbn. rewrite H, IH. reflexivity.
Qed.

Lemma tag_found_loaded (term : string) (c : Challenge) :
  tag_found term (tags_value (loaded c))
  = existsb (fun tag => includes (toLowerCase tag) term) (tag_set c).
Proof.
  unfold loaded, tag_set. cbn [tags_value].
  destruct (tags c) as [ts |]; [| reflexivity].
  cbn [fmap option_fmap option_map tag_found default].
  induction ts as [| t ts IH]; [reflexivity |].
  cbn [map existsb]. rewrite IH. reflexivity.
Qed.

Lemma facet_found_loaded (c : Challenge) (tag : string) :
  facet_found (tags_value (loaded c)) tag = existsb (String.eqb tag) (tag_set c).
Proof.
  unfold loaded, tag_set. cbn [tags_value].
  destruct (tags c) as [ts |]; [| reflexivity].
  cbn [fmap option_fmap option_map facet_found default].
  induction ts as [| t ts IH]; [reflexivity |].
  cbn [map existsb is_tag]. rewrite IH. reflexivity.
Qed.

Lemma keeps_loaded (term diff : string) (activeTags : list string) (c : Challenge) :
  keeps term diff activeTags (loaded c) = matchesb term diff activeTags c.
Proof.
  unfold keeps, matchesb. rewrite tag_found_loaded.
  rewrite (existsb_ext_eq _ _ activeTags (facet_found_loaded c)).
  reflexivity.
Qed.

Lemma existsb_map {A B} (f : A -> B) (p : B -> bool) (l : list A) :
  existsb p (map f l) = existsb (fun x => p (f x)) l.
Proof. induction l as [| x l IH]; [reflexivity |]. cbn. rewrite IH. reflexivity. Qed.

Lemma filter_map {A B} (f : A -> B) (p : B -> bool) (l : list A) :
  List.filter p (map f l) = map f (List.filter (fun x => p (f x)) l).
Proof.
  induction l as [| x l IH]; [reflexivity |].
  cbn. rewrite IH. destruct (p (f x)); reflexivity.
Qed.

Lemma filter_ext_eq {A} (p q : A -> bool) (l : list A) :
  (forall x, p x = q x) -> List.filter p l = List.filter q l.
Proof.
  intros H. induction l as [| x l IH]; [reflexivity |].
  cbn. rewrite H, IH. reflexivity.
Qed.

(** The pass on the entries that a typed catalog stands for is the pass
    of [Filter]. *)
Lemma filter_pass_loaded (catalog : list Challenge) (st : FilterState) :
  Loaded.filter_pass EmptyString st (map loaded catalog) =
    match computeVisible catalog st with
    | Normal vis => Normal (map loaded vis)
    | Throw e => Throw e
    end.
Proof.
  rewrite filter_pass_closed_form, computeVisible_eq.
  rewrite existsb_map.
  rewrite (existsb_ext_eq _ (fun c => no_tags c && consults_tags st c))
    by (intros c; apply misreads_loaded).
  destruct (existsb _ catalog); [reflexivity |].
  rewrite filter_map. do 2 f_equal.
  apply filter_ext_eq. intros c. apply keeps_loaded.
Qed.



End LoadedFacts.

(** ** Progress tracker *)

#[local] Set Warnings "-clear-no-such-hyp".

Section ProgressFacts.
Context `{platform_JSON : JSON}.

Lemma saveProgress_completedChallenges (now : string) (app : NeovimMastery) :
  completedChallenges (saveProgress now app) = completedChallenges app.
Proof. reflexivity. Qed.

Lemma saveProgress_stored (now : string) (app : NeovimMastery) :
  localStorage (saveProgress now app) !! progress_key
  = Some (JSON_stringify (progress_document (completedChallenges app) now)).
Proof. unfold saveProgress. simpl. apply lookup_insert_eq. Qed.

(** [loadProgress] catches whatever its body throws. *)
Lemma loadProgress_never_throws (app : NeovimMastery) :
  exists app', loadProgress app = Normal app'.
Proof.
  unfold loadProgress, try_catch.
  match goal with |- context [match ?b with Normal _ => _ | Throw _ => _ end] =>
    destruct b end; eauto.
Qed.

(** C4. For every state and every id, [toggleChallengeCompletion] returns
    a state in which the id is completed exactly when it was not before,
    and toggling the same id a second time gives back the original set of
    completed ids. *)
Theorem toggleChallengeCompletion_involutive
    (now now' : string) (challengeId : Z) (app : NeovimMastery) :
  (JNum challengeId ∈ completedChallenges (toggleChallengeCompletion now challengeId app)
   <-> JNum challengeId ∉ completedChallenges app)
  /\ completedChallenges
       (toggleChallengeCompletion now' challengeId
          (toggleChallengeCompletion now challengeId app))
     = completedChallenges app.
Proof.
  unfold toggleChallengeCompletion. rewrite !saveProgress_completedChallenges.
  simpl. split.
  - destruct (decide (JNum challengeId ∈ completedChallenges app)); set_solver.
  - destruct (decide (JNum challengeId ∈ completedChallenges app)) as [Hin | Hout].
    + rewrite decide_False by set_solver.
      apply set_eq. intros x. destruct (decide (x = JNum challengeId)); set_solver.
    + rewrite decide_True by set_solver. set_solver.
Qed.

(** Toggling an id leaves the other ids as they are. *)
Lemma toggleChallengeCompletion_other
    (now : string) (challengeId : Z) (x : json) (app : NeovimMastery) :
  x <> JNum challengeId ->
  (x ∈ completedChallenges (toggleChallengeCompletion now challengeId app)
   <-> x ∈ completedChallenges app).
Proof.
  intros Hne. unfold toggleChallengeCompletion.
  rewrite saveProgress_completedChallenges. simpl.
  destruct (decide (JNum challengeId ∈ completedChallenges app)); set_solver.
Qed.

(** Restoring what [saveProgress] stored, whatever the completed set. *)
Lemma loadProgress_saveProgress (now : string) (catalog : list Challenge)
    (app : NeovimMastery) :
  roundtrips (progress_document (completedChallenges app) now) ->
  exists app',
    loadProgress (constructor catalog (localStorage (saveProgress now app)))
      = Normal app'
    /\ completedChallenges app' = completedChallenges app.
Proof.
  intros [Hne Hrt]. unfold loadProgress.
  cbn [localStorage constructor]. rewrite saveProgress_stored.
  destruct (is_empty (JSON_stringify _)) eqn:He.
  { apply is_empty_true in He. contradiction. }
  rewrite Hrt. simpl. eexists. split; [reflexivity |].
  simpl. apply list_to_set_elements_L.
Qed.

(** C5. For every snapshot whose completed ids are a finite set of
    integers, on a platform whose [JSON] reads back the document that
    [saveProgress] writes, restoring after persisting yields the same set
    of completed ids. *)
Theorem restore_persist_roundtrip (ids : gset Z) (now : string)
    (catalog : list Challenge) (app : NeovimMastery) :
  completedChallenges app = set_map JNum ids ->
  roundtrips (progress_document (set_map JNum ids) now) ->
  exists app',
    loadProgress (constructor catalog (localStorage (saveProgress now app)))
      = Normal app'
    /\ completedChallenges app' = set_map JNum ids.
Proof.
  intros Hids Hrt. rewrite <- Hids in *.
  apply loadProgress_saveProgress. exact Hrt.
Qed.

(** C6. Whatever is stored under the progress key, be it nothing, text
    that [JSON.parse] rejects, or an object without [completedChallenges],
    [loadProgress] on a newly constructed controller returns normally,
    with no completed id. *)
Theorem restore_recovers (catalog : list Challenge) (storage : gmap string string) :
  (storage !! progress_key = None
   \/ (exists saved e,
         storage !! progress_key = Some saved /\ JSON_parse saved = Throw e)
   \/ (exists saved props,
         storage !! progress_key = Some saved
         /\ JSON_parse saved = Normal (JObj props)
         /\ lookup_prop "completedChallenges" props = None)) ->
  exists app',
    loadProgress (constructor catalog storage) = Normal app'
    /\ completedChallenges app' = ∅.
Proof.
  unfold loadProgress. cbn [localStorage constructor].
  intros [Hnone | [(saved & e & Hs & Hp) | (saved & props & Hs & Hp & Hl)]].
  - rewrite Hnone. simpl. eauto.
  - rewrite Hs. destruct (is_empty saved); [simpl; eauto |].
    rewrite Hp. simpl. eauto.
  - rewrite Hs. destruct (is_empty saved); [simpl; eauto |].
    rewrite Hp. simpl. rewrite Hl. simpl. eauto.
Qed.

End ProgressFacts.

(** *** On the sample JSON reader and writer *)

Section ProgressOnSampleJSON.
#[local] Existing Instance SampleJSON.sample_JSON.

(** The ids 1 and 3, persisted and restored through the JSON text. *)
Lemma restore_persist_roundtrip_witness :
  exists app',
    loadProgress
      (constructor [Samples.vim_basics]
         (localStorage (saveProgress Samples.timestamp Samples.two_completed)))
      = Normal app'
    /\ completedChallenges app' = set_map JNum ({[1; 3]} : gset Z).
Proof.
  apply (restore_persist_roundtrip {[1; 3]} Samples.timestamp
           [Samples.vim_basics] Samples.two_completed).
  - reflexivity.
  - split; [vm_compute; discriminate | vm_compute; reflexivity].
Defined.

(** On the sample platform the round trip needs no assumption on [JSON]:
    whatever the set of integer ids and the time stamp, restoring after
    persisting gives the set back. *)
Lemma restore_persist_roundtrip_sample (ids : gset Z) (now : string)
    (catalog : list Challenge) (app : NeovimMastery) :
  SampleJSON.plain now = true ->
  completedChallenges app = set_map JNum ids ->
  exists app',
    loadProgress (constructor catalog (localStorage (saveProgress now app)))
      = Normal app'
    /\ completedChallenges app' = set_map JNum ids.
Proof.
  intros Hnow Hids. rewrite <- Hids.
  apply loadProgress_saveProgress. rewrite Hids.
  apply sample_JSON_roundtrips. exact Hnow.
Qed.

(** Text that is not JSON under the progress key. *)
Lemma restore_recovers_witness :
  exists app',
    loadProgress (constructor [Samples.vim_basics] Samples.garbage_storage)
      = Normal app'
    /\ completedChallenges app' = ∅.
Proof.
  apply (restore_recovers [Samples.vim_basics] Samples.garbage_storage).
  right. left. exists "not json{", SyntaxError.
  split; [reflexivity | vm_compute; reflexivity].
Defined.

End ProgressOnSampleJSON.

(** ** Percentages *)

Section PercentageFacts.

(** C2, at the failing input. With an empty catalog and nothing
    completed, [exportProgress] divides zero by zero and exports NaN as
    the completion percentage, while [updateStats], which guards the
    division, shows 0. *)
Theorem exportProgress_empty_catalog_nan (now : string) (storage : gmap string string) :
  completionPercentage (exportProgress now (constructor [] storage)) = NaN
  /\ updateStats (constructor [] storage) = (0, 0, of_Z 0).
Proof. split; reflexivity. Qed.

(** With an empty catalog and a completed id restored from storage the
    exported percentage is +infinity. *)
Lemma exportProgress_empty_catalog_infinity (now : string) :
  completionPercentage
    (exportProgress now
       (set_completedChallenges {[JNum 1]} (constructor [] ∅)))
  = S754_infinity false.
Proof. vm_compute. reflexivity. Qed.

(** Three challenges completed out of ten are exported as 30. *)
Lemma exportProgress_3_of_10 :
  completionPercentage (exportProgress Samples.timestamp (Samples.progress_of 3 10))
  = of_Z 30
  /\ round_percent 3 10 = 30.
Proof. split; vm_compute; reflexivity. Qed.

(** Twenty-three challenges completed out of forty are 57.5 percent; the
    double [(23 / 40) * 100] is just below, and is exported as 57. *)
Lemma exportProgress_23_of_40 :
  completionPercentage (exportProgress Samples.timestamp (Samples.progress_of 23 40))
  = of_Z 57
  /\ round_percent 23 40 = 58.
Proof. split; vm_compute; reflexivity. Qed.

End PercentageFacts.

(** ** Session evaluator *)

Section EvaluatorFacts.

(** C7. For every exercise checked by cursor position and every final
    cursor, the verdict is a success exactly when the cursor line is the
    target line minus one and the cursor column is within two of the
    target column. *)
Theorem evaluateExercise_cursor_position
    (exercise : Exercise) (userContent : string) (cursor : Cursor)
    (random : spec_float) :
  solution_check exercise = "cursor_position" ->
  (v_success (evaluateExercise exercise userContent cursor random) = true
   <-> line cursor = target_line exercise - 1
       /\ Z.abs (ch cursor - target_column exercise) <= 2).
Proof.
  intros Hk. unfold evaluateExercise. rewrite Hk. simpl.
  rewrite andb_true_iff, Z.eqb_eq, Z.leb_le. reflexivity.
Qed.

(** C8. For every exercise checked by text content and every final text,
    the verdict is a success exactly when the final text and the expected
    result are the same once the white space around each of them is taken
    off. *)
Theorem evaluateExercise_text_content
    (exercise : Exercise) (userContent : string) (cursor : Cursor)
    (random : spec_float) :
  solution_check exercise = "text_content" ->
  (v_success (evaluateExercise exercise userContent cursor random) = true
   <-> exists core,
         stripped userContent core /\ stripped (expected_result exercise) core).
Proof.
  intros Hk. unfold evaluateExercise. rewrite Hk. simpl.
  rewrite String.eqb_eq. split.
  - intros E. exists (trim userContent). split; [apply trim_stripped |].
    rewrite E. apply trim_stripped.
  - intros (core & Hu & He).
    rewrite <- (stripped_trim _ _ Hu), <- (stripped_trim _ _ He). reflexivity.
Qed.

(** The success flag and the feedback message do not depend on the random
    draw. *)
Lemma evaluateExercise_random_irrelevant
    (exercise : Exercise) (userContent : string) (cursor : Cursor)
    (random random' : spec_float) :
  v_success (evaluateExercise exercise userContent cursor random)
    = v_success (evaluateExercise exercise userContent cursor random')
  /\ feedback (evaluateExercise exercise userContent cursor random)
    = feedback (evaluateExercise exercise userContent cursor random').
Proof.
  unfold evaluateExercise.
  repeat match goal with
         | |- context [if String.eqb ?a ?b then _ else _] =>
             destruct (String.eqb a b)
         end; split; reflexivity.
Qed.

(** C10. Two runs of [evaluateExercise] on the same exercise, text and
    cursor return the same success flag and the same feedback message,
    whatever [Math.random] returns in each; the encouragement of a
    successful run does depend on it. *)
Theorem evaluateExercise_verdict_deterministic :
  (forall exercise userContent cursor random random',
      v_success (evaluateExercise exercise userContent cursor random)
        = v_success (evaluateExercise exercise userContent cursor random')
      /\ feedback (evaluateExercise exercise userContent cursor random)
        = feedback (evaluateExercise exercise userContent cursor random'))
  /\ (exists exercise userContent cursor random random',
        v_success (evaluateExercise exercise userContent cursor random) = true
        /\ encouragement (evaluateExercise exercise userContent cursor random)
           <> encouragement (evaluateExercise exercise userContent cursor random')).
Proof.
  split; [intros; apply evaluateExercise_random_irrelevant |].
  exists Samples.hello_world, "hello world", Samples.at_origin,
    (of_Z 0), (div (of_Z 1) (of_Z 2)).
  split; [reflexivity | vm_compute; discriminate].
Qed.

End EvaluatorFacts.

(** The target 6:10 is reached from the cursor 5:11 and missed from 5:20. *)
Lemma evaluateExercise_cursor_position_witness :
  v_success (evaluateExercise Samples.reach_6_10 EmptyString
               {| line := 5; ch := 11 |} (of_Z 0)) = true
  /\ v_success (evaluateExercise Samples.reach_6_10 EmptyString
                  {| line := 5; ch := 20 |} (of_Z 0)) <> true.
Proof.
  split.
  - apply (evaluateExercise_cursor_position Samples.reach_6_10 EmptyString
             {| line := 5; ch := 11 |} (of_Z 0)); [reflexivity |].
    simpl. lia.
  - intros Hs.
    apply (evaluateExercise_cursor_position Samples.reach_6_10 EmptyString
             {| line := 5; ch := 20 |} (of_Z 0)) in Hs; [| reflexivity].
    simpl in Hs. lia.
Defined.

(** The scenario of the specification, the same text behind a no-break
    space and before a line end, and two texts that do not match: one
    word short, and two spaces between the words. *)
Lemma evaluateExercise_text_content_witness :
  v_success (evaluateExercise Samples.hello_world "hello world"
               Samples.at_origin (of_Z 0)) = true
  /\ v_success (evaluateExercise Samples.hello_world
                  (utf8 160 +:+ "hello world" +:+ utf8 10)
                  Samples.at_origin (of_Z 0)) = true
  /\ v_success (evaluateExercise Samples.hello_world "hello"
                  Samples.at_origin (of_Z 0)) <> true
  /\ v_success (evaluateExercise Samples.hello_world "hello  world"
                  Samples.at_origin (of_Z 0)) <> true.
Proof.
  split; [| split; [| split]].
  - apply (evaluateExercise_text_content Samples.hello_world "hello world"
             Samples.at_origin (of_Z 0)); [reflexivity |].
    exists "hello world". split.
    + exact (trim_stripped "hello world").
    + exact (trim_stripped "  hello world  ").
  - apply (evaluateExercise_text_content Samples.hello_world
             (utf8 160 +:+ "hello world" +:+ utf8 10)
             Samples.at_origin (of_Z 0)); [reflexivity |].
    exists "hello world". split.
    + exact (trim_stripped (utf8 160 +:+ "hello world" +:+ utf8 10)).
    + exact (trim_stripped "  hello world  ").
  - intros Hs.
    apply (evaluateExercise_text_content Samples.hello_world "hello"
             Samples.at_origin (of_Z 0)) in Hs; [| reflexivity].
    destruct Hs as (core & Hu & He).
    apply stripped_trim in Hu, He. subst core. discriminate He.
  - intros Hs.
    apply (evaluateExercise_text_content Samples.hello_world "hello  world"
             Samples.at_origin (of_Z 0)) in Hs; [| reflexivity].
    destruct Hs as (core & Hu & He).
    apply stripped_trim in Hu, He. subst core. discriminate He.
Defined.

(** ** Exercise statistics *)

Section StatsFacts.
Context `{platform_JSON : JSON}.

Lemma saveExerciseProgress_exerciseStats (now : string) (app : NeovimMastery) :
  exerciseStats (saveExerciseProgress now app) = exerciseStats app.
Proof. reflexivity. Qed.

(** A submission with an editor and a selected exercise counts once as
    completed, and once as a success exactly when the verdict is one. *)
Lemma submitExercise_counts (now : string) (random : spec_float)
    (app : NeovimMastery) (ed : Editor) (exercise : Exercise) :
  editor app = Some ed ->
  currentExercise app = Some exercise ->
  let verdict := evaluateExercise exercise (getValue ed) (getCursor ed) random in
  let st := exerciseStats app in
  let st' := exerciseStats (submitExercise now random app) in
  completed st' = completed st + 1
  /\ success st' = success st + (if v_success verdict then 1 else 0).
Proof.
  intros Hed Hex. unfold submitExercise. rewrite Hed, Hex. simpl.
  destruct (v_success _); simpl; split; lia.
Qed.

(** Without an editor or without a selected exercise, [submitExercise]
    returns at once. *)
Lemma submitExercise_guard (now : string) (random : spec_float)
    (app : NeovimMastery) :
  editor app = None \/ currentExercise app = None ->
  submitExercise now random app = app.
Proof.
  intros [Hn | Hn]; unfold submitExercise; rewrite Hn;
    [| destruct (editor app)]; reflexivity.
Qed.

Lemma submitExercise_preserves (now : string) (random : spec_float)
    (app : NeovimMastery) :
  0 <= success (exerciseStats app) <= completed (exerciseStats app) ->
  0 <= success (exerciseStats (submitExercise now random app))
    <= completed (exerciseStats (submitExercise now random app)).
Proof.
  intros Hinv. destruct (editor app) as [ed |] eqn:Hed.
  - destruct (currentExercise app) as [exercise |] eqn:Hex.
    + destruct (submitExercise_counts now random app ed exercise Hed Hex)
        as [Hc Hs].
      rewrite Hc, Hs. destruct (v_success _); lia.
    + rewrite submitExercise_guard by auto. exact Hinv.
  - rewrite submitExercise_guard by auto. exact Hinv.
Qed.

(** Throughout a practice session started from zeroed statistics, the
    successes are at most the completed submissions. *)
Lemma practising_success_le_completed (app : NeovimMastery) :
  practising app ->
  0 <= success (exerciseStats app) <= completed (exerciseStats app).
Proof.
  induction 1 as [catalog storage | exercise app _ IH | ed app _ IH
                 | now random app _ IH]; simpl.
  - lia.
  - exact IH.
  - exact IH.
  - apply submitExercise_preserves. exact IH.
Qed.

(** Before any submission the displayed rate is 0. *)
Lemma updateExerciseStats_none_completed (app : NeovimMastery) :
  completed (exerciseStats app) = 0 -> updateExerciseStats app = (0, of_Z 0).
Proof. intros Hz. unfold updateExerciseStats. rewrite Hz. reflexivity. Qed.

End StatsFacts.

Section StatsOnSampleJSON.
#[local] Existing Instance SampleJSON.sample_JSON.

Lemma practising_attempts (texts : list string) (app : NeovimMastery) :
  practising app -> practising (fold_left Samples.attempt texts app).
Proof.
  revert app. induction texts as [| text rest IH]; intros app Hp; simpl.
  - exact Hp.
  - apply IH. unfold Samples.attempt.
    apply practising_submit, practising_edit. exact Hp.
Qed.

(** C9, at the failing input. Forty submissions from zeroed statistics, of
    which twenty-three succeed, leave 40 completed and 23 successes; the
    success rate is 57.5 percent, which rounds to 58, but the double
    [(23 / 40) * 100] is just below 57.5 and [updateExerciseStats] shows
    57. *)
Theorem updateExerciseStats_23_of_40 :
  practising Samples.forty_attempts
  /\ exerciseStats Samples.forty_attempts
     = {| completed := 40; total := 0; success := 23 |}
  /\ updateExerciseStats Samples.forty_attempts = (40, of_Z 57)
  /\ to_Z (snd (updateExerciseStats Samples.forty_attempts)) = Some 57
  /\ round_percent 23 40 = 58.
Proof.
  split; [| split; [| split; [| split]]].
  - apply practising_attempts, practising_select, practising_start.
  - vm_compute. reflexivity.
  - vm_compute. reflexivity.
  - vm_compute. reflexivity.
  - reflexivity.
Qed.

End StatsOnSampleJSON.

(** * More properties of the code *)
(** ** The challenge modal *)

Section ModalFacts.
Context `{platform_JSON : JSON}.
Import Modal.

Lemma progress_key_ne_exercise : progress_key <> exercise_progress_key.
Proof. discriminate. Qed.

(** X1. After a confirmed [resetProgress] no id is completed and no
    progress is stored: a newly constructed controller restores the empty
    set from what is left; the stored exercise statistics are not
    touched. *)
Theorem resetProgress_clears (catalog : list Challenge) (app : NeovimMastery) :
  completedChallenges (resetProgress true app) = ∅
  /\ localStorage (resetProgress true app) !! progress_key = None
  /\ localStorage (resetProgress true app) !! exercise_progress_key
     = localStorage app !! exercise_progress_key
  /\ exists app',
       loadProgress (constructor catalog (localStorage (resetProgress true app)))
         = Normal app'
       /\ completedChallenges app' = ∅.
Proof.
  unfold resetProgress. cbn [completedChallenges localStorage set_localStorage
                               set_completedChallenges].
  assert (Hdel : delete progress_key (localStorage app) !! progress_key = None)
    by apply lookup_delete_eq.
  split; [reflexivity | split; [exact Hdel | split]].
  - apply lookup_delete_ne. exact progress_key_ne_exercise.
  - unfold loadProgress. cbn [localStorage constructor]. rewrite Hdel.
    simpl. eauto.
Qed.

Lemma completeChallenge_current (now : string) (m : ChallengeModal) :
  currentChallenge (completeChallenge now m) = currentChallenge m.
Proof. unfold completeChallenge. destruct (currentChallenge m) eqn:Hc; [| exact Hc]. reflexivity. Qed.

Lemma completeChallenge_completed (now : string) (m : ChallengeModal) (c : Challenge) :
  currentChallenge m = Some c ->
  completedChallenges (controller (completeChallenge now m))
  = completedChallenges (controller m) ∪ {[JNum (id c)]}.
Proof. intros Hc. unfold completeChallenge. rewrite Hc. reflexivity. Qed.

(** X2. [completeChallenge] with a current challenge makes its id
    completed and removes none; a second call changes the completed set no
    further. *)
Theorem completeChallenge_adds (now now' : string) (m : ChallengeModal)
    (c : Challenge) :
  currentChallenge m = Some c ->
  completedChallenges (controller (completeChallenge now m))
    = completedChallenges (controller m) ∪ {[JNum (id c)]}
  /\ completedChallenges
       (controller (completeChallenge now' (completeChallenge now m)))
     = completedChallenges (controller (completeChallenge now m)).
Proof.
  intros Hc. split; [apply completeChallenge_completed; exact Hc |].
  rewrite (completeChallenge_completed now' _ c)
    by (rewrite completeChallenge_current; exact Hc).
  rewrite (completeChallenge_completed now m c Hc). set_solver.
Qed.

Lemma find_id_spec (challengeId : Z) (l : list Challenge) :
  match List.find (fun c => id c =? challengeId) l with
  | Some c => In c l /\ id c = challengeId
  | None => forall c, In c l -> id c <> challengeId
  end.
Proof.
  destruct (List.find _ l) as [c |] eqn:Hf.
  - apply find_some in Hf as [Hin Heq]. apply Z.eqb_eq in Heq. auto.
  - intros c Hin Heq. apply (find_none _ _ Hf) in Hin.
    apply Z.eqb_neq in Hin. contradiction.
Qed.

(** X3. Opening the modal on an id that the catalog holds and completing
    the challenge adds exactly that id to the completed set. *)
Theorem open_then_complete (now : string) (challengeId : Z) (m : ChallengeModal) :
  (exists c, In c (challenges (controller m)) /\ id c = challengeId) ->
  completedChallenges
    (controller (completeChallenge now (openChallengeModal challengeId m)))
  = completedChallenges (controller m) ∪ {[JNum challengeId]}.
Proof.
  intros (c & Hin & Hid). unfold openChallengeModal.
  pose proof (find_id_spec challengeId (challenges (controller m))) as Hf.
  destruct (List.find _ _) as [c' |].
  - destruct Hf as [_ Hid'].
    rewrite (completeChallenge_completed now _ c') by reflexivity.
    rewrite Hid'. reflexivity.
  - exfalso. exact (Hf c Hin Hid).
Qed.

(** An id that the catalog does not hold opens nothing. *)
Lemma openChallengeModal_miss (challengeId : Z) (m : ChallengeModal) :
  (forall c, In c (challenges (controller m)) -> id c <> challengeId) ->
  openChallengeModal challengeId m = m.
Proof.
  intros Hno. unfold openChallengeModal.
  pose proof (find_id_spec challengeId (challenges (controller m))) as Hf.
  destruct (List.find _ _) as [c' |]; [| reflexivity].
  destruct Hf as [Hin Hid]. exfalso. exact (Hno c' Hin Hid).
Qed.

Lemma findC_Normal {A} (p : A -> completion bool) (q : A -> bool) (l : list A) :
  (forall x, In x l -> p x = Normal (q x)) ->
  findC p l = Normal (List.find q l).
Proof.
  induction l as [| x r IH]; intros Hp; [reflexivity |].
  simpl. rewrite (Hp x) by (left; reflexivity). simpl.
  destruct (q x); [reflexivity |]. apply IH. intros y Hy. apply Hp. right. exact Hy.
Qed.

(** X4. With a current challenge, [suggestNextChallenge] returns a
    challenge of the catalog that is not completed and is not the current
    one, and returns none only when every challenge is completed or is the
    current one. *)
Theorem suggestNextChallenge_spec (m : ChallengeModal) (cur : Challenge) :
  currentChallenge m = Some cur ->
  exists r,
    suggestNextChallenge m = Normal r
    /\ match r with
       | Some c =>
           In c (challenges (controller m))
           /\ (JNum (id c) ∉ completedChallenges (controller m))
           /\ id c <> id cur
       | None =>
           forall c, In c (challenges (controller m)) ->
             JNum (id c) ∈ completedChallenges (controller m) \/ id c = id cur
       end.
Proof.
  intros Hcur. unfold suggestNextChallenge. rewrite Hcur.
  set (q := fun c : Challenge =>
              negb (bool_decide (JNum (id c) ∈ completedChallenges (controller m)))
              && negb (id c =? id cur)).
  rewrite (findC_Normal _ q).
  2:{ intros c _. unfold is_next, q.
      destruct (decide (JNum (id c) ∈ completedChallenges (controller m))) as [Hin | Hout].
      - rewrite bool_decide_eq_true_2 by exact Hin. reflexivity.
      - rewrite bool_decide_eq_false_2 by exact Hout. reflexivity. }
  eexists. split; [reflexivity |].
  destruct (List.find q _) as [c |] eqn:Hf.
  - apply find_some in Hf as [Hin Hq]. unfold q in Hq.
    apply andb_true_iff in Hq as [Hc Hne].
    apply negb_true_iff in Hc, Hne.
    apply bool_decide_eq_false in Hc. apply Z.eqb_neq in Hne. auto.
  - intros c Hin. apply (find_none _ _ Hf) in Hin. unfold q in Hin.
    apply andb_false_iff in Hin as [Hc | Hne].
    + left. apply negb_false_iff, bool_decide_eq_true in Hc. exact Hc.
    + right. apply negb_false_iff, Z.eqb_eq in Hne. exact Hne.
Qed.

Lemma findC_all_false {A} (p : A -> completion bool) (l : list A) :
  (forall x, In x l -> p x = Normal false) -> findC p l = Normal None.
Proof.
  induction l as [| x r IH]; intros Hp; [reflexivity |].
  simpl. rewrite (Hp x) by (left; reflexivity). simpl.
  apply IH. intros y Hy. apply Hp. right. exact Hy.
Qed.

Lemma findC_first_throw {A} (p : A -> completion bool) (e : JsError) (l : list A) :
  (forall x, In x l -> p x = Normal false \/ p x = Throw e) ->
  (exists x, In x l /\ p x = Throw e) ->
  findC p l = Throw e.
Proof.
  induction l as [| x r IH]; intros Hp (y & Hy & Hty); [destruct Hy |].
  simpl. destruct (Hp x) as [Hn | Ht]; [left; reflexivity | |].
  - rewrite Hn. simpl. apply IH.
    + intros z Hz. apply Hp. right. exact Hz.
    + destruct Hy as [<- | Hy]; [congruence | eauto].
  - rewrite Ht. reflexivity.
Qed.

(** X5. The try-another button of the completion feedback closes the modal
    before it looks for the next challenge: the search then throws a
    [TypeError] as soon as a challenge of the catalog is not completed, and
    only with every challenge completed does it end, finding none. *)
Theorem try_another_throws (m : ChallengeModal) :
  try_another m =
    if forallb (fun c => bool_decide (JNum (id c) ∈ completedChallenges (controller m)))
         (challenges (controller m))
    then Normal None
    else Throw TypeError.
Proof.
  unfold try_another, suggestNextChallenge, closeModal.
  cbn [currentChallenge controller challenges completedChallenges set_editor].
  assert (Hp : forall c,
             is_next None (set_editor None (controller m)) c
             = if bool_decide (JNum (id c) ∈ completedChallenges (controller m))
               then Normal false else Throw TypeError).
  { intros c. unfold is_next. cbn [completedChallenges set_editor].
    destruct (decide _) as [Hin | Hout].
    - rewrite bool_decide_eq_true_2 by exact Hin. reflexivity.
    - rewrite bool_decide_eq_false_2 by exact Hout. reflexivity. }
  destruct (forallb _ _) eqn:Hall.
  - apply findC_all_false. intros c Hin. rewrite Hp.
    rewrite forallb_forall in Hall. rewrite (Hall c Hin). reflexivity.
  - apply findC_first_throw.
    + intros c _. rewrite Hp. destruct (bool_decide _); auto.
    + assert (Hex : exists c, In c (challenges (controller m))
                              /\ bool_decide (JNum (id c) ∈ completedChallenges (controller m)) = false).
      { clear Hp. induction (challenges (controller m)) as [| c r IH]; [discriminate |].
        simpl in Hall. apply andb_false_iff in Hall as [Hc | Hr].
        - exists c. split; [left; reflexivity | exact Hc].
        - destruct (IH Hr) as (c' & Hin & Hc'). exists c'. split; [right |]; assumption. }
      destruct Hex as (c & Hin & Hc). exists c. split; [exact Hin |].
      rewrite Hp, Hc. reflexivity.
Qed.


(** X7. The two records in storage are independent: a submitted exercise
    changes neither the completed ids nor the stored progress, and a
    completion toggle changes neither the exercise statistics nor what is
    stored of them. *)
Theorem progress_and_statistics_independent (now : string) (random : spec_float)
    (challengeId : Z) (app : NeovimMastery) :
  completedChallenges (submitExercise now random app) = completedChallenges app
  /\ localStorage (submitExercise now random app) !! progress_key
     = localStorage app !! progress_key
  /\ exerciseStats (toggleChallengeCompletion now challengeId app) = exerciseStats app
  /\ localStorage (toggleChallengeCompletion now challengeId app) !! exercise_progress_key
     = localStorage app !! exercise_progress_key.
Proof.
  split; [| split; [| split]].
  - unfold submitExercise. destruct (editor app), (currentExercise app); reflexivity.
  - unfold submitExercise. destruct (editor app), (currentExercise app); try reflexivity.
    unfold saveExerciseProgress. cbn [localStorage set_localStorage set_exerciseStats].
    apply lookup_insert_ne. intros E. symmetry in E. exact (progress_key_ne_exercise E).
  - reflexivity.
  - unfold toggleChallengeCompletion, saveProgress.
    cbn [localStorage set_localStorage set_completedChallenges].
    apply lookup_insert_ne. exact progress_key_ne_exercise.
Qed.

End ModalFacts.

(** ** Exercise statistics in storage *)

Section ExerciseProgressFacts.
Context `{platform_JSON : JSON}.
Import ExerciseProgress.

Lemma saveExerciseProgress_stored (now : string) (app : NeovimMastery) :
  localStorage (saveExerciseProgress now app) !! exercise_progress_key
  = Some (JSON_stringify (exercise_progress_document (exerciseStats app) now)).
Proof. unfold saveExerciseProgress. simpl. apply lookup_insert_eq. Qed.

(** X8. On a platform whose [JSON] reads back the document that
    [saveExerciseProgress] writes, [loadExerciseProgress] on a newly
    constructed controller gives the saved statistics back. *)
Theorem loadExerciseProgress_roundtrip (now : string) (catalog : list Challenge)
    (app : NeovimMastery) :
  roundtrips (exercise_progress_document (exerciseStats app) now) ->
  loadExerciseProgress
    (constructor catalog (localStorage (saveExerciseProgress now app)))
  = Normal (stats_object (exerciseStats app)).
Proof.
  intros [Hne Hrt]. unfold loadExerciseProgress.
  cbn [localStorage constructor]. rewrite saveExerciseProgress_stored.
  destruct (is_empty (JSON_stringify _)) eqn:He.
  { apply is_empty_true in He. contradiction. }
  rewrite Hrt. reflexivity.
Qed.

Lemma loadExerciseProgress_never_throws (app : NeovimMastery) :
  exists stats, loadExerciseProgress app = Normal stats.
Proof.
  unfold loadExerciseProgress, try_catch.
  match goal with |- context [match ?b with Normal _ => _ | Throw _ => _ end] =>
    destruct b end; eauto.
Qed.

(** X9. With nothing stored, with text that [JSON.parse] rejects, or with
    a document that has no [exerciseStats], [loadExerciseProgress] returns
    normally and the statistics stay as they are. *)
Theorem loadExerciseProgress_recovers (app : NeovimMastery) :
  (localStorage app !! exercise_progress_key = None
   \/ (exists saved e,
         localStorage app !! exercise_progress_key = Some saved
         /\ JSON_parse saved = Throw e)
   \/ (exists saved props,
         localStorage app !! exercise_progress_key = Some saved
         /\ JSON_parse saved = Normal (JObj props)
         /\ lookup_prop "exerciseStats" props = None)) ->
  loadExerciseProgress app = Normal (stats_object (exerciseStats app)).
Proof.
  unfold loadExerciseProgress.
  intros [Hnone | [(saved & e & Hs & Hp) | (saved & props & Hs & Hp & Hl)]].
  - rewrite Hnone. reflexivity.
  - rewrite Hs. destruct (is_empty saved); [reflexivity |].
    rewrite Hp. reflexivity.
  - rewrite Hs. destruct (is_empty saved); [reflexivity |].
    rewrite Hp. simpl. rewrite Hl. reflexivity.
Qed.

Lemma lookup_prop_assign (key k : string) (v : json) (props : list (string * json)) :
  lookup_prop k (assign key v props)
  = if String.eqb key k then Some v else lookup_prop k props.
Proof.
  induction props as [| [k0 w] rest IH]; simpl.
  - destruct (String.eqb key k); reflexivity.
  - destruct (String.eqb k0 key) eqn:Hk0; simpl.
    + apply String.eqb_eq in Hk0. subst k0.
      destruct (String.eqb key k); reflexivity.
    + destruct (String.eqb k0 k) eqn:Hk0k; [| exact IH].
      apply String.eqb_eq in Hk0k. subst k0.
      rewrite String.eqb_sym, Hk0. reflexivity.
Qed.

Lemma spread_keeps_unmentioned (base : list (string * json)) (v : option json)
    (k : string) :
  (forall p, In p (own_properties v) -> fst p <> k) ->
  lookup_prop k (spread base v) = lookup_prop k base.
Proof.
  unfold spread. generalize (own_properties v) as ps. intros ps. revert base.
  induction ps as [| [key w] rest IH]; intros base Hno; [reflexivity |].
  simpl. rewrite IH by (intros p Hp; apply Hno; right; exact Hp).
  rewrite lookup_prop_assign.
  destruct (String.eqb key k) eqn:Hk; [| reflexivity].
  apply String.eqb_eq in Hk. exfalso. apply (Hno (key, w)); [left; reflexivity | exact Hk].
Qed.

(** X10. The stored statistics are merged into the current ones: a counter
    that the stored [exerciseStats] does not mention keeps its current
    value. *)
Theorem loadExerciseProgress_merges (app : NeovimMastery) (saved : string)
    (progress : json) (stored : option json) (k : string) :
  localStorage app !! exercise_progress_key = Some saved ->
  JSON_parse saved = Normal progress ->
  get_prop progress "exerciseStats" = Normal stored ->
  (forall p, In p (own_properties stored) -> fst p <> k) ->
  exists stats,
    loadExerciseProgress app = Normal stats
    /\ lookup_prop k stats = lookup_prop k (stats_object (exerciseStats app)).
Proof.
  intros Hs Hp Hg Hno. unfold loadExerciseProgress. rewrite Hs.
  destruct (is_empty saved); [simpl; eauto |].
  rewrite Hp. simpl. rewrite Hg. simpl. eexists. split; [reflexivity |].
  apply spread_keeps_unmentioned. exact Hno.
Qed.

End ExerciseProgressFacts.

(** ** Difficulty counts, tag chips and filter chips *)

Section PageFacts.
Import Page.

Lemma increment_lookup (d key : string) (counts : gmap string count) (n : Z) :
  key <> "__proto__" ->
  counts !! key = Some (Some n) ->
  increment d counts !! key
  = Some (Some (if String.eqb d key then n + 1 else n)).
Proof.
  intros Hp Hk. unfold increment. destruct (String.eqb d key) eqn:Hd.
  - apply String.eqb_eq in Hd. subst d.
    apply String.eqb_neq in Hp. rewrite Hp, Hk. apply lookup_insert_eq.
  - apply String.eqb_neq in Hd.
    destruct (String.eqb d "__proto__"); [exact Hk |].
    destruct (counts !! d) as [[m |] |]; rewrite lookup_insert_ne by exact Hd; exact Hk.
Qed.

Lemma fold_increment_lookup (key : string) (cs : list Challenge) :
  key <> "__proto__" ->
  forall (counts : gmap string count) (n : Z),
  counts !! key = Some (Some n) ->
  fold_left (fun counts c => increment (difficulty c) counts) cs counts !! key
  = Some (Some (n + occurrences key cs)).
Proof.
  unfold occurrences. intros Hp.
  induction cs as [| c cs IH]; intros counts n Hk; simpl.
  - rewrite Z.add_0_r. exact Hk.
  - rewrite (IH _ _ (increment_lookup (difficulty c) key counts n Hp Hk)).
    destruct (String.eqb (difficulty c) key); simpl length;
      do 2 f_equal; lia.
Qed.

Lemma updateDifficultyCounts_lookup (app : NeovimMastery) (key : string) (n : Z) :
  initial_counts (Z.of_nat (length (challenges app))) !! key = Some (Some n) ->
  updateDifficultyCounts app !! key
  = Some (Some (n + occurrences key (challenges app))).
Proof.
  intros Hk. unfold updateDifficultyCounts. apply fold_increment_lookup; [| exact Hk].
  intros ->. discriminate Hk.
Qed.

(** X11. Whatever the catalog holds and whatever is filtered, each of the
    four difficulty counts is the number of challenges of that difficulty,
    and the count under "all" is the length of the catalog plus the number
    of challenges whose difficulty is the string "all". *)
Theorem updateDifficultyCounts_counts (app : NeovimMastery) :
  let counts := updateDifficultyCounts app in
  let cs := challenges app in
  counts !! "Beginner" = Some (Some (occurrences "Beginner" cs))
  /\ counts !! "Intermediate" = Some (Some (occurrences "Intermediate" cs))
  /\ counts !! "Advanced" = Some (Some (occurrences "Advanced" cs))
  /\ counts !! "Expert" = Some (Some (occurrences "Expert" cs))
  /\ counts !! "all"
     = Some (Some (Z.of_nat (length cs) + occurrences "all" cs)).
Proof.
  cbv zeta.
  repeat split;
    first [ rewrite (updateDifficultyCounts_lookup app _ 0) by reflexivity;
            rewrite Z.add_0_l; reflexivity
          | apply updateDifficultyCounts_lookup; reflexivity ].
Qed.

Lemma occurrences_levels (cs : list Challenge) :
  (forall c, In c cs -> is_level (difficulty c) = true) ->
  occurrences "Beginner" cs + occurrences "Intermediate" cs
  + occurrences "Advanced" cs + occurrences "Expert" cs = Z.of_nat (length cs)
  /\ occurrences "all" cs = 0.
Proof.
  unfold occurrences. induction cs as [| c cs IH]; intros Hl; [split; reflexivity |].
  destruct IH as [IHs IHa]; [intros x Hx; apply Hl; right; exact Hx |].
  specialize (Hl c (or_introl eq_refl)). unfold is_level in Hl.
  simpl List.filter.
  destruct (String.eqb (difficulty c) "Beginner") eqn:Hb;
    [apply String.eqb_eq in Hb; rewrite Hb in *; simpl; split; lia |].
  destruct (String.eqb (difficulty c) "Intermediate") eqn:Hi;
    [apply String.eqb_eq in Hi; rewrite Hi in *; simpl; split; lia |].
  destruct (String.eqb (difficulty c) "Advanced") eqn:Ha;
    [apply String.eqb_eq in Ha; rewrite Ha in *; simpl; split; lia |].
  destruct (String.eqb (difficulty c) "Expert") eqn:He;
    [apply String.eqb_eq in He; rewrite He in *; simpl; split; lia |].
  discriminate Hl.
Qed.

(** X12. When every challenge has one of the four difficulties, the four
    counts add up to the count under "all", which is the length of the
    catalog. *)
Theorem updateDifficultyCounts_partition (app : NeovimMastery) :
  (forall c, In c (challenges app) -> is_level (difficulty c) = true) ->
  exists b i a e : Z,
    updateDifficultyCounts app !! "Beginner" = Some (Some b)
    /\ updateDifficultyCounts app !! "Intermediate" = Some (Some i)
    /\ updateDifficultyCounts app !! "Advanced" = Some (Some a)
    /\ updateDifficultyCounts app !! "Expert" = Some (Some e)
    /\ updateDifficultyCounts app !! "all" = Some (Some (b + i + a + e))
    /\ b + i + a + e = Z.of_nat (length (challenges app)).
Proof.
  intros Hl. destruct (occurrences_levels _ Hl) as [Hsum Hall].
  exists (occurrences "Beginner" (challenges app)),
    (occurrences "Intermediate" (challenges app)),
    (occurrences "Advanced" (challenges app)),
    (occurrences "Expert" (challenges app)).
  repeat split;
    try (rewrite (updateDifficultyCounts_lookup app _ 0) by reflexivity;
         rewrite Z.add_0_l; reflexivity).
  - rewrite (updateDifficultyCounts_lookup app "all" _ eq_refl).
    rewrite Hall, Hsum, Z.add_0_r. reflexivity.
  - exact Hsum.
Qed.








Lemma tag_chips_radio (l : list Chip) :
  forall h : nat -> bool,
  List.filter (fun chip => is_kind "tag" chip && active chip) (imap (radio h) l)
  = List.filter (fun chip => is_kind "tag" chip && active chip) l.
Proof.
  induction l as [| c l IH]; intros h; [reflexivity |].
  rewrite imap_cons. cbn [List.filter].
  rewrite (imap_ext _ (radio (h ∘ S))) by reflexivity.
  rewrite (IH (h ∘ S)).
  destruct (is_kind "difficulty" c) eqn:Hd.
  - unfold radio. rewrite Hd. unfold is_kind in *.
    cbn [set_active data_filter active].
    apply String.eqb_eq in Hd. rewrite Hd. reflexivity.
  - unfold radio. rewrite Hd. reflexivity.
Qed.

Lemma find_radio (l : list Chip) :
  forall (target : nat) (chip : Chip),
  l !! target = Some chip ->
  is_kind "difficulty" chip = true ->
  List.find (fun c => is_kind "difficulty" c && active c)
            (imap (radio (fun i => Nat.eqb i target)) l)
  = Some (set_active true chip).
Proof.
  induction l as [| c l IH]; intros target chip Hl Hk; [discriminate Hl |].
  rewrite imap_cons. destruct target as [| target].
  - injection Hl as ->. cbn [List.find].
    assert (Hr : radio (fun i => Nat.eqb i 0) 0%nat chip = set_active true chip)
      by (unfold radio; rewrite Hk; reflexivity).
    assert (Hp : is_kind "difficulty" (set_active true chip)
                 && active (set_active true chip) = true)
      by (unfold is_kind in *; cbn [set_active data_filter active];
          rewrite Hk; reflexivity).
    rewrite Hr, Hp. reflexivity.
  - cbn [List.find].
    assert (Hhead : is_kind "difficulty" (radio (fun i => Nat.eqb i (S target)) 0%nat c)
                    && active (radio (fun i => Nat.eqb i (S target)) 0%nat c) = false).
    { unfold radio. destruct (is_kind "difficulty" c) eqn:Hc.
      - cbn [Nat.eqb set_active active]. apply andb_false_r.
      - rewrite Hc. reflexivity. }
    rewrite Hhead.
    rewrite (imap_ext _ (radio (fun i => Nat.eqb i target))); [| reflexivity].
    apply IH; assumption.
Qed.

Lemma handleFilter_activeDifficulty (target : nat) (f : Filters) (chip : Chip) :
  chips f !! target = Some chip ->
  is_kind "difficulty" chip = true ->
  activeDifficulty (read_filters (handleFilter target f))
  = (if is_empty (data_value chip) then "all" else data_value chip).
Proof.
  intros Hl Hk. unfold handleFilter. rewrite Hl, Hk.
  unfold read_filters, activeDifficulty.
  cbn [difficulty_facet chips].
  rewrite (find_radio _ _ _ Hl Hk). reflexivity.
Qed.

(** X14. After a click on a difficulty chip, [applyFilters] reads the
    value of that chip as the active difficulty ("all" for an empty
    value), whatever was active before; the search text and the selected
    tags are as they were. *)
Theorem handleFilter_difficulty (target : nat) (f : Filters) (chip : Chip) :
  chips f !! target = Some chip ->
  is_kind "difficulty" chip = true ->
  let st := read_filters (handleFilter target f) in
  activeDifficulty st
    = (if is_empty (data_value chip) then "all" else data_value chip)
  /\ search_term st = search_term (read_filters f)
  /\ tag_facet st = tag_facet (read_filters f).
Proof.
  intros Hl Hk. cbv zeta.
  split; [apply handleFilter_activeDifficulty; assumption |].
  unfold handleFilter. rewrite Hl, Hk. unfold read_filters.
  cbn [search_term tag_facet search_input chips].
  rewrite tag_chips_radio. split; reflexivity.
Qed.

(** X15. A second click on a tag chip undoes the first: the chips are as
    they were. *)
Theorem handleFilter_tag_twice (target : nat) (f : Filters) (chip : Chip) :
  chips f !! target = Some chip ->
  is_kind "difficulty" chip = false ->
  handleFilter target (handleFilter target f) = f.
Proof.
  intros Hl Hk. destruct f as [input cs]. cbn [chips] in Hl.
  unfold handleFilter at 2. cbn [chips search_input]. rewrite Hl, Hk.
  destruct (is_kind "tag" chip) eqn:Ht.
  - unfold handleFilter. cbn [chips search_input].
    assert (Hlt : (target < length cs)%nat) by (eapply lookup_lt_Some; exact Hl).
    rewrite list_lookup_insert_eq by exact Hlt.
    unfold is_kind in *. cbn [set_active data_filter active]. rewrite Hk, Ht.
    rewrite list_insert_insert_eq, negb_involutive.
    f_equal. apply list_insert_id. rewrite Hl. destruct chip. reflexivity.
  - unfold handleFilter. cbn [chips search_input]. rewrite Hl, Hk, Ht. reflexivity.
Qed.

Lemma In_filter_matchesb (term d : string) (activeTags : list string)
    (catalog : list Challenge) (c : Challenge) :
  String.eqb d "all" = false ->
  In c (List.filter (matchesb term d activeTags) catalog) ->
  difficulty c = d.
Proof.
  intros Hd Hin. apply filter_In in Hin as [_ Hm]. unfold matchesb in Hm.
  rewrite Hd in Hm. apply andb_true_iff in Hm as [Hm _].
  apply andb_true_iff in Hm as [_ Hm]. apply String.eqb_eq. exact Hm.
Qed.

(** X16. After a click on the difficulty chip of a level, every challenge
    that [applyFilters] leaves visible has that difficulty. *)
Theorem click_difficulty_visible (target : nat) (f : Filters) (app : NeovimMastery)
    (chip : Chip) (vis : list Challenge) :
  chips f !! target = Some chip ->
  is_kind "difficulty" chip = true ->
  data_value chip <> EmptyString ->
  data_value chip <> "all" ->
  snd (click target f app) = Normal vis ->
  forall c, In c vis -> difficulty c = data_value chip.
Proof.
  intros Hl Hk Hne Hall Hvis c Hc. unfold click in Hvis. cbn [snd] in Hvis.
  rewrite computeVisible_eq in Hvis.
  destruct (existsb _ _); [discriminate Hvis |]. injection Hvis as <-.
  rewrite (handleFilter_activeDifficulty target f chip Hl Hk) in Hc.
  assert (He : is_empty (data_value chip) = false).
  { destruct (data_value chip); [contradiction | reflexivity]. }
  rewrite He in Hc. eapply In_filter_matchesb; [| exact Hc].
  apply String.eqb_neq. exact Hall.
Qed.

End PageFacts.

(** ** The flashcard deck *)

Section FlashcardFacts.
Import Flashcards.

Lemma at_index_in_range {A} (l : list A) (i : Z) :
  0 <= i < Z.of_nat (length l) -> exists x, at_index l i = Some x.
Proof.
  intros [H0 H1]. unfold at_index.
  destruct (Z.ltb_spec i 0) as [?|_]; [lia |].
  destruct (nth_error l (Z.to_nat i)) as [x|] eqn:E; [eauto |].
  apply nth_error_None in E. lia.
Qed.

Lemma renderFlashcard_fields (d : Deck) :
  flashcards (fst (renderFlashcard d)) = flashcards d
  /\ currentFlashcard (fst (renderFlashcard d)) = currentFlashcard d
  /\ flashcardStats (fst (renderFlashcard d)) = flashcardStats d.
Proof.
  unfold renderFlashcard.
  destruct (current_card d) as [[?|]|?]; repeat split; reflexivity.
Qed.

Lemma deck_ok_fields (d d' : Deck) :
  flashcards d' = flashcards d ->
  currentFlashcard d' = currentFlashcard d ->
  flashcardStats d' = flashcardStats d ->
  deck_ok d -> deck_ok d'.
Proof.
  unfold deck_ok. intros -> -> ->. exact (fun H => H).
Qed.

Lemma renderFlashcard_ok (d : Deck) : deck_ok d -> deck_ok (fst (renderFlashcard d)).
Proof.
  destruct (renderFlashcard_fields d) as (? & ? & ?).
  apply deck_ok_fields; assumption.
Qed.

Lemma nextCard_ok (d : Deck) : deck_ok d -> deck_ok (fst (nextCard d)).
Proof.
  intros Hd. unfold nextCard.
  destruct (flashcards d) as [cards|] eqn:Ef; [| exact Hd].
  destruct (Z.ltb_spec (currentFlashcard d) (Z.of_nat (length cards) - 1)) as [Hlt|_];
    [| exact Hd].
  apply renderFlashcard_ok.
  unfold deck_ok in *. cbn [set_currentFlashcard flashcards currentFlashcard flashcardStats].
  rewrite Ef in *. destruct Hd as (Hi & Hs). split; [| exact Hs].
  destruct cards as [|card cards]; cbn [length] in *; lia.
Qed.

Lemma previousCard_ok (d : Deck) : deck_ok d -> deck_ok (fst (previousCard d)).
Proof.
  intros Hd. unfold previousCard.
  destruct (Z.ltb_spec 0 (currentFlashcard d)) as [Hlt|_]; [| exact Hd].
  apply renderFlashcard_ok.
  unfold deck_ok in *. cbn [set_currentFlashcard flashcards currentFlashcard flashcardStats].
  destruct Hd as (Hi & Hs). split; [| exact Hs].
  destruct (flashcards d) as [[|card cards]|]; lia.
Qed.

Lemma revealAnswer_ok (d : Deck) : deck_ok d -> deck_ok (fst (revealAnswer d)).
Proof.
  intros Hd. unfold revealAnswer.
  destruct (current_card d) as [[card|]|?]; [| exact Hd | exact Hd].
  destruct (selectedChoice d) as [choice|]; [| exact Hd].
  unfold deck_ok in *.
  cbn [fst set_flashcardStats flashcards currentFlashcard flashcardStats].
  destruct Hd as (Hi & Ht & Hc & Hw). split; [exact Hi |].
  destruct (choice =? correct_index card);
    cbn [correct incorrect total]; lia.
Qed.

Lemma playing_ok (d : Deck) : playing d -> deck_ok d.
Proof.
  induction 1 as [sample|d _ IH|d _ IH|choice d _ IH|d _ IH].
  - destruct sample as [cards|]; cbn [initFlashcards].
    + apply renderFlashcard_ok. unfold deck_ok.
      cbn [flashcards currentFlashcard flashcardStats new_deck correct incorrect total].
      split; [| lia]. destruct cards; cbn [length]; lia.
    + unfold deck_ok. cbn. lia.
  - apply nextCard_ok, IH.
  - apply previousCard_ok, IH.
  - exact IH.
  - apply revealAnswer_ok, IH.
Qed.

(** X17. However the learner got to the deck, revealing the answer ends
    normally when the deck has a card and throws a [TypeError] when the
    deck is empty or was never set up. *)
Theorem revealAnswer_throws_without_card (d : Deck) :
  playing d ->
  snd (revealAnswer d) =
    match flashcards d with
    | Some (_ :: _) => None
    | _ => Some TypeError
    end.
Proof.
  intros Hp. destruct (playing_ok d Hp) as (Hi & _).
  unfold revealAnswer, current_card.
  destruct (flashcards d) as [[|card cards]|];
    [rewrite Hi; reflexivity | | reflexivity].
  destruct (at_index_in_range (card :: cards) (currentFlashcard d) Hi) as [x ->].
  destruct (selectedChoice d); reflexivity.
Qed.

(** X18. The statistics of the flashcards stay consistent: the number of
    answers counted is the number of right ones plus the number of wrong
    ones, and neither is negative. *)
Theorem flashcardStats_consistent (d : Deck) :
  playing d ->
  total (flashcardStats d)
    = correct (flashcardStats d) + incorrect (flashcardStats d)
  /\ 0 <= correct (flashcardStats d)
  /\ 0 <= incorrect (flashcardStats d).
Proof.
  intros Hp. exact (proj2 (playing_ok d Hp)).
Qed.

(** X19. From a card that is not the last one, the next-card arrow
    followed by the previous-card arrow comes back to the same card with
    the same statistics, without an exception, and with no choice
    selected. *)
Theorem nextCard_previousCard (d : Deck) (cards : list Flashcard) :
  playing d ->
  flashcards d = Some cards ->
  currentFlashcard d < Z.of_nat (length cards) - 1 ->
  snd (nextCard d) = None
  /\ previousCard (fst (nextCard d)) = (set_selectedChoice None d, None).
Proof.
  intros Hp Ef Hlt. destruct (playing_ok d Hp) as (Hi & _). rewrite Ef in Hi.
  assert (H0 : 0 <= currentFlashcard d) by (destruct cards; lia).
  unfold nextCard. rewrite Ef.
  destruct (Z.ltb_spec (currentFlashcard d) (Z.of_nat (length cards) - 1)) as [_|?];
    [| lia].
  destruct (at_index_in_range cards (currentFlashcard d + 1) ltac:(lia)) as [next Hn].
  destruct (at_index_in_range cards (currentFlashcard d) ltac:(lia)) as [cur Hc].
  unfold renderFlashcard at 1 2, current_card.
  cbn [set_currentFlashcard flashcards currentFlashcard]. rewrite Ef, Hn.
  cbn [fst snd]. split; [reflexivity |].
  unfold previousCard.
  cbn [set_selectedChoice set_currentFlashcard currentFlashcard].
  destruct (Z.ltb_spec 0 (currentFlashcard d + 1)) as [_|?]; [| lia].
  unfold renderFlashcard, current_card.
  cbn [set_selectedChoice set_currentFlashcard flashcards currentFlashcard].
  replace (currentFlashcard d + 1 - 1) with (currentFlashcard d) by lia.
  rewrite Ef, Hc. unfold set_selectedChoice, set_currentFlashcard.
  cbn [flashcards currentFlashcard flashcardStats selectedChoice].
  replace (currentFlashcard d + 1 - 1) with (currentFlashcard d) by lia.
  reflexivity.
Qed.

(** X20. Nothing stops a second reveal on the same card: with a choice
    selected, revealing twice counts the answer twice. *)
Theorem revealAnswer_twice_counts_twice (d : Deck) (card : Flashcard) (choice : Z) :
  current_card d = Normal (Some card) ->
  selectedChoice d = Some choice ->
  let d2 := fst (revealAnswer (fst (revealAnswer d))) in
  total (flashcardStats d2) = total (flashcardStats d) + 2
  /\ (if choice =? correct_index card
      then correct (flashcardStats d2) = correct (flashcardStats d) + 2
      else incorrect (flashcardStats d2) = incorrect (flashcardStats d) + 2).
Proof.
  intros Hc Hs.
  assert (H1 : forall e, current_card e = Normal (Some card) ->
               selectedChoice e = Some choice ->
               current_card (fst (revealAnswer e)) = Normal (Some card)
               /\ selectedChoice (fst (revealAnswer e)) = Some choice
               /\ total (flashcardStats (fst (revealAnswer e)))
                  = total (flashcardStats e) + 1
               /\ (if choice =? correct_index card
                   then correct (flashcardStats (fst (revealAnswer e)))
                        = correct (flashcardStats e) + 1
                   else incorrect (flashcardStats (fst (revealAnswer e)))
                        = incorrect (flashcardStats e) + 1)).
  { intros e He Hse. unfold revealAnswer. rewrite He, Hse. cbn [fst].
    unfold current_card in *.
    cbn [set_flashcardStats flashcards currentFlashcard selectedChoice flashcardStats].
    repeat split; try assumption.
    - destruct (choice =? correct_index card); reflexivity.
    - destruct (choice =? correct_index card); reflexivity. }
  destruct (H1 d Hc Hs) as (Hc1 & Hs1 & Ht1 & Hk1).
  destruct (H1 _ Hc1 Hs1) as (_ & _ & Ht2 & Hk2).
  cbv zeta. split; [lia |].
  destruct (choice =? correct_index card); lia.
Qed.

End FlashcardFacts.

(** ** The cheatsheet *)

Section CheatsheetFacts.
Import Cheatsheet.

Lemma existsb_filter_nil {A} (p : A -> bool) (l : list A) :
  existsb p l = negb (is_nil (List.filter p l)).
Proof.
  induction l as [| x l IH]; [reflexivity |].
  cbn [existsb List.filter]. destruct (p x); [reflexivity | exact IH].
Qed.

(** X21. The two questions the table asks of a category agree: the
    category is said to have settings (key bindings) exactly when the list
    of its items with settings (key bindings) is not empty, and that list
    holds the items of the sheet in this category that carry them, and no
    other. *)
Theorem category_lists_agree (categoryId : string) (s : Sheet) :
  (hasSettingsInCategory categoryId s
     = negb (is_nil (getSettingsForCategory categoryId s))
   /\ forall item,
        In item (getSettingsForCategory categoryId s) <->
        (exists l, items s = Some l /\ In item l)
        /\ category item = categoryId /\ has_settings item = true)
  /\ (hasKeybindingsInCategory categoryId s
        = negb (is_nil (getKeybindingsForCategory categoryId s))
      /\ forall item,
           In item (getKeybindingsForCategory categoryId s) <->
           (exists l, items s = Some l /\ In item l)
           /\ category item = categoryId /\ has_keybindings item = true).
Proof.
  unfold hasSettingsInCategory, getSettingsForCategory,
    hasKeybindingsInCategory, getKeybindingsForCategory.
  destruct (items s) as [l|].
  - split; (split; [apply existsb_filter_nil |]); intros item;
      rewrite filter_In, andb_true_iff, String.eqb_eq; split.
    + intros (Hin & Hc & Hs). eauto.
    + intros ((l' & [= <-] & Hin) & Hc & Hs). auto.
    + intros (Hin & Hc & Hs). eauto.
    + intros ((l' & [= <-] & Hin) & Hc & Hs). auto.
  - split; (split; [reflexivity |]); intros item; split;
      [intros [] | intros ((l' & [=] & _) & _) | intros []
       | intros ((l' & [=] & _) & _)].
Qed.

Lemma is_empty_trim_lower (q : string) :
  is_empty (trim (toLowerCase q)) = is_empty (trim q).
Proof. rewrite trim_lower. apply is_empty_lower. Qed.

(** X22. The search of the cheatsheet looks at the query only up to case
    and surrounding white space: two queries with the same trimmed
    lower-case form select the same rows. *)
Theorem matchesSearch_normalises_query (s s' : Sheet) (item : Item)
    (contentItem : ContentItem) :
  trim (toLowerCase (searchQuery s)) = trim (toLowerCase (searchQuery s')) ->
  matchesSearch s item contentItem = matchesSearch s' item contentItem.
Proof.
  intros E. unfold matchesSearch.
  rewrite <- (is_empty_trim_lower (searchQuery s)),
          <- (is_empty_trim_lower (searchQuery s')), E.
  reflexivity.
Qed.

End CheatsheetFacts.

(** ** The theme *)

Section ThemeFacts.
Import Theme.

Lemma system_theme_not_empty (prefersDark : bool) :
  is_empty (system_theme prefersDark) = false.
Proof. destruct prefersDark; reflexivity. Qed.

Lemma getPreferredTheme_not_empty (prefersDark : bool) (b : Browser) :
  is_empty (getPreferredTheme prefersDark b) = false.
Proof.
  unfold getPreferredTheme.
  destruct (storage b !! theme_key) as [stored|];
    [destruct (is_empty stored) eqn:E; [| exact E] |];
    apply system_theme_not_empty.
Qed.

Lemma setTheme_kept (theme : string) (b : Browser) :
  is_empty theme = false ->
  (forall prefersDark, getPreferredTheme prefersDark (setTheme theme b) = theme)
  /\ (forall matches, on_preference_change matches (setTheme theme b)
                      = setTheme theme b).
Proof.
  intros Hn. unfold getPreferredTheme, on_preference_change.
  cbn [setTheme storage]. rewrite lookup_insert_eq, Hn. split; reflexivity.
Qed.

(** X23. Once [init] has run the theme is settled: the attribute and the
    stored theme agree, a later change of the system preference changes
    nothing, and neither does a second [init] under another system
    preference. *)
Theorem init_settles_theme (prefersDark : bool) (b : Browser) :
  let b' := init prefersDark b in
  data_theme b' = storage b' !! theme_key
  /\ (forall matches, on_preference_change matches b' = b')
  /\ (forall prefersDark', init prefersDark' b' = b').
Proof.
  cbv zeta. unfold init.
  pose proof (getPreferredTheme_not_empty prefersDark b) as Hn.
  destruct (setTheme_kept _ b Hn) as (Hg & Hw).
  split; [| split].
  - cbn [setTheme storage data_theme]. rewrite lookup_insert_eq. reflexivity.
  - exact Hw.
  - intros p'. rewrite Hg. unfold setTheme at 1 3.
    cbn [setTheme storage data_theme]. rewrite insert_insert_eq. reflexivity.
Qed.

(** X24. A theme that is set is the theme that is preferred afterwards,
    except for the empty theme: after [setTheme] with the empty string the
    system preference decides again. *)
Theorem setTheme_getPreferredTheme (theme : string) (prefersDark : bool)
    (b : Browser) :
  getPreferredTheme prefersDark (setTheme theme b)
  = if is_empty theme then system_theme prefersDark else theme.
Proof.
  unfold getPreferredTheme. cbn [setTheme storage].
  rewrite lookup_insert_eq. reflexivity.
Qed.

End ThemeFacts.

(** ** More on the evaluator and on the filter *)

Section LenientKinds.
Context `{platform_JSON : JSON}.

Lemma evaluateExercise_other_kinds (exercise : Exercise) (userContent : string)
    (cursor : Cursor) (random : spec_float) :
  solution_check exercise <> "cursor_position" ->
  solution_check exercise <> "text_content" ->
  v_success (evaluateExercise exercise userContent cursor random) = true.
Proof.
  intros Hc Ht. unfold evaluateExercise.
  apply String.eqb_neq in Hc, Ht. rewrite Hc, Ht.
  repeat match goal with |- context [String.eqb ?a ?b] => destruct (String.eqb a b) end;
    reflexivity.
Qed.

(** X25. An exercise that is checked neither by cursor position nor by
    text content is counted as a success on every submission, whatever
    the editor holds: both the attempts and the successes go up by one. *)
Theorem submitExercise_other_kinds_succeed (now : string) (random : spec_float)
    (app : NeovimMastery) (ed : Editor) (exercise : Exercise) :
  editor app = Some ed ->
  currentExercise app = Some exercise ->
  solution_check exercise <> "cursor_position" ->
  solution_check exercise <> "text_content" ->
  exerciseStats (submitExercise now random app)
  = {| completed := completed (exerciseStats app) + 1;
       total := total (exerciseStats app);
       success := success (exerciseStats app) + 1 |}.
Proof.
  intros He Hx Hc Ht. unfold submitExercise. rewrite He, Hx.
  rewrite saveExerciseProgress_exerciseStats.
  rewrite (evaluateExercise_other_kinds exercise _ _ random Hc Ht).
  reflexivity.
Qed.

End LenientKinds.

Section IdentityFilter.

Lemma is_array_loaded (c : Challenge) :
  LoadedSpec.is_array (Loaded.tags_value (Loaded.loaded c)) = negb (no_tags c).
Proof. unfold Loaded.loaded, no_tags. cbn. destruct (tags c); reflexivity. Qed.

(** X26. With nothing in the search box but white space, the difficulty
    on "all" and no tag selected, the filter pass keeps the whole catalog
    in its order, also when challenges have no [tags];
    [this.filteredChallenges] is the catalog, and [applyFilters] returns
    normally exactly when every challenge has its [tags]: the redraw
    throws a [TypeError] on the card of a challenge without them. *)
Theorem computeVisible_no_filter (catalog : list Challenge) (st : FilterState)
    (completedChallenges : gset json) (g : Loaded.Grid) :
  stripped (search_term st) EmptyString ->
  activeDifficulty st = "all" ->
  tag_facet st = [] ->
  let after :=
    Loaded.applyFilters EmptyString st completedChallenges
      (map Loaded.loaded catalog) g in
  computeVisible catalog st = Normal catalog
  /\ Loaded.filteredChallenges (fst after) = map Loaded.loaded catalog
  /\ snd after = (if existsb no_tags catalog then Some TypeError else None).
Proof.
  intros Hs Hd Ht. cbv zeta. apply stripped_trim in Hs. symmetry in Hs.
  assert (Hv : computeVisible catalog st = Normal catalog).
  { rewrite computeVisible_eq.
    rewrite trim_lower, Hs, Hd, Ht. cbn [toLowerCase].
    assert (Hno : existsb (fun c => no_tags c && consults_tags st c) catalog = false).
    { clear - Hs Ht.
      induction catalog as [| c l IH]; [reflexivity |].
      cbn [existsb]. rewrite IH. unfold consults_tags, reads_tags.
      rewrite trim_lower, Hs, Ht. cbn. rewrite andb_false_r. reflexivity. }
    rewrite Hno. f_equal.
    clear Hno. induction catalog as [| c l IH]; [reflexivity |].
    cbn [List.filter]. unfold matchesb at 1. cbn.
    rewrite IH. reflexivity. }
  split; [exact Hv |].
  unfold Loaded.applyFilters. rewrite filter_pass_loaded, Hv.
  pose proof (renderChallenges_thrown completedChallenges
                (map Loaded.loaded catalog)) as Hr.
  destruct (Loaded.renderChallenges _ _) as [grid thrown].
  cbn [fst snd Loaded.filteredChallenges] in *. split; [reflexivity |].
  rewrite Hr. clear.
  induction catalog as [| c l IH]; [reflexivity |].
  cbn [map forallb existsb]. rewrite is_array_loaded.
  destruct (no_tags c); [reflexivity | exact IH].
Qed.

End IdentityFilter.

(** ** The properties above on sample data *)

Section OnSamples.
#[local] Existing Instance SampleJSON.sample_JSON.

(** Completing the first challenge from the open modal. *)
Lemma completeChallenge_adds_witness :
  completedChallenges
    (Modal.controller
       (Modal.completeChallenge Samples.timestamp MoreSamples.modal_on_basics))
    = completedChallenges (Modal.controller MoreSamples.modal_on_basics)
      ∪ {[JNum (id Samples.vim_basics)]}
  /\ completedChallenges
       (Modal.controller
          (Modal.completeChallenge Samples.timestamp
             (Modal.completeChallenge Samples.timestamp MoreSamples.modal_on_basics)))
     = completedChallenges
         (Modal.controller
            (Modal.completeChallenge Samples.timestamp MoreSamples.modal_on_basics)).
Proof.
  apply (completeChallenge_adds Samples.timestamp Samples.timestamp
           MoreSamples.modal_on_basics Samples.vim_basics).
  reflexivity.
Defined.

(** Opening the modal on id 1 and completing. *)
Lemma open_then_complete_witness :
  completedChallenges
    (Modal.controller
       (Modal.completeChallenge Samples.timestamp
          (Modal.openChallengeModal 1 MoreSamples.modal_closed)))
  = completedChallenges (Modal.controller MoreSamples.modal_closed) ∪ {[JNum 1]}.
Proof.
  apply (open_then_complete Samples.timestamp 1 MoreSamples.modal_closed).
  exists Samples.vim_basics. split; [left; reflexivity | reflexivity].
Defined.

(** With the first challenge open, a next challenge is looked for. *)
Lemma suggestNextChallenge_spec_witness :
  exists r,
    Modal.suggestNextChallenge MoreSamples.modal_on_basics = Normal r
    /\ match r with
       | Some c =>
           In c (challenges (Modal.controller MoreSamples.modal_on_basics))
           /\ (JNum (id c)
               ∉ completedChallenges (Modal.controller MoreSamples.modal_on_basics))
           /\ id c <> id Samples.vim_basics
       | None =>
           forall c,
             In c (challenges (Modal.controller MoreSamples.modal_on_basics)) ->
             JNum (id c)
               ∈ completedChallenges (Modal.controller MoreSamples.modal_on_basics)
             \/ id c = id Samples.vim_basics
       end.
Proof.
  apply (suggestNextChallenge_spec MoreSamples.modal_on_basics Samples.vim_basics).
  reflexivity.
Defined.

(** Statistics saved and loaded through the sample JSON text. *)
Lemma loadExerciseProgress_roundtrip_witness :
  ExerciseProgress.loadExerciseProgress
    (constructor [Samples.vim_basics]
       (localStorage
          (saveExerciseProgress Samples.timestamp MoreSamples.practising_words)))
  = Normal
      (ExerciseProgress.stats_object (exerciseStats MoreSamples.practising_words)).
Proof.
  apply (loadExerciseProgress_roundtrip Samples.timestamp [Samples.vim_basics]
           MoreSamples.practising_words).
  split; [vm_compute; discriminate | vm_compute; reflexivity].
Defined.

(** Text that is not JSON under the key of the exercise record. *)
Lemma loadExerciseProgress_recovers_witness :
  ExerciseProgress.loadExerciseProgress MoreSamples.garbage_statistics
  = Normal
      (ExerciseProgress.stats_object (exerciseStats MoreSamples.garbage_statistics)).
Proof.
  apply (loadExerciseProgress_recovers MoreSamples.garbage_statistics).
  right. left. exists "not json{", SyntaxError.
  split; [reflexivity | vm_compute; reflexivity].
Defined.

(** A stored record with [completed] only: [total] keeps its value. *)
Lemma loadExerciseProgress_merges_witness :
  exists stats,
    ExerciseProgress.loadExerciseProgress MoreSamples.partial_statistics
      = Normal stats
    /\ lookup_prop "total" stats
       = lookup_prop "total"
           (ExerciseProgress.stats_object
              (exerciseStats MoreSamples.partial_statistics)).
Proof.
  apply (loadExerciseProgress_merges MoreSamples.partial_statistics
           (JSON_stringify MoreSamples.partial_document)
           MoreSamples.partial_document
           (Some (JObj [("completed", JNum 5)])) "total").
  - reflexivity.
  - vm_compute. reflexivity.
  - reflexivity.
  - intros p [<- | []]. discriminate.
Defined.

(** Both sample challenges have one of the four difficulties. *)
Lemma updateDifficultyCounts_partition_witness :
  exists b i a e : Z,
    Page.updateDifficultyCounts MoreSamples.two_challenges !! "Beginner"
      = Some (Some b)
    /\ Page.updateDifficultyCounts MoreSamples.two_challenges !! "Intermediate"
       = Some (Some i)
    /\ Page.updateDifficultyCounts MoreSamples.two_challenges !! "Advanced"
       = Some (Some a)
    /\ Page.updateDifficultyCounts MoreSamples.two_challenges !! "Expert"
       = Some (Some e)
    /\ Page.updateDifficultyCounts MoreSamples.two_challenges !! "all"
       = Some (Some (b + i + a + e))
    /\ b + i + a + e = Z.of_nat (length (challenges MoreSamples.two_challenges)).
Proof.
  apply (updateDifficultyCounts_partition MoreSamples.two_challenges).
  intros c [<- | [<- | []]]; reflexivity.
Defined.

(** A click on the chip of the beginners. *)
Lemma handleFilter_difficulty_witness :
  activeDifficulty (Page.read_filters (Page.handleFilter 1 MoreSamples.filter_bar))
    = "Beginner"
  /\ search_term (Page.read_filters (Page.handleFilter 1 MoreSamples.filter_bar))
     = search_term (Page.read_filters MoreSamples.filter_bar)
  /\ tag_facet (Page.read_filters (Page.handleFilter 1 MoreSamples.filter_bar))
     = tag_facet (Page.read_filters MoreSamples.filter_bar).
Proof.
  apply (handleFilter_difficulty 1 MoreSamples.filter_bar
           {| Page.data_filter := "difficulty"; Page.data_value := "Beginner";
              Page.active := false |});
    reflexivity.
Defined.

(** Two clicks on the tag chip. *)
Lemma handleFilter_tag_twice_witness :
  Page.handleFilter 3 (Page.handleFilter 3 MoreSamples.filter_bar)
  = MoreSamples.filter_bar.
Proof.
  apply (handleFilter_tag_twice 3 MoreSamples.filter_bar
           {| Page.data_filter := "tag"; Page.data_value := "motions";
              Page.active := false |});
    reflexivity.
Defined.

(** After a click on the chip of the beginners the first sample challenge
    is the one left. *)
Lemma click_difficulty_visible_witness :
  difficulty Samples.vim_basics = "Beginner".
Proof.
  apply (click_difficulty_visible 1 MoreSamples.filter_bar MoreSamples.two_challenges
           {| Page.data_filter := "difficulty"; Page.data_value := "Beginner";
              Page.active := false |}
           [Samples.vim_basics]).
  - reflexivity.
  - reflexivity.
  - discriminate.
  - discriminate.
  - vm_compute. reflexivity.
  - left. reflexivity.
Defined.

(** On the second of two cards. *)
Lemma revealAnswer_throws_without_card_witness :
  snd (Flashcards.revealAnswer (fst (Flashcards.nextCard MoreSamples.two_cards)))
  = None.
Proof.
  apply (revealAnswer_throws_without_card
           (fst (Flashcards.nextCard MoreSamples.two_cards))).
  apply Flashcards.playing_next, Flashcards.playing_init.
Defined.

(** After one answer. *)
Lemma flashcardStats_consistent_witness :
  Flashcards.total
    (Flashcards.flashcardStats (fst (Flashcards.revealAnswer MoreSamples.chosen)))
  = Flashcards.correct
      (Flashcards.flashcardStats (fst (Flashcards.revealAnswer MoreSamples.chosen)))
    + Flashcards.incorrect
        (Flashcards.flashcardStats (fst (Flashcards.revealAnswer MoreSamples.chosen)))
  /\ 0 <= Flashcards.correct
            (Flashcards.flashcardStats (fst (Flashcards.revealAnswer MoreSamples.chosen)))
  /\ 0 <= Flashcards.incorrect
            (Flashcards.flashcardStats (fst (Flashcards.revealAnswer MoreSamples.chosen))).
Proof.
  apply (flashcardStats_consistent (fst (Flashcards.revealAnswer MoreSamples.chosen))).
  apply Flashcards.playing_reveal, Flashcards.playing_select, Flashcards.playing_init.
Defined.

(** From the first of two cards, with a choice selected. *)
Lemma nextCard_previousCard_witness :
  snd (Flashcards.nextCard MoreSamples.chosen) = None
  /\ Flashcards.previousCard (fst (Flashcards.nextCard MoreSamples.chosen))
     = (Flashcards.set_selectedChoice None MoreSamples.chosen, None).
Proof.
  apply (nextCard_previousCard MoreSamples.chosen
           [MoreSamples.card_motion; MoreSamples.card_mode]).
  - apply Flashcards.playing_select, Flashcards.playing_init.
  - reflexivity.
  - reflexivity.
Defined.

(** The right choice of the first card, revealed twice. *)
Lemma revealAnswer_twice_counts_twice_witness :
  Flashcards.total
    (Flashcards.flashcardStats
       (fst (Flashcards.revealAnswer (fst (Flashcards.revealAnswer MoreSamples.chosen)))))
  = Flashcards.total (Flashcards.flashcardStats MoreSamples.chosen) + 2
  /\ Flashcards.correct
       (Flashcards.flashcardStats
          (fst (Flashcards.revealAnswer (fst (Flashcards.revealAnswer MoreSamples.chosen)))))
     = Flashcards.correct (Flashcards.flashcardStats MoreSamples.chosen) + 2.
Proof.
  apply (revealAnswer_twice_counts_twice MoreSamples.chosen MoreSamples.card_motion 1);
    reflexivity.
Defined.

(** The query in capitals between spaces, and in lower case. *)
Lemma matchesSearch_normalises_query_witness :
  Cheatsheet.matchesSearch (MoreSamples.sheet_with " VIM ")
    MoreSamples.leader_item MoreSamples.leader_row
  = Cheatsheet.matchesSearch (MoreSamples.sheet_with "vim")
      MoreSamples.leader_item MoreSamples.leader_row.
Proof.
  apply (matchesSearch_normalises_query (MoreSamples.sheet_with " VIM ")
           (MoreSamples.sheet_with "vim")).
  reflexivity.
Defined.

(** A submission of the word exercise. *)
Lemma submitExercise_other_kinds_succeed_witness :
  exerciseStats
    (submitExercise Samples.timestamp (of_Z 0) MoreSamples.practising_words)
  = {| completed := completed (exerciseStats MoreSamples.practising_words) + 1;
       total := total (exerciseStats MoreSamples.practising_words);
       success := success (exerciseStats MoreSamples.practising_words) + 1 |}.
Proof.
  apply (submitExercise_other_kinds_succeed Samples.timestamp (of_Z 0)
           MoreSamples.practising_words
           {| getValue := "anything"; getCursor := Samples.at_origin |}
           MoreSamples.word_motions).
  - reflexivity.
  - reflexivity.
  - discriminate.
  - discriminate.
Defined.

(** The two sample challenges, one of them without tags: both are kept,
    and the redraw throws. *)
Lemma computeVisible_no_filter_witness :
  computeVisible [Samples.vim_basics; Samples.untagged] MoreSamples.blank_search
    = Normal [Samples.vim_basics; Samples.untagged]
  /\ Loaded.filteredChallenges
       (fst (Loaded.applyFilters EmptyString MoreSamples.blank_search ∅
               (map Loaded.loaded [Samples.vim_basics; Samples.untagged])
               MoreSamples.empty_grid))
     = map Loaded.loaded [Samples.vim_basics; Samples.untagged]
  /\ snd (Loaded.applyFilters EmptyString MoreSamples.blank_search ∅
            (map Loaded.loaded [Samples.vim_basics; Samples.untagged])
            MoreSamples.empty_grid)
     = Some TypeError.
Proof.
  apply (computeVisible_no_filter [Samples.vim_basics; Samples.untagged]
           MoreSamples.blank_search ∅ MoreSamples.empty_grid).
  - exact (trim_stripped "  ").
  - reflexivity.
  - reflexivity.
Defined.


End OnSamples.
